(** * Message normalisation and thinking-block codec of the Cursor proxy

    A shallow embedding of [transform.ts] (request normalisation, format
    detection, thinking-block text codec, thinking-consistency filter) and
    the properties its design document states about it.

    Conventions of the embedding.
    - A JavaScript string is a [string]: each [ascii] is one UTF-16 code
      unit below 256.  Code units from 256 on are outside the model.
    - A JavaScript [number] that counts tokens is a [Z]; the temperature,
      which is only carried along, is a [Q].
    - An object literal used as a dictionary is a [gmap] over its own keys,
      beside the names that a lookup finds on [Object.prototype]; a
      [Set<string>] is a [gset string].
    - [JSON.parse] is a builtin of the platform, not code of the
      repository: functions that call it take it as a section variable.
    - Log calls are omitted: the logger only writes to the console. *)

From Stdlib Require Import Ascii NArith ZArith QArith Lia Bool List.
From stdpp Require Import gmap strings.
Import ListNotations.

Set Warnings "-register-all,-clear-no-such-hyp".
#[global] Arguments String.append !_ _ / : simpl nomatch.

(** ** JavaScript string primitives used by the source *)

Module JsString.

Definition isEmpty (s : string) : bool :=
  match s with EmptyString => true | String _ _ => false end.

(** JavaScript truthiness of a string: every string but the empty one. *)
Definition truthy (s : string) : bool := negb (isEmpty s).

(** Truthiness of an optional string property ([undefined] is falsy). *)
Definition truthyOpt (o : option string) : bool :=
  match o with Some s => truthy s | None => false end.

Definition nl : string := String "010"%char EmptyString.

(** [WhiteSpace] and [LineTerminator] code units below 256:
    TAB, LF, VT, FF, CR, SP and NBSP. *)
Definition isWhiteSpace (c : ascii) : bool :=
  match c with
  | "009" | "010" | "011" | "012" | "013" | " " | "160" => true
  | _ => false
  end%char.

Fixpoint trimStart (s : string) : string :=
  match s with
  | EmptyString => EmptyString
  | String c r => if isWhiteSpace c then trimStart r else s
  end.

Fixpoint trimEnd (s : string) : string :=
  match s with
  | EmptyString => EmptyString
  | String c r =>
      let r' := trimEnd r in
      if isWhiteSpace c && isEmpty r' then EmptyString else String c r'
  end.

(** [String.prototype.trim]. *)
Definition trim (s : string) : string := trimEnd (trimStart s).

(** [stripPrefix p s] is [Some r] when [s = p ++ r]: matching the
    literal [p] at the current position of a regular expression. *)
Fixpoint stripPrefix (p s : string) : option string :=
  match p with
  | EmptyString => Some s
  | String a p' =>
      match s with
      | EmptyString => None
      | String b s' => if Ascii.eqb a b then stripPrefix p' s' else None
      end
  end.

Definition startsWith (p s : string) : bool :=
  match stripPrefix p s with Some _ => true | None => false end.

(** [String.prototype.includes]. *)
Fixpoint includes (needle s : string) : bool :=
  startsWith needle s
  || match s with
     | EmptyString => false
     | String _ r => includes needle r
     end.

(** [span p s]: the longest prefix of [s] whose code units satisfy [p],
    and the rest: a greedy character-class repetition. *)
Fixpoint span (p : ascii -> bool) (s : string) : string * string :=
  match s with
  | EmptyString => (EmptyString, EmptyString)
  | String c r =>
      if p c then let '(a, b) := span p r in (String c a, b)
      else (EmptyString, s)
  end.

(** The code unit before the end of input. *)
Fixpoint lastChar (s : string) : option ascii :=
  match s with
  | EmptyString => None
  | String c r =>
      match lastChar r with Some d => Some d | None => Some c end
  end.

(** Every code unit of [s] satisfies [p]. *)
Fixpoint allChars (p : ascii -> bool) (s : string) : bool :=
  match s with
  | EmptyString => true
  | String c r => p c && allChars p r
  end.

(** [Array.prototype.join]. *)
Fixpoint join (sep : string) (l : list string) : string :=
  match l with
  | [] => EmptyString
  | [x] => x
  | x :: r => x +:+ sep +:+ join sep r
  end.

Definition lowerChar (c : ascii) : ascii :=
  let n := N_of_ascii c in
  if ((65 <=? n) && (n <=? 90))%N then ascii_of_N (n + 32)
  else if ((192 <=? n) && (n <=? 222) && negb (n =? 215))%N
       then ascii_of_N (n + 32)
  else c.

(** [String.prototype.toLowerCase] on code units below 256. *)
Fixpoint toLowerCase (s : string) : string :=
  match s with
  | EmptyString => EmptyString
  | String c r => String (lowerChar c) (toLowerCase r)
  end.

(** [Buffer.from(text, "utf-8")]: a code unit below 128 is one byte, one
    from 128 to 255 is the two bytes [110000xx 10xxxxxx]. *)
Fixpoint utf8 (s : string) : list N :=
  match s with
  | EmptyString => []
  | String c r =>
      let n := N_of_ascii c in
      if (n <? 128)%N then n :: utf8 r
      else (N.lor 192 (N.shiftr n 6))%N :: (N.lor 128 (N.land n 63))%N :: utf8 r
  end.

End JsString.

(** ** zlib's [crc32] and the hexadecimal rendering of [calculateCrc32] *)

Module Crc32.

(** One bit of the reflected CRC-32 (polynomial [0xEDB88320]). *)
Definition step (c : N) : N :=
  (if N.odd c then N.lxor (N.shiftr c 1) 0xEDB88320 else N.shiftr c 1)%N.

Definition update (c byte : N) : N := Nat.iter 8 step (N.lxor c byte).

(** [crc32(buf)] of zlib: initial value and final xor [0xFFFFFFFF]. *)
Definition crc32 (buf : list N) : N :=
  (N.lxor (fold_left update buf 0xFFFFFFFF) 0xFFFFFFFF)%N.

Definition hexDigit (d : N) : ascii :=
  (if d <? 10 then ascii_of_N (48 + d) else ascii_of_N (87 + d))%N.

Fixpoint toHex (fuel : nat) (n : N) (acc : string) : string :=
  match fuel with
  | O => acc
  | S f =>
      let acc' := String (hexDigit (n mod 16)) acc in
      if (n / 16 =? 0)%N then acc' else toHex f (n / 16) acc'
  end.

(** [Number.prototype.toString(16)] of a natural number. *)
Definition toString16 (n : N) : string :=
  toHex (S (N.to_nat (N.log2 n))) n EmptyString.

(** [String.prototype.padStart(width, "0")]. *)
Definition padStart0 (width : nat) (s : string) : string :=
  Nat.iter (width - String.length s) (String "0"%char) s.

End Crc32.

Import JsString.

(** [calculateCrc32] *)
Definition calculateCrc32 (text : string) : string :=
  let checksum := Crc32.crc32 (utf8 text) in
  Crc32.padStart0 8 (Crc32.toString16 checksum).

(** ** Thinking block codec *)

Module Codec.

Definition backtick : ascii := "`"%char.
Definition backslash : ascii := "\"%char.

(** [thinking.replace(/`/g, "\\`")]: a backslash before every backtick. *)
Fixpoint escapeBackticks (s : string) : string :=
  match s with
  | EmptyString => EmptyString
  | String c r =>
      if Ascii.eqb c backtick
      then String backslash (String backtick (escapeBackticks r))
      else String c (escapeBackticks r)
  end.

(** [escapedContent.replace(/\\`/g, "`")]: every backslash-backtick pair,
    from left to right, becomes a backtick. *)
Fixpoint unescapeBackticks (s : string) : string :=
  match s with
  | EmptyString => EmptyString
  | String c r =>
      match r with
      | String d r' =>
          if Ascii.eqb c backslash && Ascii.eqb d backtick
          then String backtick (unescapeBackticks r')
          else String c (unescapeBackticks r)
      | EmptyString => String c EmptyString
      end
  end.

(** Neither of the two code units the escaping deals with. *)
Definition plain (c : ascii) : bool :=
  negb (Ascii.eqb c backslash) && negb (Ascii.eqb c backtick).

Definition header : string := "```thinking" +:+ nl +:+ "[Thinking]" +:+ nl.
Definition fence : string := nl +:+ "```".
Definition sigOpen : string := nl +:+ "[SIG=".
Definition crcOpen : string := ",CRC=".

(** [encodeThinkingBlock] *)
Definition encodeThinkingBlock (thinking : string) (signature : option string)
  : string :=
  let escapedThinking := escapeBackticks thinking in
  let sigTag :=
    match signature with
    | Some s =>
        if truthy s
        then sigOpen +:+ s +:+ crcOpen +:+ calculateCrc32 escapedThinking +:+ "]"
        else EmptyString
    | None => EmptyString
    end in
  header +:+ escapedThinking +:+ sigTag +:+ fence +:+ nl +:+ nl.

Record Decoded := mkDecoded { thinking : string; signature : string }.

Definition notCommaBracket (c : ascii) : bool :=
  negb (Ascii.eqb c ","%char) && negb (Ascii.eqb c "]"%char).
Definition notBracket (c : ascii) : bool := negb (Ascii.eqb c "]"%char).

(** The trailer group [\n\[SIG=([^,\]]+),CRC=([^\]]+)\]] matched at the
    start of [s]: the two captures and what follows the group.  Each
    class repetition is greedy and is followed by a literal outside its
    class, so a match takes the longest run and only that one. *)
Definition matchTrailer (s : string) : option (string * string * string) :=
  match stripPrefix sigOpen s with
  | None => None
  | Some r1 =>
      let '(sig, r2) := span notCommaBracket r1 in
      if isEmpty sig then None else
      match stripPrefix crcOpen r2 with
      | None => None
      | Some r3 =>
          let '(crc, r4) := span notBracket r3 in
          if isEmpty crc then None else
          match stripPrefix "]" r4 with
          | None => None
          | Some r5 => Some (sig, crc, r5)
          end
      end
  end.

(** [(?:trailer)?\n```$] at the start of [s]: the optional group is
    tried first, then skipped.  The result is the captures of the
    group, if it took part in the match. *)
Definition tailAnchored (s : string) : option (option (string * string)) :=
  let skipGroup := if String.eqb s fence then Some None else None in
  match matchTrailer s with
  | Some (sig, crc, r) =>
      if String.eqb r fence then Some (Some (sig, crc)) else skipGroup
  | None => skipGroup
  end.

(** [(?:trailer)?\n```] at the start of [s], not anchored: what
    follows the match. *)
Definition tailOpen (s : string) : option string :=
  match matchTrailer s with
  | Some (_, _, r) =>
      match stripPrefix fence r with
      | Some rest => Some rest
      | None => stripPrefix fence s
      end
  | None => stripPrefix fence s
  end.

(** The lazy [[\s\S]*?] followed by [tail]: the shortest content after
    which [tail] matches. *)
Fixpoint lazyContent {A} (tail : string -> option A) (s : string)
  : option (string * A) :=
  match tail s with
  | Some a => Some (EmptyString, a)
  | None =>
      match s with
      | EmptyString => None
      | String c r =>
          match lazyContent tail r with
          | Some (content, a) => Some (String c content, a)
          | None => None
          end
      end
  end.

(** [thinkingBlockRegex.exec(text)] of [decodeThinkingBlock]: capture 1
    and captures 2 and 3. *)
Definition execAnchored (text : string)
  : option (string * option (string * string)) :=
  match stripPrefix header text with
  | None => None
  | Some body => lazyContent tailAnchored body
  end.

(** [decodeThinkingBlock] *)
Definition decodeThinkingBlock (text : string) : option Decoded :=
  match execAnchored text with
  | None => None
  | Some (m1, caps) =>
      let escapedContent := trim m1 in
      let signature := fst <$> caps in
      let crc := snd <$> caps in
      if negb (truthy escapedContent) || negb (truthyOpt signature)
         || negb (truthyOpt crc)
      then None
      else
        match signature, crc with
        | Some signature, Some crc =>
            let calculatedCrc := calculateCrc32 escapedContent in
            if negb (String.eqb calculatedCrc crc) then None
            else Some (mkDecoded (unescapeBackticks escapedContent) signature)
        | _, _ => None
        end
  end.

End Codec.

(** ** Internal representation ([types.ts]) *)

(** A parsed JSON value: tool inputs and parameter schemas. *)
Inductive JsonValue : Type :=
| JNull
| JBool (b : bool)
| JNumber (n : Z)
| JString (s : string)
| JArray (items : list JsonValue)
| JObject (fields : list (string * JsonValue)).

Inductive Role : Type := User | Assistant.

Inductive InternalContentBlock : Type :=
| TextBlock (text : string)
| ToolUseBlock (id name : string) (input : JsonValue)
| ToolResultBlock (tool_use_id content : string)
| ThinkingBlock (thinking : string) (signature : option string)
| RedactedThinkingBlock (data : string).

Record InternalMessage : Type := mkMessage {
  role : Role;
  content : list InternalContentBlock
}.

Record InternalTool : Type := mkTool {
  name : string;
  description : string;
  parameters : JsonValue
}.

Record InternalRequest : Type := mkRequest {
  messages : list InternalMessage;
  tools : option (list InternalTool);
  model : option string;
  maxTokens : Z;
  system : option string;
  stream : bool;
  temperature : option Q;
  maxThinkingTokens : option Z
}.

Definition isRole (r : Role) (m : InternalMessage) : bool :=
  match role m, r with
  | User, User | Assistant, Assistant => true
  | _, _ => false
  end.

(** [b.type === "thinking" || b.type === "redacted_thinking"] *)
Definition isThinking (b : InternalContentBlock) : bool :=
  match b with
  | ThinkingBlock _ _ | RedactedThinkingBlock _ => true
  | _ => false
  end.

(** ** [parseThinkingFromText] *)

Module Parse.
Import Codec.

(** The global expression of [parseThinkingFromText] matched at the start
    of [s]: the matched text [match[0]] and what follows it. *)
Definition matchHere (s : string) : option (string * string) :=
  match stripPrefix header s with
  | None => None
  | Some body =>
      match lazyContent tailOpen body with
      | None => None
      | Some (_, rest) =>
          Some (String.substring 0 (String.length s - String.length rest) s,
                rest)
      end
  end.

(** [thinkingBlockRegex.exec(text)] from [lastIndex] on, [s] being
    [text.slice(lastIndex)]: the text before the leftmost match, the
    match, and the text after it. *)
Fixpoint exec (s : string) : option (string * string * string) :=
  match matchHere s with
  | Some (m, rest) => Some (EmptyString, m, rest)
  | None =>
      match s with
      | EmptyString => None
      | String c r =>
          match exec r with
          | Some (before, m, rest) => Some (String c before, m, rest)
          | None => None
          end
      end
  end.

Definition pushText (t : string) (blocks : list InternalContentBlock)
  : list InternalContentBlock :=
  if truthy t then blocks ++ [TextBlock t] else blocks.

(** The [while] loop and the text after the last match.  [s] is
    [text.slice(lastIndex)].  Every match is at least as long as the
    header, so [fuel] above the length of [s] is never used up
    ([loop_total]). *)
Fixpoint loop (fuel : nat) (s : string) (blocks : list InternalContentBlock)
  : option (list InternalContentBlock) :=
  match fuel with
  | O => None
  | S fuel' =>
      match exec s with
      | Some (before, m, rest) =>
          let blocks := pushText (trim before) blocks in
          let blocks :=
            match decodeThinkingBlock m with
            | Some decoded =>
                blocks ++ [ThinkingBlock (thinking decoded)
                                         (Some (signature decoded))]
            | None => blocks
            end in
          loop fuel' rest blocks
      | None => Some (pushText (trim s) blocks)
      end
  end.

Definition parseThinkingFromText (text : string) : list InternalContentBlock :=
  match loop (S (String.length text)) text [] with
  | Some [] => if truthy (trim text) then [TextBlock (trim text)] else []
  | Some blocks => blocks
  | None => []
  end.

End Parse.

Import Codec Parse.

(** ** [extractTextContent] *)

(** [interface ContentBlock]: [text] is [Some] when the property is a string. *)
Record ContentBlock : Type := mkContentBlock {
  cb_type : string;
  cb_text : option string
}.

(** [string | ContentBlock[] | null | undefined] *)
Inductive MessageContent : Type :=
| NoContent
| StringContent (s : string)
| ArrayContent (blocks : list ContentBlock).

Definition isTextBlock (block : ContentBlock) : bool :=
  String.eqb (cb_type block) "text"
  && match cb_text block with Some _ => true | None => false end.

Definition joinText (blocks : list ContentBlock) : string :=
  join nl (omap cb_text (List.filter isTextBlock blocks)).

Definition extractTextContent (content : MessageContent) : string :=
  match content with
  | NoContent => EmptyString
  | StringContent s => s
  | ArrayContent blocks => joinText blocks
  end.

(** ** [mapModelName] *)

(** What [mapModelName] returns: an object with the properties [model]
    and [enableThinking] (an entry of the table, or the literal built for
    a name without entry), or a member that the table inherits from
    [Object.prototype], which has neither property. *)
Inductive ModelMapping : Type :=
| mkMapping (model : string) (enableThinking : bool)
| inheritedMember.

(** The property [model] of the value returned, as the normalisers read
    it into [mappedModel]; [None] is [undefined]. *)
Definition mappedModel (m : ModelMapping) : option string :=
  match m with
  | mkMapping model _ => Some model
  | inheritedMember => None
  end.

(** The property [enableThinking] of the value returned; [None] is
    [undefined]. *)
Definition enableThinkingProperty (m : ModelMapping) : option bool :=
  match m with
  | mkMapping _ enableThinking => Some enableThinking
  | inheritedMember => None
  end.

(** The variable [enableThinking] of the normalisers as their tests
    [!enableThinking] and [enableThinking && ...] read it: [undefined]
    is falsy. *)
Definition enableThinking (m : ModelMapping) : bool :=
  default false (enableThinkingProperty m).

(** The own properties of the object literal [modelMap]. *)
Definition modelMap : gmap string ModelMapping :=
  list_to_map
    [ ("claude-4.5-opus-high-thinking", mkMapping "claude-opus-4-5-20251101" true);
      ("claude-4.5-opus", mkMapping "claude-opus-4-5-20251101" false);
      ("claude-4-opus", mkMapping "claude-opus-4-20250514" false);
      ("claude-4-sonnet", mkMapping "claude-sonnet-4-20250514" false);
      ("claude-3.5-sonnet", mkMapping "claude-sonnet-4-20250514" false);
      ("claude-3-opus", mkMapping "claude-3-opus-20240229" false);
      ("claude-3-sonnet", mkMapping "claude-3-sonnet-20240229" false);
      ("claude-3-haiku", mkMapping "claude-3-haiku-20240307" false) ].

(** The names of the properties of [Object.prototype], which an object
    literal inherits: those of the language standard and of its annex for
    web browsers, as Node and Bun have them.  Each one is a function or,
    for [__proto__], the prototype itself: a truthy value. *)
Definition objectPrototypeKeys : list string :=
  [ "constructor"; "hasOwnProperty"; "isPrototypeOf"; "propertyIsEnumerable";
    "toLocaleString"; "toString"; "valueOf"; "__proto__";
    "__defineGetter__"; "__defineSetter__";
    "__lookupGetter__"; "__lookupSetter__" ].

(** [mapModelName]: the lookup [modelMap[model]] finds an own property,
    or else an inherited one, and the function returns what it finds
    when that is truthy. *)
Definition mapModelName (model : string) : ModelMapping :=
  match modelMap !! model with
  | Some entry => entry
  | None =>
      if bool_decide (model ∈ objectPrototypeKeys) then inheritedMember
      else mkMapping model (includes "thinking" (toLowerCase model))
  end.

(** ** [filterMessagesWithoutThinking] *)

Module Filter.

(** The ids the [forEach] of the first pass adds to [removedToolIds]. *)
Fixpoint toolUseIds (content : list InternalContentBlock) : gset string :=
  match content with
  | [] => ∅
  | ToolUseBlock id _ _ :: r => {[ id ]} ∪ toolUseIds r
  | _ :: r => toolUseIds r
  end.

(** The callback of the first pass returns [false] on these messages. *)
Definition lacksThinking (msg : InternalMessage) : bool :=
  isRole Assistant msg && negb (existsb isThinking (content msg)).

(** First pass: the set [removedToolIds] after the pass and the
    messages that are kept. *)
Fixpoint firstPass (messages : list InternalMessage)
  : gset string * list InternalMessage :=
  match messages with
  | [] => (∅, [])
  | msg :: r =>
      let '(removedToolIds, kept) := firstPass r in
      if lacksThinking msg
      then (toolUseIds (content msg) ∪ removedToolIds, kept)
      else (removedToolIds, msg :: kept)
  end.

Definition keepBlock (removedToolIds : gset string) (b : InternalContentBlock)
  : bool :=
  match b with
  | ToolResultBlock tool_use_id _ =>
      negb (bool_decide (tool_use_id ∈ removedToolIds))
  | _ => true
  end.

(** The callback of the second pass: [None] is its [null]. *)
Definition dropOrphans (removedToolIds : gset string) (msg : InternalMessage)
  : option InternalMessage :=
  if isRole User msg then
    let filteredContent := List.filter (keepBlock removedToolIds) (content msg) in
    match filteredContent with
    | [] => None
    | _ => Some (mkMessage (role msg) filteredContent)
    end
  else Some msg.

Definition filterMessagesWithoutThinking
  (messages : list InternalMessage) (enableThinking : bool)
  : list InternalMessage :=
  if negb enableThinking then messages
  else
    let '(removedToolIds, filtered) := firstPass messages in
    if bool_decide (removedToolIds ≠ ∅)
    then omap (dropOrphans removedToolIds) filtered
    else filtered.

End Filter.

Import Filter.

(** ** Format detection *)

Module Base.

Record BaseContentBlock : Type := mkBlock { type : string }.

(** [string | BaseContentBlock[] | null] *)
Inductive BaseContent : Type :=
| Null
| Str (s : string)
| Arr (blocks : list BaseContentBlock).

Record BaseMessage : Type := mkBaseMessage {
  role : string;
  content : BaseContent
}.

Record BaseTool : Type := mkBaseTool {
  tool_type : option string;
  input_schema : option JsonValue;
  function : option JsonValue
}.

(** An optional property is [None] when it is [undefined]. *)
Record BaseRequest : Type := mkBaseRequest {
  model : string;
  messages : list BaseMessage;
  system : option JsonValue;
  tools : option (list BaseTool);
  max_tokens : option Z;
  stream : option bool;
  temperature : option Q
}.

Definition isToolBlock (block : BaseContentBlock) : bool :=
  String.eqb (type block) "tool_use" || String.eqb (type block) "tool_result".

Definition hasToolBlock (msg : BaseMessage) : bool :=
  match content msg with
  | Arr blocks => existsb isToolBlock blocks
  | _ => false
  end.

Definition isAnthropicFormat (request : BaseRequest) : bool :=
  match system request with
  | Some _ => true
  | None =>
      let firstToolHasSchema :=
        match tools request with
        | Some (firstTool :: _) =>
            match input_schema firstTool with Some _ => true | None => false end
        | _ => false
        end in
      if firstToolHasSchema then true
      else existsb hasToolBlock (messages request)
  end.

End Base.

(** ** Parts shared by the two normalisers *)

(** JavaScript truthiness of a JSON value. *)
Definition truthyJson (v : JsonValue) : bool :=
  match v with
  | JNull => false
  | JBool b => b
  | JNumber n => negb (n =? 0)%Z
  | JString s => truthy s
  | JArray _ | JObject _ => true
  end.

(** [{ type: "object", properties: {} }] *)
Definition defaultSchema : JsonValue :=
  JObject [("type", JString "object"); ("properties", JObject [])].

(** [x || d] on optional strings and numbers. *)
Definition orString (x : option string) (d : string) : string :=
  match x with Some s => if truthy s then s else d | None => d end.

Definition orNumber (x : option Z) (d : Z) : Z :=
  match x with Some n => if (n =? 0)%Z then d else n | None => d end.

Definition orSchema (x : option JsonValue) : JsonValue :=
  match x with Some v => if truthyJson v then v else defaultSchema | None => defaultSchema end.

(** The state of the loop over [request.messages]. *)
Record LoopState : Type := mkState {
  out : list InternalMessage;
  systemPrompt : option string
}.

(** The branch [msg.role === "system"]. *)
Definition addSystem (st : LoopState) (textContent : string) : LoopState :=
  match systemPrompt st with
  | Some s =>
      if truthy s
      then mkState (out st) (Some (s +:+ nl +:+ nl +:+ textContent))
      else mkState (out st) (Some textContent)
  | None => mkState (out st) (Some textContent)
  end.

(** [if (content.length > 0) messages.push({ role, content })] *)
Definition pushMessage (st : LoopState) (r : Role)
  (content : list InternalContentBlock) : LoopState :=
  match content with
  | [] => st
  | _ => mkState (out st ++ [mkMessage r content]) (systemPrompt st)
  end.

(** No message pushed so far has an empty content. *)
Definition nonEmptyOut (st : LoopState) : Prop :=
  forall m, m ∈ out st -> content m <> [].

(** The object literal that both normalisers return. *)
Definition buildRequest (st : LoopState) (tools : option (list InternalTool))
  (model : string) (max_tokens : option Z) (stream : option bool)
  (temperature : option Q) : InternalRequest :=
  let m := mapModelName model in
  let filteredMessages :=
    filterMessagesWithoutThinking (out st) (enableThinking m) in
  {| messages := filteredMessages;
     tools := tools;
     model := mappedModel m;
     maxTokens := orNumber max_tokens 4096;
     system := if truthyOpt (systemPrompt st) then systemPrompt st else None;
     stream := default false stream;
     temperature := temperature;
     maxThinkingTokens := if enableThinking m then Some 10000%Z else None |}.

(** ** [anthropicToInternal] *)

Module Anthropic.

(** [AnthropicContentBlock]: the content of a [tool_result] is a string
    or an array of blocks. *)
Inductive AnthropicContentBlock : Type :=
| AnthropicTextBlock (text : string)
| AnthropicToolUseBlock (id name : string) (input : JsonValue)
| AnthropicToolResultBlock (tool_use_id : string)
    (content : string + list AnthropicContentBlock)
| AnthropicThinkingBlock (thinking : string) (signature : option string).

Inductive MessageRole : Type := RoleUser | RoleAssistant | RoleSystem.

Record Message : Type := mkMsg {
  role : MessageRole;
  content : string + list AnthropicContentBlock
}.

Record AnthropicTool : Type := mkAnthropicTool {
  name : string;
  description : option string;
  input_schema : option JsonValue
}.

Record AnthropicStyleRequest : Type := mkAnthropicRequest {
  model : string;
  messages : list Message;
  system : option (string + list ContentBlock);
  tools : option (list AnthropicTool);
  max_tokens : option Z;
  stream : option bool;
  temperature : option Q
}.

(** The cast [msg.content as string | ContentBlock[]]: the [type] and,
    on a text block, the [text] of each block. *)
Definition asContentBlock (b : AnthropicContentBlock) : ContentBlock :=
  match b with
  | AnthropicTextBlock t => mkContentBlock "text" (Some t)
  | AnthropicToolUseBlock _ _ _ => mkContentBlock "tool_use" None
  | AnthropicToolResultBlock _ _ => mkContentBlock "tool_result" None
  | AnthropicThinkingBlock _ _ => mkContentBlock "thinking" None
  end.

Definition asMessageContent (c : string + list AnthropicContentBlock)
  : MessageContent :=
  match c with
  | inl s => StringContent s
  | inr blocks => ArrayContent (asContentBlock <$> blocks)
  end.

(** [block.content.filter(c => c.type === "text").map(c => c.text)] *)
Definition textOf (c : AnthropicContentBlock) : option string :=
  match c with AnthropicTextBlock t => Some t | _ => None end.

(** What the loop over a user message's array pushes for one block. *)
Definition userBlock (block : AnthropicContentBlock)
  : list InternalContentBlock :=
  match block with
  | AnthropicTextBlock t => [TextBlock t]
  | AnthropicToolResultBlock tool_use_id c =>
      let resultText :=
        match c with
        | inl s => s
        | inr blocks => join nl (omap textOf blocks)
        end in
      [ToolResultBlock tool_use_id resultText]
  | _ => []
  end.

(** What the loop over an assistant message's array pushes for one
    block. *)
Definition assistantBlock (block : AnthropicContentBlock)
  : list InternalContentBlock :=
  match block with
  | AnthropicTextBlock t => parseThinkingFromText t
  | AnthropicThinkingBlock thinking signature =>
      [ThinkingBlock thinking
         (if truthyOpt signature then signature else None)]
  | AnthropicToolUseBlock id name input => [ToolUseBlock id name input]
  | _ => []
  end.

Definition userContent (c : string + list AnthropicContentBlock)
  : list InternalContentBlock :=
  match c with
  | inr blocks => concat (userBlock <$> blocks)
  | inl _ =>
      let textContent := extractTextContent (asMessageContent c) in
      if truthy textContent then [TextBlock textContent] else []
  end.

Definition assistantContent (c : string + list AnthropicContentBlock)
  : list InternalContentBlock :=
  match c with
  | inr blocks => concat (assistantBlock <$> blocks)
  | inl _ =>
      let textContent := extractTextContent (asMessageContent c) in
      if truthy textContent then parseThinkingFromText textContent else []
  end.

(** One iteration of the loop over [request.messages]. *)
Definition step (st : LoopState) (msg : Message) : LoopState :=
  match role msg with
  | RoleSystem => addSystem st (extractTextContent (asMessageContent (content msg)))
  | RoleUser => pushMessage st User (userContent (content msg))
  | RoleAssistant => pushMessage st Assistant (assistantContent (content msg))
  end.

(** The system prompt before the loop. *)
Definition initialSystem (system : option (string + list ContentBlock))
  : option string :=
  match system with
  | Some (inl s) => if truthy s then Some s else None
  | Some (inr blocks) => Some (joinText blocks)
  | None => None
  end.

Definition mapTool (tool : AnthropicTool) : InternalTool :=
  mkTool (name tool) (orString (description tool) EmptyString)
         (orSchema (input_schema tool)).

Definition anthropicToInternal (request : AnthropicStyleRequest)
  : InternalRequest :=
  let st := fold_left step (messages request)
              (mkState [] (initialSystem (system request))) in
  buildRequest st (option_map (List.map mapTool) (tools request)) (model request)
    (max_tokens request) (stream request) (temperature request).

End Anthropic.

(** ** The earlier revision of [anthropicToInternal] ([src/transform.ts])

    The tree also holds an earlier revision of [transform.ts].  It has no
    codec functions and no filter; its [parseThinkingFromText] checks the
    captures of the global expression itself and does not unescape, and its
    [anthropicToInternal] skips native thinking blocks. *)

Module Legacy.

(** [(?:\n\[SIG=([^,\]]+),CRC=([^\]]+)\])?\n```] at the start of [s]: the
    captures of the group, if it took part, and what follows the match. *)
Definition tailOpen (s : string)
  : option (option (string * string) * string) :=
  let skipGroup :=
    match stripPrefix fence s with
    | Some rest => Some (None, rest)
    | None => None
    end in
  match matchTrailer s with
  | Some (sig, crc, r) =>
      match stripPrefix fence r with
      | Some rest => Some (Some (sig, crc), rest)
      | None => skipGroup
      end
  | None => skipGroup
  end.

(** The expression matched at the start of [s]: capture 1, captures 2 and
    3, and what follows the match. *)
Definition matchHere (s : string)
  : option (string * option (string * string) * string) :=
  match stripPrefix header s with
  | None => None
  | Some body =>
      match lazyContent tailOpen body with
      | None => None
      | Some (m1, (caps, rest)) => Some (m1, caps, rest)
      end
  end.

(** The text before the leftmost match, its captures, the text after. *)
Fixpoint exec (s : string)
  : option (string * (string * option (string * string)) * string) :=
  match matchHere s with
  | Some (m1, caps, rest) => Some (EmptyString, (m1, caps), rest)
  | None =>
      match s with
      | EmptyString => None
      | String c r =>
          match exec r with
          | Some (before, m, rest) => Some (String c before, m, rest)
          | None => None
          end
      end
  end.

(** What the body of the loop pushes for one match. *)
Definition thinkingOf (m1 : string) (caps : option (string * string))
  : list InternalContentBlock :=
  let thinkingContent := trim m1 in
  if truthy thinkingContent then
    match caps with
    | Some (signature, crc) =>
        if truthy signature && truthy crc then
          if String.eqb (calculateCrc32 thinkingContent) crc
          then [ThinkingBlock thinkingContent (Some signature)]
          else []
        else []
    | None => []
    end
  else [].

Fixpoint loop (fuel : nat) (s : string) (blocks : list InternalContentBlock)
  : option (list InternalContentBlock) :=
  match fuel with
  | O => None
  | S fuel' =>
      match exec s with
      | Some (before, (m1, caps), rest) =>
          loop fuel' rest (pushText (trim before) blocks ++ thinkingOf m1 caps)
      | None => Some (pushText (trim s) blocks)
      end
  end.

Definition parseThinkingFromText (text : string) : list InternalContentBlock :=
  match loop (S (String.length text)) text [] with
  | Some [] => if truthy (trim text) then [TextBlock (trim text)] else []
  | Some blocks => blocks
  | None => []
  end.

Definition assistantBlock (block : Anthropic.AnthropicContentBlock)
  : list InternalContentBlock :=
  match block with
  | Anthropic.AnthropicTextBlock t => parseThinkingFromText t
  | Anthropic.AnthropicThinkingBlock _ _ => []
  | Anthropic.AnthropicToolUseBlock id name input => [ToolUseBlock id name input]
  | _ => []
  end.

Definition assistantContent
  (c : string + list Anthropic.AnthropicContentBlock)
  : list InternalContentBlock :=
  match c with
  | inr blocks => concat (assistantBlock <$> blocks)
  | inl _ =>
      let textContent := extractTextContent (Anthropic.asMessageContent c) in
      if truthy textContent then parseThinkingFromText textContent else []
  end.

Definition step (st : LoopState) (msg : Anthropic.Message) : LoopState :=
  match Anthropic.role msg with
  | Anthropic.RoleSystem =>
      addSystem st
        (extractTextContent (Anthropic.asMessageContent (Anthropic.content msg)))
  | Anthropic.RoleUser =>
      pushMessage st User (Anthropic.userContent (Anthropic.content msg))
  | Anthropic.RoleAssistant =>
      pushMessage st Assistant (assistantContent (Anthropic.content msg))
  end.

Definition anthropicToInternal (request : Anthropic.AnthropicStyleRequest)
  : InternalRequest :=
  let st := fold_left step (Anthropic.messages request)
              (mkState [] (Anthropic.initialSystem (Anthropic.system request))) in
  let m := mapModelName (Anthropic.model request) in
  {| messages := out st;
     tools := option_map (List.map Anthropic.mapTool) (Anthropic.tools request);
     model := mappedModel m;
     maxTokens := orNumber (Anthropic.max_tokens request) 4096;
     system := if truthyOpt (systemPrompt st) then systemPrompt st else None;
     stream := default false (Anthropic.stream request);
     temperature := Anthropic.temperature request;
     maxThinkingTokens := if enableThinking m then Some 10000%Z else None |}.

End Legacy.

(** ** [openaiToInternal] *)

(** The exception [JSON.parse] throws, with the text it was given. *)
Inductive JsError : Type := SyntaxError (text : string).

(** A computation that returns a value or throws. *)
Inductive Result (A : Type) : Type :=
| Ok (a : A)
| Throw (e : JsError).
Arguments Ok {A} a.
Arguments Throw {A} e.

#[global] Instance result_ret : MRet Result := fun A a => Ok a.
#[global] Instance result_bind : MBind Result := fun A B f x =>
  match x with Ok a => f a | Throw e => Throw e end.

Module OpenAI.

(** [toolCall.function] *)
Record FunctionCall : Type := mkFunctionCall {
  fn_name : string;
  arguments : option string
}.

Record ToolCall : Type := mkToolCall {
  id : string;
  function : FunctionCall
}.

Inductive MessageRole : Type := RoleUser | RoleAssistant | RoleSystem | RoleTool.

(** [content] has the type the source casts it to,
    [string | ContentBlock[]], besides [null] and [undefined]. *)
Record Message : Type := mkMsg {
  role : MessageRole;
  content : MessageContent;
  tool_calls : option (list ToolCall);
  tool_call_id : option string
}.

Record ToolFunction : Type := mkToolFunction {
  name : string;
  description : option string;
  parameters : option JsonValue
}.

Record OpenAITool : Type := mkOpenAITool { tool_function : ToolFunction }.

Record OpenAIStyleRequest : Type := mkOpenAIRequest {
  model : string;
  messages : list Message;
  tools : option (list OpenAITool);
  max_tokens : option Z;
  stream : option bool;
  temperature : option Q
}.

(** [if (msg.content)] *)
Definition truthyContent (c : MessageContent) : bool :=
  match c with
  | NoContent => false
  | StringContent s => truthy s
  | ArrayContent _ => true
  end.

Definition mapTool (tool : OpenAITool) : InternalTool :=
  let f := tool_function tool in
  mkTool (name f) (orString (description f) EmptyString) (orSchema (parameters f)).

(** [toolCall.function.arguments || "{}"] *)
Definition argumentText (toolCall : ToolCall) : string :=
  orString (arguments (function toolCall)) "{}".

(** [call] is one of the tool calls of an assistant message of
    [request]. *)
Definition hasToolCall (request : OpenAIStyleRequest) (call : ToolCall)
  : Prop :=
  exists msg calls,
    msg ∈ messages request /\ role msg = RoleAssistant
    /\ tool_calls msg = Some calls /\ call ∈ calls.

Section WithJsonParse.

(** [JSON.parse]: [None] when it throws a [SyntaxError]. *)
Variable JSON_parse : string -> option JsonValue.

Definition parseArguments (toolCall : ToolCall) : Result JsonValue :=
  let text := argumentText toolCall in
  match JSON_parse text with
  | Some v => Ok v
  | None => Throw (SyntaxError text)
  end.

(** The loop over [msg.tool_calls]. *)
Fixpoint toolUseBlocks (calls : list ToolCall)
  : Result (list InternalContentBlock) :=
  match calls with
  | [] => Ok []
  | toolCall :: r =>
      input ← parseArguments toolCall;
      blocks ← toolUseBlocks r;
      Ok (ToolUseBlock (id toolCall) (fn_name (function toolCall)) input
            :: blocks)
  end.

(** The content of an assistant message: the tool calls, then the
    blocks parsed from the text. *)
Definition assistantContent (msg : Message)
  : Result (list InternalContentBlock) :=
  calls ← match tool_calls msg with
          | Some calls => toolUseBlocks calls
          | None => Ok []
          end;
  let parsed :=
    if truthyContent (content msg) then
      let textContent := extractTextContent (content msg) in
      if truthy textContent then parseThinkingFromText textContent else []
    else [] in
  Ok (calls ++ parsed).

(** One iteration of the loop over [request.messages]. *)
Definition step (st : LoopState) (msg : Message) : Result LoopState :=
  match role msg with
  | RoleSystem => Ok (addSystem st (extractTextContent (content msg)))
  | RoleUser =>
      let textContent := extractTextContent (content msg) in
      Ok (pushMessage st User
            (if truthy textContent then [TextBlock textContent] else []))
  | RoleAssistant =>
      content ← assistantContent msg;
      Ok (pushMessage st Assistant content)
  | RoleTool =>
      match tool_call_id msg with
      | Some call_id =>
          if truthy call_id then
            let textContent := extractTextContent (content msg) in
            Ok (mkState
                  (out st ++ [mkMessage User [ToolResultBlock call_id textContent]])
                  (systemPrompt st))
          else Ok st
      | None => Ok st
      end
  end.

Fixpoint run (msgs : list Message) (st : LoopState) : Result LoopState :=
  match msgs with
  | [] => Ok st
  | msg :: r => st' ← step st msg; run r st'
  end.

Definition openaiToInternal (request : OpenAIStyleRequest)
  : Result InternalRequest :=
  st ← run (messages request) (mkState [] None);
  Ok (buildRequest st (option_map (List.map mapTool) (tools request))
        (model request) (max_tokens request) (stream request)
        (temperature request)).

End WithJsonParse.

End OpenAI.

(** ** Properties of message sequences stated by the design *)

(** The first content element is a [thinking] or [redacted_thinking]
    block. *)
Definition startsWithThinking (m : InternalMessage) : bool :=
  match content m with
  | b :: _ => isThinking b
  | [] => false
  end.

(** Some assistant turn of [msgs] carries a [tool_use] block with this
    id. *)
Definition resolved (msgs : list InternalMessage) (id : string) : Prop :=
  exists a name input,
    a ∈ msgs /\ role a = Assistant /\ ToolUseBlock id name input ∈ content a.

(** No [tool_result] block of a user turn is dangling. *)
Definition userResultsResolved (msgs : list InternalMessage) : Prop :=
  forall m id c,
    m ∈ msgs -> role m = User -> ToolResultBlock id c ∈ content m ->
    resolved msgs id.

(** ** Sample values *)

Module Samples.

(** The envelope of ["because X"] signed ["abc"], without the two
    newlines that [encodeThinkingBlock] puts after it. *)
Definition envelope : string :=
  "```thinking" +:+ nl +:+ "[Thinking]" +:+ nl +:+ "because X" +:+ nl
  +:+ "[SIG=abc,CRC=83f10db6]" +:+ nl +:+ "```".

(** A reasoning text whose last line has the shape of a trailer. *)
Definition forged : string := "x" +:+ nl +:+ "[SIG=a,CRC=8cdc1683]".

(** A [JSON.parse] that knows the empty object and nothing else: what
    the samples below need of it. *)
Definition parseEmptyObject (text : string) : option JsonValue :=
  if String.eqb text "{}" then Some (JObject []) else None.

(** The scenario with the name of a property that every object
    inherits in the place of the model. *)
Definition inherited : OpenAI.OpenAIStyleRequest :=
  OpenAI.mkOpenAIRequest "constructor"
    [ OpenAI.mkMsg OpenAI.RoleUser (StringContent "hi") None None ]
    None None None None.

(** A conversation with reasoning enabled: the assistant answers with a
    sentence, a native thinking block and a tool call. *)
Definition anthropicRequest : Anthropic.AnthropicStyleRequest :=
  Anthropic.mkAnthropicRequest "claude-4.5-opus-high-thinking"
    [ Anthropic.mkMsg Anthropic.RoleUser (inl "hi");
      Anthropic.mkMsg Anthropic.RoleUser (inr []);
      Anthropic.mkMsg Anthropic.RoleAssistant
        (inr [ Anthropic.AnthropicTextBlock "Let me check.";
               Anthropic.AnthropicThinkingBlock "plan" (Some "sg");
               Anthropic.AnthropicToolUseBlock "t1" "search" (JObject []) ]);
      Anthropic.mkMsg Anthropic.RoleUser
        (inr [ Anthropic.AnthropicToolResultBlock "t1" (inl "found") ]) ]
    None None (Some 0%Z) None None.

(** The same conversation, the native thinking block carrying the empty
    string as its signature. *)
Definition emptySignature : Anthropic.AnthropicStyleRequest :=
  Anthropic.mkAnthropicRequest "claude-4.5-opus-high-thinking"
    [ Anthropic.mkMsg Anthropic.RoleUser (inl "hi");
      Anthropic.mkMsg Anthropic.RoleAssistant
        (inr [ Anthropic.AnthropicTextBlock "Let me check.";
               Anthropic.AnthropicThinkingBlock "plan" (Some EmptyString);
               Anthropic.AnthropicToolUseBlock "t1" "search" (JObject []) ]);
      Anthropic.mkMsg Anthropic.RoleUser
        (inr [ Anthropic.AnthropicToolResultBlock "t1" (inl "found") ]) ]
    None None (Some 0%Z) None None.

Definition answer : InternalMessage :=
  mkMessage Assistant
    [ TextBlock "Let me check."; ThinkingBlock "plan" (Some "sg");
      ToolUseBlock "t1" "search" (JObject []) ].

(** The scenario of the design document. *)
Definition scenario : OpenAI.OpenAIStyleRequest :=
  OpenAI.mkOpenAIRequest "claude-4.5-opus-high-thinking"
    [ OpenAI.mkMsg OpenAI.RoleUser (StringContent "hi") None None ]
    None None None None.

Definition search (args : option string) : OpenAI.ToolCall :=
  OpenAI.mkToolCall "t1" (OpenAI.mkFunctionCall "search" args).

(** An assistant message with one tool call, and its answer. *)
Definition withCall (args : option string) : OpenAI.OpenAIStyleRequest :=
  OpenAI.mkOpenAIRequest "claude-4.5-opus"
    [ OpenAI.mkMsg OpenAI.RoleUser (StringContent "hi") None None;
      OpenAI.mkMsg OpenAI.RoleAssistant NoContent (Some [search args]) None;
      OpenAI.mkMsg OpenAI.RoleTool (StringContent "found") None (Some "t1") ]
    None (Some 0%Z) None None.

(** The same conversation on the OpenAI path: the thinking block is an
    envelope in the text of the assistant message. *)
Definition openaiRequest : OpenAI.OpenAIStyleRequest :=
  OpenAI.mkOpenAIRequest "claude-4.5-opus-high-thinking"
    [ OpenAI.mkMsg OpenAI.RoleUser (StringContent "hi") None None;
      OpenAI.mkMsg OpenAI.RoleAssistant
        (StringContent
           ("Sure." +:+ nl +:+ encodeThinkingBlock "plan" (Some "sg")))
        (Some [search None]) None;
      OpenAI.mkMsg OpenAI.RoleTool (StringContent "found") None (Some "t1") ]
    None None None None.

Definition openaiAnswer : InternalMessage :=
  mkMessage Assistant
    [ ToolUseBlock "t1" "search" (JObject []); TextBlock "Sure.";
      ThinkingBlock "plan" (Some "sg") ].

(** An encoding without the two newlines that end it. *)
Definition dropFraming (encoded : string) : string :=
  String.substring 0 (String.length encoded - 2) encoded.

(** A tool result that no assistant turn asked for. *)
Definition late : list InternalMessage :=
  [ mkMessage User [ToolResultBlock "t9" "late"] ].

(** Two assistant turns with a tool call each, the second without a
    thinking block, and the results of both calls. *)
Definition twoCalls : list InternalMessage :=
  [ mkMessage Assistant
      [ThinkingBlock "plan" (Some "sg"); ToolUseBlock "t1" "search" (JObject [])];
    mkMessage Assistant [ToolUseBlock "t2" "search" (JObject [])];
    mkMessage User [ToolResultBlock "t1" "found"; ToolResultBlock "t2" "lost"] ].

End Samples.

(** * The rest of the translation layer *)

(** ** Shapes of texts and blocks *)

(** A lower-case hexadecimal digit. *)
Definition isLowerHex (c : ascii) : bool :=
  let n := N_of_ascii c in
  ((48 <=? n) && (n <=? 57) || (97 <=? n) && (n <=? 102))%N.

(** The texts from the first one that is not empty on. *)
Fixpoint dropEmpty (texts : list string) : list string :=
  match texts with
  | [] => []
  | t :: r => if isEmpty t then dropEmpty r else texts
  end.

(** The blank line that separates the parts of the system prompt. *)
Definition blankLine : string := nl +:+ nl.

(** The system prompt that a sequence of system texts adds up to. *)
Definition mergedSystem (texts : list string) : option string :=
  match dropEmpty texts with
  | [] => None
  | ts => Some (join blankLine ts)
  end.

(** The system prompt after one more system message. *)
Definition appendSystem (sp : option string) (text : string) : option string :=
  systemPrompt (addSystem (mkState [] sp) text).

(** The texts that make up the system prompt, in the order in which the
    normalisers meet them. *)
Definition openaiSystemTexts (request : OpenAI.OpenAIStyleRequest)
  : list string :=
  omap (fun msg =>
          match OpenAI.role msg with
          | OpenAI.RoleSystem => Some (extractTextContent (OpenAI.content msg))
          | _ => None
          end)
       (OpenAI.messages request).

Definition anthropicSystemTexts (request : Anthropic.AnthropicStyleRequest)
  : list string :=
  match Anthropic.system request with
  | Some (inl s) => [s]
  | Some (inr blocks) => [joinText blocks]
  | None => []
  end
  ++ omap (fun msg =>
             match Anthropic.role msg with
             | Anthropic.RoleSystem =>
                 Some (extractTextContent
                         (Anthropic.asMessageContent (Anthropic.content msg)))
             | _ => None
             end)
          (Anthropic.messages request).

(** A block that [parseThinkingFromText] may return. *)
Definition parsedBlock (b : InternalContentBlock) : Prop :=
  match b with
  | TextBlock t => t <> EmptyString /\ trim t = t
  | ThinkingBlock t (Some s) => t <> EmptyString /\ s <> EmptyString
  | _ => False
  end.

(** ** [internalToOpenai] *)

Module Response.

Inductive StopReason : Type := EndTurn | ToolUse | MaxTokens.

Record Usage : Type := mkUsage {
  inputTokens : Z;
  outputTokens : Z;
  cacheCreationInputTokens : option Z;
  cacheReadInputTokens : option Z
}.

Record InternalResponse : Type := mkResponse {
  id : string;
  content : list InternalContentBlock;
  model : option string;
  stopReason : option StopReason;
  usage : Usage
}.

Inductive FinishReason : Type := Stop | Length | ToolCalls.

(** [choices[0].message]; its role is always ["assistant"]. *)
Record ChatMessage : Type := mkChatMessage {
  msg_content : option string;
  msg_tool_calls : option (list OpenAI.ToolCall)
}.

Record ChatUsage : Type := mkChatUsage {
  prompt_tokens : Z;
  completion_tokens : Z;
  total_tokens : Z
}.

(** [OpenAIChatResponse]: [object] is always ["chat.completion"] and
    [choices] always holds one choice with index 0, whose message and
    finish reason are kept here. *)
Record OpenAIChatResponse : Type := mkChatResponse {
  chat_id : string;
  created : Z;
  chat_model : string;
  message : ChatMessage;
  finish_reason : option FinishReason;
  chat_usage : ChatUsage
}.

(** [usage.inputTokens + (usage.cacheCreationInputTokens || 0)
     + (usage.cacheReadInputTokens || 0)] *)
Definition promptTokens (u : Usage) : Z :=
  (inputTokens u + orNumber (cacheCreationInputTokens u) 0
   + orNumber (cacheReadInputTokens u) 0)%Z.

Definition finishReasonOf (r : option StopReason) : option FinishReason :=
  match r with
  | Some EndTurn => Some Stop
  | Some MaxTokens => Some Length
  | Some ToolUse => Some ToolCalls
  | None => None
  end.

Section WithJsonStringify.

(** [JSON.stringify] on a tool input. *)
Variable JSON_stringify : JsonValue -> string.

(** One iteration of the loop over [response.content]: the arrays
    [textContent] and [toolCalls]. *)
Definition pushBlock (acc : list string * list OpenAI.ToolCall)
  (block : InternalContentBlock) : list string * list OpenAI.ToolCall :=
  let '(textContent, toolCalls) := acc in
  match block with
  | TextBlock text => (textContent ++ [text], toolCalls)
  | ToolUseBlock id name input =>
      (textContent,
       toolCalls ++ [OpenAI.mkToolCall id
                       (OpenAI.mkFunctionCall name (Some (JSON_stringify input)))])
  | ThinkingBlock thinking signature =>
      (textContent ++ [encodeThinkingBlock thinking signature], toolCalls)
  | RedactedThinkingBlock data =>
      (textContent ++ [encodeThinkingBlock data None], toolCalls)
  | ToolResultBlock _ _ => acc
  end.

(** [internalToOpenai]; [now] is [Date.now()]. *)
Definition internalToOpenai (now : Z) (response : InternalResponse)
  (requestModel : string) : OpenAIChatResponse :=
  let '(textContent, toolCalls) :=
    fold_left pushBlock (content response) ([], []) in
  {| chat_id := "chatcmpl-" +:+ id response;
     created := (now / 1000)%Z;
     chat_model := requestModel;
     message :=
       {| msg_content :=
            match textContent with
            | [] => None
            | _ => Some (join EmptyString textContent)
            end;
          msg_tool_calls :=
            match toolCalls with [] => None | _ => Some toolCalls end |};
     finish_reason := finishReasonOf (stopReason response);
     chat_usage :=
       {| prompt_tokens := promptTokens (usage response);
          completion_tokens := outputTokens (usage response);
          total_tokens :=
            (promptTokens (usage response) + outputTokens (usage response))%Z |}
  |}.

(** The assistant message of the response as the client sends it back in
    the history of its next request. *)
Definition sentBack (r : OpenAIChatResponse) : OpenAI.Message :=
  OpenAI.mkMsg OpenAI.RoleAssistant
    (match msg_content (message r) with
     | Some s => StringContent s
     | None => NoContent
     end)
    (msg_tool_calls (message r)) None.

(** The tool call that a block becomes, if it is a [tool_use] block. *)
Definition toolCallOf (b : InternalContentBlock) : option OpenAI.ToolCall :=
  match b with
  | ToolUseBlock id name input =>
      Some (OpenAI.mkToolCall id
              (OpenAI.mkFunctionCall name (Some (JSON_stringify input))))
  | _ => None
  end.

(** The tool call that a [tool_use] block with this id, name and input
    becomes. *)
Definition callOf (u : string * string * JsonValue) : OpenAI.ToolCall :=
  OpenAI.mkToolCall u.1.1
    (OpenAI.mkFunctionCall u.1.2 (Some (JSON_stringify u.2))).

End WithJsonStringify.

Definition useBlock (u : string * string * JsonValue) : InternalContentBlock :=
  ToolUseBlock u.1.1 u.1.2 u.2.

(** The text that a block adds to the message, if any. *)
Definition textOf (b : InternalContentBlock) : option string :=
  match b with
  | TextBlock text => Some text
  | ThinkingBlock thinking signature =>
      Some (encodeThinkingBlock thinking signature)
  | RedactedThinkingBlock data => Some (encodeThinkingBlock data None)
  | _ => None
  end.

(** A block that adds to the text of the message. *)
Definition textLike (b : InternalContentBlock) : bool :=
  match b with
  | TextBlock _ | ThinkingBlock _ _ | RedactedThinkingBlock _ => true
  | _ => false
  end.

Definition isToolUse (b : InternalContentBlock) : bool :=
  match b with ToolUseBlock _ _ _ => true | _ => false end.

End Response.

(** ** The conversation history handed to the agent runtime ([sdk.ts]) *)

Module Sdk.

Definition toolPrefix : string := "mcp__api-tools__".

(** [sdkToApi] *)
Definition sdkToApi (name : string) : string :=
  match stripPrefix toolPrefix name with
  | Some rest => rest
  | None => name
  end.

(** The template [`mcp__api-tools__${name}`] of [buildJsonlHistory]. *)
Definition apiToSdk (name : string) : string := toolPrefix +:+ name.

Definition isToolUse (b : InternalContentBlock) : bool :=
  match b with ToolUseBlock _ _ _ => true | _ => false end.

Definition isToolResult (b : InternalContentBlock) : bool :=
  match b with ToolResultBlock _ _ => true | _ => false end.

Definition isText (b : InternalContentBlock) : bool :=
  match b with TextBlock _ => true | _ => false end.

(** [hasToolResult] *)
Definition hasToolResult (messages : list InternalMessage) : bool :=
  existsb (fun msg => existsb isToolResult (content msg)) messages.

(** The callback of the two [map] calls of [buildJsonlHistory]: a
    [tool_use] block gets the prefixed name, a [tool_result] block is
    rebuilt from its own fields, any other block is returned as it is. *)
Definition prefixToolUse (b : InternalContentBlock) : InternalContentBlock :=
  match b with
  | ToolUseBlock id name input => ToolUseBlock id (apiToSdk name) input
  | ToolResultBlock tool_use_id c => ToolResultBlock tool_use_id c
  | _ => b
  end.

(** The inverse renaming, as [processRequest] and [streamMessages] apply
    it to the blocks that come back. *)
Definition unprefixToolUse (b : InternalContentBlock) : InternalContentBlock :=
  match b with
  | ToolUseBlock id name input => ToolUseBlock id (sdkToApi name) input
  | _ => b
  end.

(** [message] of an assistant record: [stop_reason] is [None] for
    [null]; [usage] is the pair of [input_tokens] and [output_tokens]. *)
Record AssistantFields : Type := mkAssistantFields {
  message_id : string;
  stop_reason : option string;
  usage : Z * Z;
  requestId : string
}.

(** One line of the history before [JSON.stringify].  The fields that
    are the same in every line ([isSidechain], [userType], [cwd],
    [sessionId], [version], [gitBranch], [timestamp], [model]) are left
    out; [rec_assistant] is [None] on a user record. *)
Record SdkRecord : Type := mkRecord {
  parentUuid : option string;
  rec_type : Role;
  rec_content : list InternalContentBlock;
  rec_assistant : option AssistantFields;
  rec_uuid : string
}.

(** [s.replace(/-/g, "")] *)
Fixpoint removeDashes (s : string) : string :=
  match s with
  | EmptyString => EmptyString
  | String c r =>
      if Ascii.eqb c "-"%char then removeDashes r else String c (removeDashes r)
  end.

(** [`${tag}_${randomUUID().replace(/-/g, "").slice(0, 24)}`] *)
Definition shortId (tag u : string) : string :=
  tag +:+ "_" +:+ String.substring 0 24 (removeDashes u).

(** [content.findIndex(b => b.type === "tool_use")] where such a block
    exists: the number of blocks before the first one. *)
Fixpoint firstToolUseIndex (content : list InternalContentBlock) : nat :=
  match content with
  | [] => 0
  | b :: r => if isToolUse b then 0 else S (firstToolUseIndex r)
  end.

(** [splitIndex] *)
Definition splitIndex (content : list InternalContentBlock) : nat :=
  let i := firstToolUseIndex content in
  match i with
  | O => i
  | S j =>
      match nth_error content j with
      | Some prev => if isThinking prev then j else i
      | None => i
      end
  end.

(** [hasToolUse && (hasText || hasThinking)] on an assistant message *)
Definition isSplit (msg : InternalMessage) : bool :=
  isRole Assistant msg
  && existsb isToolUse (content msg)
  && (existsb isText (content msg) || existsb isThinking (content msg)).

Section WithUuid.

(** [randomUUID()]: the value of the call number [n] of the run. *)
Variable randomUUID : nat -> string.

(** The state of the loop over [messages]: the records pushed so far,
    [prevUuid], and the number of calls of [randomUUID] so far. *)
Record HistoryState : Type := mkHistory {
  records : list SdkRecord;
  prevUuid : option string;
  calls : nat
}.

(** An assistant record is built with three calls of [randomUUID]: its
    [uuid], the id of its message and its [requestId]. *)
Definition pushAssistant (st : HistoryState)
  (c : list InternalContentBlock) (stop : option string) (u : Z * Z)
  : HistoryState :=
  let n := calls st in
  let uuid := randomUUID n in
  mkHistory
    (records st ++
       [mkRecord (prevUuid st) Assistant c
          (Some (mkAssistantFields (shortId "msg" (randomUUID (n + 1))) stop u
                   (shortId "req" (randomUUID (n + 2)))))
          uuid])
    (Some uuid) (n + 3).

Definition pushUser (st : HistoryState) (c : list InternalContentBlock)
  : HistoryState :=
  let uuid := randomUUID (calls st) in
  mkHistory (records st ++ [mkRecord (prevUuid st) User c None uuid])
    (Some uuid) (calls st + 1).

(** One iteration of the loop over [messages]. *)
Definition historyStep (st : HistoryState) (msg : InternalMessage)
  : HistoryState :=
  if isSplit msg then
    let k := splitIndex (content msg) in
    let firstPart := firstn k (content msg) in
    let st1 :=
      match firstPart with
      | [] => st
      | _ => pushAssistant st firstPart None (50, 20)%Z
      end in
    let secondPart := prefixToolUse <$> skipn k (content msg) in
    pushAssistant st1 secondPart (Some "tool_use") (50, 30)%Z
  else
    let transformedContent := prefixToolUse <$> content msg in
    match role msg with
    | Assistant =>
        let thinkingBlocks := List.filter isThinking transformedContent in
        let otherBlocks :=
          List.filter (fun b => negb (isThinking b)) transformedContent in
        pushAssistant st (thinkingBlocks ++ otherBlocks)
          (Some (if existsb isToolUse (content msg)
                 then "tool_use" else "end_turn"))
          (100, 50)%Z
    | User => pushUser st transformedContent
    end.

(** The records that [buildJsonlHistory] serialises, one per line, into
    the history file.  The first call of [randomUUID] gives the session
    id. *)
Definition buildJsonlHistory (messages : list InternalMessage)
  : list SdkRecord :=
  records (fold_left historyStep messages (mkHistory [] None 1)).

End WithUuid.

(** A sequence of records in which each one names its predecessor. *)
Fixpoint chained (prev : option string) (rs : list SdkRecord) : Prop :=
  match rs with
  | [] => True
  | r :: rest => parentUuid r = prev /\ chained (Some (rec_uuid r)) rest
  end.

End Sdk.

(** ** The event stream of the agent runtime ([streamMessages]) *)

Module Stream.

(** [usage] as the runtime reports it in [message_start] and in its
    result. *)
Record RawUsage : Type := mkRawUsage {
  input_tokens : Z;
  output_tokens : Z;
  cache_creation_input_tokens : option Z;
  cache_read_input_tokens : option Z
}.

(** [usage] of a [message_delta] event. *)
Record DeltaUsage : Type := mkDeltaUsage {
  delta_output_tokens : Z;
  delta_input_tokens : option Z;
  delta_cache_creation_input_tokens : option Z;
  delta_cache_read_input_tokens : option Z
}.

(** [event.content_block] of a [content_block_start] event, by its type. *)
Inductive BlockStart : Type :=
| StartToolUse (id name : string)
| StartThinking
| StartOther.

(** [event.delta] of a [content_block_delta] event, by its type. *)
Inductive Delta : Type :=
| TextDelta (text : string)
| InputJsonDelta (partial_json : string)
| ThinkingDelta (thinking : string)
| SignatureDelta (signature : string)
| OtherDelta.

(** [event] of a [stream_event] message, by its type; a usage is [None]
    when the property is missing. *)
Inductive RawEvent : Type :=
| ContentBlockStart (block : BlockStart)
| ContentBlockDelta (delta : Delta)
| ContentBlockStop
| MessageStart (usage : option RawUsage)
| MessageDelta (usage : option DeltaUsage)
| MessageStop
| OtherEvent.

(** A message of the runtime, by its type. *)
Inductive SdkMessage : Type :=
| StreamEventMessage (event : RawEvent)
| ResultMessage (usage : option RawUsage)
| OtherMessage.

(** [StreamEvent] *)
Inductive StreamEvent : Type :=
| text_delta (text : string)
| thinking_start
| thinking_delta (thinking : string)
| thinking_stop (signature : option string)
| tool_use_start (id name : string)
| tool_use_delta (arguments : string)
| tool_use_stop
| message_stop (stopReason : option Response.StopReason)
    (usage : Response.Usage).

(** The variables of [streamMessages] that its events depend on. *)
Record State : Type := mkState {
  hasSeenToolUse : bool;
  currentToolId : option string;
  inThinkingBlock : bool;
  thinkingSignature : option string;
  usage : Response.Usage;
  messageStopSent : bool
}.

Definition initial : State :=
  mkState false None false None (Response.mkUsage 0 0 None None) false.

(** The object literal built from a reported usage. *)
Definition usageOf (u : RawUsage) : Response.Usage :=
  Response.mkUsage (input_tokens u) (output_tokens u)
    (Some (orNumber (cache_creation_input_tokens u) 0))
    (Some (orNumber (cache_read_input_tokens u) 0)).

(** The assignments of the [message_delta] branch. *)
Definition applyDelta (u : Response.Usage) (d : DeltaUsage) : Response.Usage :=
  Response.mkUsage
    (default (Response.inputTokens u) (delta_input_tokens d))
    (delta_output_tokens d)
    (match delta_cache_creation_input_tokens d with
     | Some v => Some v
     | None => Response.cacheCreationInputTokens u
     end)
    (match delta_cache_read_input_tokens d with
     | Some v => Some v
     | None => Response.cacheReadInputTokens u
     end).

Definition withUsage (st : State) (u : Response.Usage) : State :=
  mkState (hasSeenToolUse st) (currentToolId st) (inThinkingBlock st)
    (thinkingSignature st) u (messageStopSent st).

Definition stopReasonOf (st : State) : option Response.StopReason :=
  Some (if hasSeenToolUse st then Response.ToolUse else Response.EndTurn).

(** The branch [content_block_stop]: the state and the events yielded. *)
Definition blockStop (st : State) : State * list StreamEvent :=
  let '(st1, ev1) :=
    if truthyOpt (currentToolId st)
    then (mkState (hasSeenToolUse st) None (inThinkingBlock st)
            (thinkingSignature st) (usage st) (messageStopSent st),
          [tool_use_stop])
    else (st, []) in
  if inThinkingBlock st1
  then (mkState (hasSeenToolUse st1) (currentToolId st1) false None
          (usage st1) (messageStopSent st1),
        ev1 ++ [thinking_stop
                  (if truthyOpt (thinkingSignature st1)
                   then thinkingSignature st1 else None)])
  else (st1, ev1).

(** One iteration of the loop over the messages of the runtime: the
    state, the events yielded, and whether the loop is left ([break]
    after [abortController.abort()]). *)
Definition step (hasTools : bool) (st : State) (msg : SdkMessage)
  : State * list StreamEvent * bool :=
  match msg with
  | StreamEventMessage event =>
      match event with
      | ContentBlockStart (StartToolUse id name) =>
          (mkState true (Some id) (inThinkingBlock st) (thinkingSignature st)
             (usage st) (messageStopSent st),
           [tool_use_start id (Sdk.sdkToApi name)], false)
      | ContentBlockStart StartThinking =>
          (mkState (hasSeenToolUse st) (currentToolId st) true
             (thinkingSignature st) (usage st) (messageStopSent st),
           [thinking_start], false)
      | ContentBlockStart StartOther => (st, [], false)
      | ContentBlockDelta (TextDelta text) => (st, [text_delta text], false)
      | ContentBlockDelta (InputJsonDelta json) =>
          (st, [tool_use_delta json], false)
      | ContentBlockDelta (ThinkingDelta thinking) =>
          (st, [thinking_delta thinking], false)
      | ContentBlockDelta (SignatureDelta signature) =>
          (mkState (hasSeenToolUse st) (currentToolId st) (inThinkingBlock st)
             (Some (orString (thinkingSignature st) EmptyString +:+ signature))
             (usage st) (messageStopSent st),
           [], false)
      | ContentBlockDelta OtherDelta => (st, [], false)
      | ContentBlockStop => let '(st', evs) := blockStop st in (st', evs, false)
      | MessageStart (Some u) => (withUsage st (usageOf u), [], false)
      | MessageStart None => (st, [], false)
      | MessageDelta (Some d) =>
          (withUsage st (applyDelta (usage st) d), [], false)
      | MessageDelta None => (st, [], false)
      | MessageStop =>
          if hasSeenToolUse st && hasTools && negb (messageStopSent st)
          then (mkState (hasSeenToolUse st) (currentToolId st)
                  (inThinkingBlock st) (thinkingSignature st) (usage st) true,
                [message_stop (Some Response.ToolUse) (usage st)], true)
          else (st, [], false)
      | OtherEvent => (st, [], false)
      end
  | ResultMessage u =>
      let st1 :=
        match u with Some u => withUsage st (usageOf u) | None => st end in
      if negb (messageStopSent st1)
      then (mkState (hasSeenToolUse st1) (currentToolId st1)
              (inThinkingBlock st1) (thinkingSignature st1) (usage st1) true,
            [message_stop (stopReasonOf st1) (usage st1)], false)
      else (st1, [], false)
  | OtherMessage => (st, [], false)
  end.

(** The loop [for await (const msg of q)] on the messages that the
    runtime delivers. *)
Fixpoint run (hasTools : bool) (msgs : list SdkMessage) (st : State)
  : State * list StreamEvent * bool :=
  match msgs with
  | [] => (st, [], false)
  | msg :: rest =>
      let '(st1, evs, stop) := step hasTools st msg in
      if stop then (st1, evs, true)
      else
        let '(st2, evs', stop') := run hasTools rest st1 in
        (st2, evs ++ evs', stop')
  end.

(** The fallback after the loop. *)
Definition fallback (st : State) : list StreamEvent :=
  if messageStopSent st then []
  else [message_stop (stopReasonOf st) (usage st)].

(** A value that the runtime throws: an [Error] object, with its name
    and its message, or any other value. *)
Inductive Thrown : Type :=
| ErrorObject (name message : string)
| OtherValue.

(** [error instanceof Error && error.name === "AbortError"] *)
Definition isAbortError (e : Thrown) : bool :=
  match e with
  | ErrorObject name _ => String.eqb name "AbortError"
  | OtherValue => false
  end.

(** How the generator of the runtime ends once it has delivered its
    messages: it returns, or it throws. *)
Inductive Ending : Type :=
| Returns
| Throws (e : Thrown).

(** The generator [q]: the messages it delivers and how it ends. *)
Record Runtime : Type := mkRuntime {
  delivered : list SdkMessage;
  ending : Ending
}.

(** [streamMessages]: the events yielded and, when the generator ends by
    rethrowing an error of the runtime, that error.  The loop left by
    [break] reads no more of the runtime; an [AbortError] is caught and
    the fallback follows as after a normal end; any other error is
    rethrown before the fallback. *)
Definition streamMessages (q : Runtime) (hasTools : bool)
  : list StreamEvent * option Thrown :=
  let '(st, evs, stop) := run hasTools (delivered q) initial in
  if stop then (evs ++ fallback st, None)
  else
    match ending q with
    | Returns => (evs ++ fallback st, None)
    | Throws e =>
        if isAbortError e then (evs ++ fallback st, None)
        else (evs, Some e)
    end.

Definition isMessageStop (e : StreamEvent) : bool :=
  match e with message_stop _ _ => true | _ => false end.

Definition isToolStart (m : SdkMessage) : bool :=
  match m with
  | StreamEventMessage (ContentBlockStart (StartToolUse _ _)) => true
  | _ => false
  end.


Definition isToolUseStart (e : StreamEvent) : bool :=
  match e with tool_use_start _ _ => true | _ => false end.

Definition isToolUseStop (e : StreamEvent) : bool :=
  match e with tool_use_stop => true | _ => false end.

Definition isThinkingStart (e : StreamEvent) : bool :=
  match e with thinking_start => true | _ => false end.

Definition isThinkingStop (e : StreamEvent) : bool :=
  match e with thinking_stop _ => true | _ => false end.

(** The number of events of a list that satisfy a test. *)
Definition count {A} (p : A -> bool) (l : list A) : nat :=
  length (List.filter p l).

End Stream.

(** ** The query of the agent runtime ([processRequest]) *)

Module Query.

Definition RESUME_NO_USER_MSG : string := "__RESUME_NO_USER_MSG__".

(** [new Error(message)] *)
Inductive Thrown : Type := Error (message : string).

(** What [processRequest] asks of the runtime: the prompt and, when it
    resumes a conversation, the history it wrote. *)
Record Prompt : Type := mkPrompt {
  prompt : string;
  resume : option (list Sdk.SdkRecord)
}.

(** [hasToolResult(messages) || hasAssistantMessage] *)
Definition needsResume (messages : list InternalMessage) : bool :=
  Sdk.hasToolResult messages || existsb (isRole Assistant) messages.

(** The text of a [text] block. *)
Definition blockText (b : InternalContentBlock) : option string :=
  match b with TextBlock text => Some text | _ => None end.

Section WithUuid.

(** [randomUUID()]: the value of the call number [n] of the request; the
    first one names the saved request. *)
Variable randomUUID : nat -> string.

(** The choice of [prompt] and [resumePath] in [processRequest]. *)
Definition choosePrompt (messages : list InternalMessage)
  : Thrown + Prompt :=
  if needsResume messages
  then inr (mkPrompt RESUME_NO_USER_MSG
              (Some (Sdk.buildJsonlHistory (fun n => randomUUID (S n))
                       messages)))
  else
    match last (List.filter (isRole User) messages) with
    | None => inl (Error "No user message found")
    | Some lastUserMsg =>
        inr (mkPrompt (join nl (omap blockText (content lastUserMsg))) None)
    end.

End WithUuid.

(** A content block of an assistant message of the runtime, by its
    type. *)
Inductive SdkBlock : Type :=
| SdkToolUse (id name : string) (input : JsonValue)
| SdkText (text : string)
| SdkThinking (thinking : string) (signature : option string)
| SdkOtherBlock.

(** The fields of an assistant message of the runtime that are read. *)
Record AssistantMessage : Type := mkAssistant {
  message_usage : option Stream.RawUsage;
  message_content : list SdkBlock;
  uuid : string
}.

(** A message of the runtime, by its type; [success] tells whether the
    subtype of a result is ["success"]. *)
Inductive SdkMessage : Type :=
| AssistantMsg (m : AssistantMessage)
| ResultMsg (usage : option Stream.RawUsage) (success : bool)
| OtherMsg.

(** The variables of the loop of [processRequest] without streaming. *)
Record State : Type := mkState {
  contentBlocks : list InternalContentBlock;
  stopReason : option Response.StopReason;
  usage : Response.Usage;
  messageId : string;
  hasToolUse : bool
}.

(** One iteration of the loop over [assistantMsg.message.content]. *)
Definition pushSdkBlock (st : State) (block : SdkBlock) : State :=
  match block with
  | SdkToolUse id name input =>
      mkState (contentBlocks st ++ [ToolUseBlock id (Sdk.sdkToApi name) input])
        (Some Response.ToolUse) (usage st) (messageId st) true
  | SdkText text =>
      mkState (contentBlocks st ++ [TextBlock text])
        (stopReason st) (usage st) (messageId st) (hasToolUse st)
  | SdkThinking thinking signature =>
      mkState
        (contentBlocks st
         ++ [ThinkingBlock thinking
               (if truthyOpt signature then signature else None)])
        (stopReason st) (usage st) (messageId st) (hasToolUse st)
  | SdkOtherBlock => st
  end.

Definition onAssistant (st : State) (m : AssistantMessage) : State :=
  let st1 :=
    match message_usage m with
    | Some u =>
        mkState (contentBlocks st) (stopReason st) (Stream.usageOf u)
          (messageId st) (hasToolUse st)
    | None => st
    end in
  let st2 := fold_left pushSdkBlock (message_content m) st1 in
  mkState (contentBlocks st2) (stopReason st2) (usage st2) (uuid m)
    (hasToolUse st2).

Definition onResult (st : State) (u : option Stream.RawUsage) (success : bool)
  : State :=
  mkState (contentBlocks st)
    (match stopReason st with
     | Some r => Some r
     | None => if success then Some Response.EndTurn else None
     end)
    (match u with Some u => Stream.usageOf u | None => usage st end)
    (messageId st) (hasToolUse st).

(** The loop over the messages that the runtime delivers; it is left at
    the first result.  The abort on a tool call changes no variable of
    the loop: it ends what the runtime delivers. *)
Fixpoint collect (msgs : list SdkMessage) (st : State) : State :=
  match msgs with
  | [] => st
  | AssistantMsg m :: rest => collect rest (onAssistant st m)
  | ResultMsg u success :: _ => onResult st u success
  | OtherMsg :: rest => collect rest st
  end.

(** The response of [processRequest] without streaming; [firstId] is the
    value of [randomUUID()] that [messageId] starts with. *)
Definition respondOnce (firstId : string) (model : option string)
  (msgs : list SdkMessage) : Response.InternalResponse :=
  let st :=
    collect msgs
      (mkState [] None (Response.mkUsage 0 0 None None) firstId false) in
  Response.mkResponse (messageId st) (contentBlocks st)
    (Some (default "claude-sonnet-4-20250514" model))
    (stopReason st) (usage st).

End Query.

(** ** The streamed response of the route ([openai-route.ts]) *)

Module Route.

(** [thinking.replace(/```/g, "\\`\\`\\`")]: every run of three
    backticks, from left to right, gets a backslash before each of
    them. *)
Fixpoint escapeFences (s : string) : string :=
  match s with
  | EmptyString => EmptyString
  | String a r1 =>
      match r1 with
      | String b (String c r3) =>
          if Ascii.eqb a Codec.backtick && Ascii.eqb b Codec.backtick
             && Ascii.eqb c Codec.backtick
          then String Codec.backslash (String Codec.backtick
                 (String Codec.backslash (String Codec.backtick
                    (String Codec.backslash (String Codec.backtick
                       (escapeFences r3))))))
          else String a (escapeFences r1)
      | _ => String a (escapeFences r1)
      end
  end.

(** An element of [delta.tool_calls]; [type] is ["function"] exactly
    when [id] and [name] are there. *)
Record ToolCallDelta : Type := mkToolCallDelta {
  call_index : Z;
  call_id : option string;
  call_name : option string;
  call_arguments : string
}.

(** [choices[0].delta]; [role], when present, is ["assistant"]. *)
Record ChunkDelta : Type := mkDelta {
  role : bool;
  content : option string;
  tool_calls : option (list ToolCallDelta)
}.

(** [OpenAIStreamChunk]: [id], [object], [created] and [model] are the
    same in every chunk of a response and are left out; [choices] always
    holds one choice with index 0. *)
Record Chunk : Type := mkChunk {
  delta : ChunkDelta;
  finish_reason : option Response.FinishReason;
  usage : option Response.ChatUsage
}.

(** [streamEventToOpenAIChunk] *)
Definition streamEventToOpenAIChunk (event : Stream.StreamEvent)
  (isFirst : bool) (toolIndex : Z) (accumulatedThinking : string)
  : option Chunk :=
  match event with
  | Stream.text_delta text =>
      Some (mkChunk (mkDelta isFirst (Some text) None) None None)
  | Stream.thinking_delta thinking =>
      Some (mkChunk (mkDelta isFirst (Some (escapeFences thinking)) None)
              None None)
  | Stream.thinking_start =>
      Some (mkChunk (mkDelta isFirst (Some Codec.header) None) None None)
  | Stream.thinking_stop signature =>
      let sigTag :=
        match signature with
        | Some s =>
            if truthy s && truthy accumulatedThinking
            then Codec.sigOpen +:+ s +:+ Codec.crcOpen
                 +:+ calculateCrc32 accumulatedThinking +:+ "]"
            else EmptyString
        | None => EmptyString
        end in
      Some (mkChunk
              (mkDelta false (Some (sigTag +:+ Codec.fence +:+ nl +:+ nl)) None)
              None None)
  | Stream.tool_use_start id name =>
      Some (mkChunk
              (mkDelta isFirst None
                 (Some [mkToolCallDelta toolIndex (Some id) (Some name)
                          EmptyString]))
              None None)
  | Stream.tool_use_delta arguments =>
      Some (mkChunk
              (mkDelta false None
                 (Some [mkToolCallDelta (toolIndex - 1) None None arguments]))
              None None)
  | Stream.message_stop stopReason usage =>
      let finishReason :=
        match stopReason with
        | Some Response.ToolUse => Response.ToolCalls
        | Some Response.MaxTokens => Response.Length
        | _ => Response.Stop
        end in
      let promptTokens := Response.promptTokens usage in
      Some (mkChunk (mkDelta false None None) (Some finishReason)
              (Some (Response.mkChatUsage promptTokens
                       (Response.outputTokens usage)
                       (promptTokens + Response.outputTokens usage)%Z)))
  | Stream.tool_use_stop => None
  end.

(** What the handler writes to the stream: a comment line, a [data:] line
    with a chunk, the [data:] line with the error object of the [catch]
    branch, or the line [data: [DONE]]. *)
Inductive Write : Type :=
| Comment (text : string)
| Data (chunk : Chunk)
| ErrorData (message : string)
| Done.

(** The variables of the stream handler. *)
Record State : Type := mkState {
  isFirstChunk : bool;
  currentToolIndex : Z;
  done : bool;
  accumulatedThinking : string
}.

Definition initial : State := mkState true 0 false EmptyString.

(** One iteration of the loop over [result.streamEvents]. *)
Definition step (st : State) (event : Stream.StreamEvent)
  : State * list Write :=
  let accumulated :=
    match event with
    | Stream.thinking_start => EmptyString
    | Stream.thinking_delta thinking =>
        accumulatedThinking st +:+ escapeFences thinking
    | _ => accumulatedThinking st
    end in
  let '(isFirst, toolIndex, written) :=
    match streamEventToOpenAIChunk event (isFirstChunk st)
            (currentToolIndex st) accumulated with
    | Some chunk =>
        (false,
         if Stream.isToolUseStart event then (currentToolIndex st + 1)%Z
         else currentToolIndex st,
         [Data chunk])
    | None => (isFirstChunk st, currentToolIndex st, [])
    end in
  if Stream.isMessageStop event
  then (mkState isFirst toolIndex true accumulated, written ++ [Done])
  else (mkState isFirst toolIndex (done st) accumulated, written).

Fixpoint loop (events : list Stream.StreamEvent) (st : State)
  : State * list Write :=
  match events with
  | [] => (st, [])
  | event :: rest =>
      let '(st1, written) := step st event in
      let '(st2, written') := loop rest st1 in
      (st2, written ++ written')
  end.

(** [streamError instanceof Error ? streamError.message : "Stream error"] *)
Definition errorMessage (e : Stream.Thrown) : string :=
  match e with
  | Stream.ErrorObject _ message => message
  | Stream.OtherValue => "Stream error"
  end.

(** The body of the stream handler on a generator that yields [events]
    and then returns, or throws [thrown]: the [try] block and, on a
    throw, the [catch] branch, which writes its two lines without
    looking at [done].  Every write succeeds; the keep-alive comments of
    the timer are left out. *)
Definition respond (events : list Stream.StreamEvent)
  (thrown : option Stream.Thrown) : list Write :=
  let '(st, written) := loop events initial in
  Comment "stream connected" :: written
  ++ match thrown with
     | None => if done st then [] else [Done]
     | Some e => [ErrorData (errorMessage e); Done]
     end.

(** The response streamed for a run of the runtime: the handler on the
    generator that [streamMessages] is. *)
Definition streamed (q : Stream.Runtime) (hasTools : bool) : list Write :=
  let '(events, thrown) := Stream.streamMessages q hasTools in
  respond events thrown.

Definition isErrorData (w : Write) : bool :=
  match w with ErrorData _ => true | _ => false end.

Definition isDone (w : Write) : bool :=
  match w with Done => true | _ => false end.

(** The chunks of the [data:] lines, in the order written. *)
Definition chunks (written : list Write) : list Chunk :=
  omap (fun w => match w with Data c => Some c | _ => None end) written.

(** The text a client gets by appending the [content] of the chunks. *)
Definition streamedText (written : list Write) : string :=
  fold_right String.append EmptyString
    (omap (fun c => content (delta c)) (chunks written)).

(** A chunk that opens a tool call: its call carries [id] and [name]. *)
Definition opensCall (c : Chunk) : bool :=
  match tool_calls (delta c) with
  | Some [call] =>
      match call_id call with Some _ => true | None => false end
  | _ => false
  end.

(** A chunk with a [finish_reason] other than [null]. *)
Definition hasFinish (c : Chunk) : bool :=
  match finish_reason c with Some _ => true | None => false end.

Definition notBacktick (c : ascii) : bool := negb (Ascii.eqb c Codec.backtick).

(** The thinking text whose pieces are [deltas]. *)
Definition wholeText (deltas : list string) : string :=
  fold_right String.append EmptyString deltas.

(** The frame of one thinking block as the runtime streams it. *)
Definition thinkingEvents (deltas : list string) (signature : option string)
  : list Stream.StreamEvent :=
  Stream.thinking_start :: (Stream.thinking_delta <$> deltas)
  ++ [Stream.thinking_stop signature].

End Route.

(** ** More sample values *)

Module MoreSamples.

(** A [JSON.stringify] for the samples, whose tool inputs are all the
    empty object. *)
Definition stringifyEmptyObject (v : JsonValue) : string := "{}".

(** A response with a thinking block, an answer and a tool call. *)
Definition response : Response.InternalResponse :=
  Response.mkResponse "msg_1"
    [ ThinkingBlock "because X" (Some "abc"); TextBlock "Let me look.";
      ToolUseBlock "t1" "search" (JObject []) ]
    None (Some Response.ToolUse)
    (Response.mkUsage 10 5 (Some 3%Z) None).

(** That response as the client sends it back, and the request that
    carries it with the result of its tool call. *)
Definition sentBackMessage : OpenAI.Message :=
  Response.sentBack
    (Response.internalToOpenai stringifyEmptyObject 0 response
       "claude-4.5-opus").

Definition nextRequest : OpenAI.OpenAIStyleRequest :=
  OpenAI.mkOpenAIRequest "claude-4.5-opus-high-thinking"
    [ OpenAI.mkMsg OpenAI.RoleUser (StringContent "hi") None None;
      sentBackMessage;
      OpenAI.mkMsg OpenAI.RoleTool (StringContent "found") None (Some "t1") ]
    None None None None.

(** An identifier for the call number [n] of [randomUUID]: [n] letters
    [a] and a fixed tail. *)
Definition sampleUuid (n : nat) : string :=
  Nat.iter n (String "a"%char) "-0000-4000-8000-000000000000".

(** A tool call that the runtime starts to stream. *)
Definition toolStart : Stream.SdkMessage :=
  Stream.StreamEventMessage
    (Stream.ContentBlockStart
       (Stream.StartToolUse "toolu_1" "mcp__api-tools__search")).

(** A run of the runtime that starts a tool call, closes its block and
    returns. *)
Definition toolTurn : Stream.Runtime :=
  Stream.mkRuntime
    [toolStart; Stream.StreamEventMessage Stream.ContentBlockStop]
    Stream.Returns.

(** A turn of the runtime that only answers in text. *)
Definition textTurn : list Stream.SdkMessage :=
  [Stream.StreamEventMessage (Stream.ContentBlockDelta (Stream.TextDelta "4"));
   Stream.ResultMessage (Some (Stream.mkRawUsage 12 1 None None))].

(** The events of a turn that calls one tool. *)
Definition callEvents : list Stream.StreamEvent :=
  [Stream.tool_use_start "toolu_1" "search";
   Stream.tool_use_delta "{}";
   Stream.tool_use_stop;
   Stream.message_stop (Some Response.ToolUse)
     (Response.mkUsage 12 1 None None)].

(** The pieces of a thinking text as the runtime streams them. *)
Definition thinkingDeltas : list string := ["Add the "; "two numbers."].

End MoreSamples.

(** * Properties *)

(** ** Strings *)

Section StringFacts.

Lemma append_assoc (a b c : string) : (a +:+ b) +:+ c = a +:+ (b +:+ c).
Proof. induction a as [|x a IH]; simpl; [done | by rewrite IH]. Qed.

Lemma append_nil_r (a : string) : a +:+ EmptyString = a.
Proof. induction a as [|x a IH]; simpl; [done | by rewrite IH]. Qed.

Lemma length_append (a b : string) :
  String.length (a +:+ b) = String.length a + String.length b.
Proof. induction a as [|x a IH]; simpl; [done | by rewrite IH]. Qed.

Lemma append_inv_tail (a b c : string) : a +:+ c = b +:+ c -> a = b.
Proof.
  revert b. induction a as [|x a IH]; intros [|y b] H; simpl in *.
  - done.
  - apply (f_equal String.length) in H. simpl in H.
    rewrite length_append in H. lia.
  - apply (f_equal String.length) in H. simpl in H.
    rewrite length_append in H. lia.
  - injection H as -> H. f_equal. by apply IH.
Qed.

Lemma stripPrefix_append (p s : string) : stripPrefix p (p +:+ s) = Some s.
Proof.
  induction p as [|a p IH]; simpl; [done |].
  by rewrite Ascii.eqb_refl.
Qed.

Lemma stripPrefix_Some (p s r : string) :
  stripPrefix p s = Some r -> s = p +:+ r.
Proof.
  revert s. induction p as [|a p IH]; intros [|b s] H; simpl in *;
    try congruence.
  destruct (Ascii.eqb a b) eqn:E; [|done].
  apply Ascii.eqb_eq in E as ->. f_equal. by apply IH.
Qed.

(** A literal found at the start of [e +:+ y] lies in [e], or [e] is a
    proper prefix of the literal and the rest of it starts [y]. *)
Lemma stripPrefix_split (p e y r : string) :
  stripPrefix p (e +:+ y) = Some r ->
  (exists r', stripPrefix p e = Some r')
  \/ (exists p2, p = e +:+ p2 /\ stripPrefix p2 y = Some r).
Proof.
  revert e. induction p as [|a p IH]; intros e H.
  - left. by exists e.
  - destruct e as [|c e]; simpl in H.
    + right. by exists (String a p).
    + simpl. destruct (Ascii.eqb a c) eqn:E; [|done].
      apply Ascii.eqb_eq in E as ->.
      destruct (IH _ H) as [[r' Hr]|[p2 [-> Hp2]]]; [left; eauto|].
      right. by exists p2.
Qed.

Lemma includes_startsWith (needle s : string) :
  startsWith needle s = true -> includes needle s = true.
Proof. intros H. destruct s; simpl; by rewrite H. Qed.

Lemma includes_spec (needle s : string) :
  includes needle s = true <->
  exists pre post, s = pre +:+ needle +:+ post.
Proof.
  split.
  - induction s as [|c s IH]; simpl; unfold startsWith.
    + destruct (stripPrefix needle EmptyString) as [r|] eqn:E; [|done].
      intros _. exists EmptyString, r. exact (stripPrefix_Some _ _ _ E).
    + destruct (stripPrefix needle (String c s)) as [r|] eqn:E.
      * intros _. exists EmptyString, r. exact (stripPrefix_Some _ _ _ E).
      * simpl. intros H. destruct (IH H) as (pre & post & ->).
        by exists (String c pre), post.
  - intros (pre & post & ->). induction pre as [|c pre IH]; simpl.
    + simpl. apply includes_startsWith. unfold startsWith.
      by rewrite stripPrefix_append.
    + rewrite IH. apply orb_true_r.
Qed.

Lemma includes_cons (needle : string) (c : ascii) (s : string) :
  includes needle (String c s) = false ->
  startsWith needle (String c s) = false /\ includes needle s = false.
Proof. simpl. by intros [? ?]%orb_false_elim. Qed.

Lemma span_append (p : ascii -> bool) (s r : string) :
  allChars p s = true ->
  match r with String c _ => p c = false | EmptyString => True end ->
  span p (s +:+ r) = (s, r).
Proof.
  intros Hs Hr. induction s as [|c s IH]; simpl in *.
  - destruct r as [|c r]; simpl; [done | by rewrite Hr].
  - apply andb_prop in Hs as [Hc Hs]. rewrite Hc. by rewrite IH.
Qed.

Lemma substring_prefix (a b : string) :
  String.substring 0 (String.length a) (a +:+ b) = a.
Proof.
  induction a as [|c a IH]; simpl; [by destruct b | by rewrite IH].
Qed.

End StringFacts.

(** ** The checksum text *)

Section ChecksumFacts.

Lemma hexDigit_notBracket (d : N) : (d < 16)%N -> notBracket (Crc32.hexDigit d) = true.
Proof.
  intros Hd. unfold notBracket, Crc32.hexDigit.
  apply negb_true_iff, Ascii.eqb_neq. intros H.
  apply (f_equal N_of_ascii) in H.
  destruct (d <? 10)%N eqn:E.
  - apply N.ltb_lt in E. rewrite N_ascii_embedding in H by lia.
    vm_compute (N_of_ascii _) in H. lia.
  - apply N.ltb_ge in E. rewrite N_ascii_embedding in H by lia.
    vm_compute (N_of_ascii _) in H. lia.
Qed.

Lemma toHex_notBracket (fuel : nat) (n : N) (acc : string) :
  allChars notBracket acc = true ->
  allChars notBracket (Crc32.toHex fuel n acc) = true.
Proof.
  revert n acc. induction fuel as [|fuel IH]; intros n acc Hacc; simpl.
  - done.
  - assert (allChars notBracket
              (String (Crc32.hexDigit (n mod 16)) acc) = true) as H.
    { simpl. rewrite Hacc, hexDigit_notBracket; [done |].
      by apply N.mod_lt. }
    destruct (n / 16 =? 0)%N; [done | by apply IH].
Qed.

Lemma toHex_truthy (fuel : nat) (n : N) (acc : string) :
  truthy acc = true -> truthy (Crc32.toHex fuel n acc) = true.
Proof.
  revert n acc. induction fuel as [|fuel IH]; intros n acc Hacc; simpl.
  - done.
  - destruct (n / 16 =? 0)%N; [done | by apply IH].
Qed.

Lemma padStart0_notBracket (w : nat) (s : string) :
  allChars notBracket s = true ->
  allChars notBracket (Crc32.padStart0 w s) = true.
Proof.
  intros Hs. unfold Crc32.padStart0.
  induction (w - String.length s) as [|k IH]; simpl; [done |].
  by rewrite IH.
Qed.

Lemma padStart0_truthy (w : nat) (s : string) :
  truthy s = true -> truthy (Crc32.padStart0 w s) = true.
Proof.
  intros Hs. unfold Crc32.padStart0.
  by destruct (w - String.length s).
Qed.

(** The checksum text never holds the bracket that closes the trailer. *)
Lemma calculateCrc32_notBracket (text : string) :
  allChars notBracket (calculateCrc32 text) = true.
Proof.
  unfold calculateCrc32, Crc32.toString16.
  by apply padStart0_notBracket, toHex_notBracket.
Qed.

Lemma calculateCrc32_truthy (text : string) :
  truthy (calculateCrc32 text) = true.
Proof.
  unfold calculateCrc32, Crc32.toString16.
  apply padStart0_truthy. simpl.
  destruct (_ =? 0)%N; [done | by apply toHex_truthy].
Qed.

End ChecksumFacts.

(** ** Escaping and trimming *)

Section EscapeFacts.

Lemma escape_not_backtick_first (t : string) (c : ascii) (r : string) :
  escapeBackticks t = String c r -> Ascii.eqb c backtick = false.
Proof.
  destruct t as [|d t]; simpl; [done |].
  destruct (Ascii.eqb d backtick) eqn:E; intros H; injection H as <- _;
    done.
Qed.

Lemma unescape_escape (t : string) :
  unescapeBackticks (escapeBackticks t) = t.
Proof.
  induction t as [|c t IH]; [done |].
  cbn [escapeBackticks].
  destruct (Ascii.eqb c backtick) eqn:E.
  - apply Ascii.eqb_eq in E as ->.
    cbn [unescapeBackticks]. rewrite !Ascii.eqb_refl. simpl.
    by rewrite IH.
  - cbn [unescapeBackticks]. fold unescapeBackticks.
    destruct (escapeBackticks t) as [|d r] eqn:Et.
    + destruct t as [|x t]; [done |]. simpl in Et.
      by destruct (Ascii.eqb x backtick).
    + rewrite (escape_not_backtick_first _ _ _ Et), andb_false_r.
      by rewrite IH.
Qed.

Lemma escape_empty (t : string) :
  isEmpty (escapeBackticks t) = isEmpty t.
Proof. destruct t as [|c t]; simpl; [done |]. by destruct (Ascii.eqb _ _). Qed.

(** A literal without backslash or backtick found in the escaped text
    is in the text itself. *)
Lemma startsWith_escape (p t : string) :
  allChars plain p = true ->
  startsWith p (escapeBackticks t) = true -> startsWith p t = true.
Proof.
  unfold startsWith. revert t.
  induction p as [|a p IH]; intros t Hp H; [done |].
  simpl in Hp. apply andb_prop in Hp as [Ha Hp].
  apply andb_prop in Ha as [Ha1 Ha2].
  apply negb_true_iff in Ha1, Ha2.
  destruct t as [|c t]; [done |]. simpl in H |- *.
  destruct (Ascii.eqb c backtick) eqn:E.
  - simpl in H. by rewrite Ha1 in H.
  - simpl in H. destruct (Ascii.eqb a c); [by apply IH | done].
Qed.

Lemma includes_escape (p t : string) :
  allChars plain p = true -> isEmpty p = false ->
  includes p t = false -> includes p (escapeBackticks t) = false.
Proof.
  intros Hp Hne. induction t as [|c t IH]; [done |].
  intros [H1 H2]%includes_cons.
  destruct (includes p (escapeBackticks (String c t))) eqn:Hi; [|done].
  exfalso. specialize (IH H2).
  cbn [escapeBackticks] in Hi.
  destruct (Ascii.eqb c backtick) eqn:E.
  - destruct p as [|a p]; [done |].
    simpl in Hp. apply andb_prop in Hp as [Ha _].
    apply andb_prop in Ha as [Ha1 Ha2].
    apply negb_true_iff in Ha1, Ha2.
    simpl in Hi. unfold startsWith in Hi. simpl in Hi.
    rewrite Ha1, Ha2 in Hi. simpl in Hi. congruence.
  - simpl in Hi. apply orb_prop in Hi as [Hi|Hi]; [|congruence].
    assert (startsWith p (escapeBackticks (String c t)) = true) as Hs.
    { cbn [escapeBackticks]. by rewrite E. }
    apply startsWith_escape in Hs; [congruence | done].
Qed.

(** In the escaped text no backtick follows a newline. *)
Lemma escape_no_fence (t : string) :
  includes (nl +:+ "`") (escapeBackticks t) = false.
Proof.
  set (p := nl +:+ "`").
  assert (forall x, startsWith p (String backslash x) = false) as H1 by done.
  assert (forall x, startsWith p (String backtick x) = false) as H2 by done.
  induction t as [|c t IH]; [done |].
  cbn [escapeBackticks]. destruct (Ascii.eqb c backtick) eqn:E.
  - cbn [includes]. by rewrite H1, H2, IH.
  - cbn [includes]. rewrite IH, orb_false_r.
    unfold startsWith.
    change p with (String "010"%char (String backtick EmptyString)).
    cbn [stripPrefix].
    destruct (Ascii.eqb "010"%char c); [|done].
    destruct (escapeBackticks t) as [|d r] eqn:Et; [done |].
    rewrite Ascii.eqb_sym. by rewrite (escape_not_backtick_first _ _ _ Et).
Qed.

End EscapeFacts.

Section TrimFacts.

Lemma trimStart_length (s : string) :
  String.length (trimStart s) <= String.length s.
Proof. induction s as [|c s IH]; simpl; [done |]. destruct (isWhiteSpace c); simpl; lia. Qed.

Lemma trimEnd_length (s : string) :
  String.length (trimEnd s) <= String.length s.
Proof.
  induction s as [|c s IH]; simpl; [done |].
  destruct (isWhiteSpace c && isEmpty (trimEnd s)); simpl; lia.
Qed.

Lemma trimStart_fixed (s : string) :
  String.length (trimStart s) = String.length s -> trimStart s = s.
Proof.
  destruct s as [|c s]; simpl; [done |].
  destruct (isWhiteSpace c); [|done].
  pose proof (trimStart_length s). lia.
Qed.

Lemma trimEnd_fixed (s : string) :
  String.length (trimEnd s) = String.length s -> trimEnd s = s.
Proof.
  induction s as [|c s IH]; simpl; [done |].
  destruct (isWhiteSpace c && isEmpty (trimEnd s)); simpl; [done |].
  intros H. f_equal. apply IH. lia.
Qed.

(** A text that [trim] leaves alone is left alone by both halves. *)
Lemma trim_fixed (s : string) :
  trim s = s -> trimStart s = s /\ trimEnd s = s.
Proof.
  unfold trim. intros H.
  pose proof (trimStart_length s) as H1.
  pose proof (trimEnd_length (trimStart s)) as H2.
  assert (trimStart s = s) as Hs.
  { apply trimStart_fixed. apply (f_equal String.length) in H. lia. }
  split; [done |]. by rewrite Hs in H.
Qed.

Lemma backslash_not_space : isWhiteSpace backslash = false.
Proof. reflexivity. Qed.

Lemma backtick_not_space : isWhiteSpace backtick = false.
Proof. reflexivity. Qed.

Lemma trimStart_escape (t : string) :
  trimStart t = t -> trimStart (escapeBackticks t) = escapeBackticks t.
Proof.
  destruct t as [|c t]; [done |]. intros H.
  assert (isWhiteSpace c = false) as Hc.
  { simpl in H. destruct (isWhiteSpace c); [|done].
    pose proof (trimStart_length t) as Hl.
    apply (f_equal String.length) in H. simpl in H. lia. }
  cbn [escapeBackticks]. destruct (Ascii.eqb c backtick); simpl.
  - done.
  - by rewrite Hc.
Qed.

Lemma trimEnd_escape (t : string) :
  trimEnd t = t -> trimEnd (escapeBackticks t) = escapeBackticks t.
Proof.
  induction t as [|c t IH]; [done |]. intros H.
  simpl in H.
  destruct (isWhiteSpace c && isEmpty (trimEnd t)) eqn:Hw; [done |].
  injection H as H. specialize (IH H). rewrite H in Hw.
  cbn [escapeBackticks]. destruct (Ascii.eqb c backtick) eqn:E.
  - cbn [trimEnd]. rewrite IH. simpl. done.
  - cbn [trimEnd]. rewrite IH, escape_empty, Hw. done.
Qed.

Lemma trim_escape (t : string) :
  trim t = t -> trim (escapeBackticks t) = escapeBackticks t.
Proof.
  intros [H1 H2]%trim_fixed. unfold trim.
  rewrite trimStart_escape by done. by apply trimEnd_escape.
Qed.

End TrimFacts.

(** ** The envelope matcher *)

Section MatcherFacts.

Lemma lastChar_append (a b : string) :
  lastChar (a +:+ b)
  = match lastChar b with Some d => Some d | None => lastChar a end.
Proof.
  induction a as [|c a IH]; simpl.
  - by destruct (lastChar b).
  - rewrite IH. by destruct (lastChar b), (lastChar a).
Qed.

Lemma allChars_append (p : ascii -> bool) (a b : string) :
  allChars p (a +:+ b) = allChars p a && allChars p b.
Proof.
  induction a as [|c a IH]; simpl; [done |].
  by rewrite IH, andb_assoc.
Qed.

Lemma span_eq (p : ascii -> bool) (s a b : string) :
  span p s = (a, b) -> s = a +:+ b.
Proof.
  revert a b. induction s as [|c s IH]; intros a b; simpl.
  - by intros [= <- <-].
  - destruct (p c).
    + destruct (span p s) as [a' b'] eqn:E. intros [= <- <-].
      simpl. f_equal. by apply IH.
    + by intros [= <- <-].
Qed.

Lemma matchTrailer_suffix (s sig crc r : string) :
  matchTrailer s = Some (sig, crc, r) -> exists pre, s = pre +:+ r.
Proof.
  unfold matchTrailer.
  destruct (stripPrefix sigOpen s) as [r1|] eqn:E1; [|done].
  destruct (span notCommaBracket r1) as [g r2] eqn:E2.
  destruct (isEmpty g); [done |].
  destruct (stripPrefix crcOpen r2) as [r3|] eqn:E3; [|done].
  destruct (span notBracket r3) as [k r4] eqn:E4.
  destruct (isEmpty k); [done |].
  destruct (stripPrefix "]" r4) as [r5|] eqn:E5; [|done].
  intros [= <- <- <-].
  apply stripPrefix_Some in E1, E3, E5. apply span_eq in E2, E4.
  exists (sigOpen +:+ g +:+ crcOpen +:+ k +:+ "]").
  rewrite E1, E2, E3, E4, E5. by rewrite !append_assoc.
Qed.

(** The anchored tail only matches a text that ends in the fence. *)
Lemma tailAnchored_last (s : string) (caps : option (string * string)) :
  tailAnchored s = Some caps -> lastChar s = Some backtick.
Proof.
  unfold tailAnchored. intros H.
  assert (forall x : option (option (string * string)),
            (if String.eqb s fence then Some None else None) = x ->
            is_Some x -> lastChar s = Some backtick) as Hskip.
  { intros x <- [y Hy]. destruct (String.eqb s fence) eqn:E; [|done].
    by apply String.eqb_eq in E as ->. }
  destruct (matchTrailer s) as [[[g k] r]|] eqn:Em.
  - destruct (String.eqb r fence) eqn:Er.
    + apply String.eqb_eq in Er as ->.
      apply matchTrailer_suffix in Em as [pre ->].
      by rewrite lastChar_append.
    + by eapply Hskip.
  - by eapply Hskip.
Qed.

Lemma lazyContent_Some {A} (tail : string -> option A) (s c : string) (a : A) :
  lazyContent tail s = Some (c, a) ->
  exists r, s = c +:+ r /\ tail r = Some a.
Proof.
  revert c. induction s as [|x s IH]; intros c; simpl.
  - destruct (tail EmptyString) eqn:E; [|done].
    intros [= <- <-]. by exists EmptyString.
  - destruct (tail (String x s)) eqn:E.
    + intros [= <- <-]. by exists (String x s).
    + destruct (lazyContent tail s) as [[c' a']|] eqn:El; [|done].
      intros [= <- <-]. destruct (IH _ eq_refl) as (r & -> & Hr).
      by exists r.
Qed.

Lemma lazyContent_here {A} (tail : string -> option A) (s : string) (a : A) :
  tail s = Some a -> lazyContent tail s = Some (EmptyString, a).
Proof. intros H. destruct s; simpl; by rewrite H. Qed.

Lemma lazyContent_skip {A} (tail : string -> option A) (c : ascii) (r : string) :
  tail (String c r) = None ->
  lazyContent tail (String c r)
  = match lazyContent tail r with
    | Some (content, a) => Some (String c content, a)
    | None => None
    end.
Proof. intros H. simpl. by rewrite H. Qed.

Lemma execAnchored_last (text m1 : string) (caps : option (string * string)) :
  execAnchored text = Some (m1, caps) -> lastChar text = Some backtick.
Proof.
  unfold execAnchored.
  destruct (stripPrefix header text) as [body|] eqn:E; [|done].
  intros (r & -> & Hr%tailAnchored_last)%lazyContent_Some.
  apply stripPrefix_Some in E as ->.
  by rewrite !lastChar_append, Hr.
Qed.

(** The encoding ends in two newlines, which the anchored expression of
    [decodeThinkingBlock] does not accept. *)
Lemma decode_encode_none (t : string) (sig : option string) :
  decodeThinkingBlock (encodeThinkingBlock t sig) = None.
Proof.
  unfold decodeThinkingBlock.
  destruct (execAnchored _) as [[m1 caps]|] eqn:E; [|done].
  apply execAnchored_last in E. unfold encodeThinkingBlock in E.
  rewrite !lastChar_append in E. simpl in E. done.
Qed.

End MatcherFacts.

(** ** The loop of [parseThinkingFromText] *)

Section ParseFacts.

Lemma tailOpen_shorter (s rest : string) :
  tailOpen s = Some rest -> String.length rest < String.length s.
Proof.
  assert (forall x, stripPrefix fence s = Some x ->
                    String.length x < String.length s) as Hf.
  { intros x ->%stripPrefix_Some. rewrite length_append.
    vm_compute (String.length fence). lia. }
  unfold tailOpen.
  destruct (matchTrailer s) as [[[g k] r]|] eqn:Em; [|by apply Hf].
  destruct (stripPrefix fence r) as [x|] eqn:Er; [|by apply Hf].
  intros [= <-]. apply matchTrailer_suffix in Em as [pre ->].
  apply stripPrefix_Some in Er as ->. rewrite !length_append.
  vm_compute (String.length fence). lia.
Qed.

Lemma matchHere_shorter (s m rest : string) :
  matchHere s = Some (m, rest) -> String.length rest < String.length s.
Proof.
  unfold matchHere.
  destruct (stripPrefix header s) as [body|] eqn:E; [|done].
  destruct (lazyContent tailOpen body) as [[c r]|] eqn:El; [|done].
  intros [= _ <-].
  apply lazyContent_Some in El as (x & -> & Hx%tailOpen_shorter).
  apply stripPrefix_Some in E as ->. rewrite !length_append. lia.
Qed.

Lemma exec_shorter (s before m rest : string) :
  exec s = Some (before, m, rest) -> String.length rest < String.length s.
Proof.
  revert before m. induction s as [|c s IH]; intros before m; simpl.
  - done.
  - destruct (matchHere (String c s)) as [[m' r]|] eqn:E.
    + intros [= _ _ <-]. by apply matchHere_shorter in E.
    + destruct (exec s) as [[[b m'] r]|] eqn:Ex; [|done].
      intros [= _ _ <-]. specialize (IH _ _ eq_refl). lia.
Qed.

Lemma exec_here (s m rest : string) :
  matchHere s = Some (m, rest) -> exec s = Some (EmptyString, m, rest).
Proof.
  intros H. destruct s; [by vm_compute in H |]. cbn [exec]. by rewrite H.
Qed.

(** The loop ends before its fuel does. *)
Lemma loop_total (fuel : nat) (s : string) (blocks : list InternalContentBlock) :
  String.length s < fuel -> exists r, loop fuel s blocks = Some r.
Proof.
  revert s blocks. induction fuel as [|fuel IH]; intros s blocks H; [lia |].
  simpl. destruct (exec s) as [[[before m] rest]|] eqn:E; [|eauto].
  apply IH. apply exec_shorter in E. lia.
Qed.

Lemma parseThinkingFromText_total (text : string) :
  exists r, loop (S (String.length text)) text [] = Some r.
Proof. apply loop_total. lia. Qed.

End ParseFacts.

(** ** Decoding an envelope *)

Section RoundTrip.

Variables (s crc : string).
Hypothesis s_ok : allChars notCommaBracket s = true.
Hypothesis s_truthy : truthy s = true.
Hypothesis crc_ok : allChars notBracket crc = true.
Hypothesis crc_truthy : truthy crc = true.

Lemma matchTrailer_exact (rest : string) :
  matchTrailer (sigOpen +:+ s +:+ crcOpen +:+ crc +:+ "]" +:+ rest)
  = Some (s, crc, rest).
Proof using s_ok s_truthy crc_ok crc_truthy.
  unfold matchTrailer. rewrite stripPrefix_append.
  rewrite (span_append notCommaBracket s) by done.
  destruct s; [done |]. cbn [isEmpty]. rewrite stripPrefix_append.
  rewrite (span_append notBracket crc) by done.
  destruct crc; [done |]. cbn [isEmpty]. by rewrite stripPrefix_append.
Qed.

(** The trailer marker does not begin inside [e] and run on into a
    text that itself begins with the marker. *)
Lemma sigOpen_overlap (e y : string) :
  isEmpty e = false -> startsWith sigOpen e = false ->
  stripPrefix sigOpen (e +:+ sigOpen +:+ y) = None.
Proof.
  intros He Hs.
  destruct (stripPrefix sigOpen (e +:+ sigOpen +:+ y)) as [r|] eqn:E;
    [|done].
  exfalso. apply stripPrefix_split in E as [[r' Hr]|[p2 [Hp Hp2]]].
  - unfold startsWith in Hs. by rewrite Hr in Hs.
  - destruct e as [|c e]; [done |].
    destruct p2 as [|a p2].
    + rewrite append_nil_r in Hp. unfold startsWith in Hs.
      rewrite <- Hp in Hs.
      by rewrite <- (append_nil_r sigOpen), stripPrefix_append in Hs.
    + change (sigOpen +:+ y) with (String "010"%char ("[SIG=" +:+ y)) in Hp2.
      simpl in Hp2. destruct (Ascii.eqb a "010"%char) eqn:Ea; [|done].
      apply Ascii.eqb_eq in Ea as ->.
      injection Hp as _ Hp.
      apply (f_equal (allChars (fun x => negb (Ascii.eqb x "010"%char)))) in Hp.
      rewrite allChars_append in Hp. simpl in Hp.
      by rewrite andb_false_r in Hp.
Qed.

Lemma lazyContent_found (e : string) :
  includes sigOpen e = false ->
  lazyContent tailAnchored
    (e +:+ sigOpen +:+ s +:+ crcOpen +:+ crc +:+ "]" +:+ fence)
  = Some (e, Some (s, crc)).
Proof using s_ok s_truthy crc_ok crc_truthy.
  induction e as [|c e IH]; intros Hi.
  - cbn [String.append].
    assert (tailAnchored (sigOpen +:+ s +:+ crcOpen +:+ crc +:+ "]" +:+ fence)
            = Some (Some (s, crc))) as Ht.
    { unfold tailAnchored. rewrite matchTrailer_exact.
      by rewrite String.eqb_refl. }
    by apply lazyContent_here.
  - apply includes_cons in Hi as [Hs Hi]. specialize (IH Hi).
    pose proof (sigOpen_overlap (String c e)
                  (s +:+ crcOpen +:+ crc +:+ "]" +:+ fence) eq_refl Hs) as Ho.
    set (X := sigOpen +:+ s +:+ crcOpen +:+ crc +:+ "]" +:+ fence) in *.
    assert (tailAnchored (String c (e +:+ X)) = None) as Ht.
    { unfold tailAnchored, matchTrailer.
      change (String c (e +:+ X)) with (String c e +:+ X). rewrite Ho.
      destruct (String.eqb _ fence) eqn:Ef; [|done].
      apply String.eqb_eq in Ef. apply (f_equal String.length) in Ef.
      unfold X in Ef. rewrite !length_append in Ef.
      vm_compute (String.length fence) in Ef.
      vm_compute (String.length sigOpen) in Ef. simpl in Ef. lia. }
    change (String c e +:+ X) with (String c (e +:+ X)).
    rewrite (lazyContent_skip tailAnchored c (e +:+ X) Ht). by rewrite IH.
Qed.

(** The closing fence does not begin inside a text that has no backtick
    right after a newline and run on into the trailer. *)
Lemma fence_overlap (e y : string) :
  isEmpty e = false -> includes (nl +:+ "`") e = false ->
  stripPrefix fence (e +:+ sigOpen +:+ y) = None.
Proof.
  intros He Hi.
  assert (forall r, e <> fence +:+ r) as Hne.
  { intros r ->. rewrite <- not_true_iff_false in Hi. apply Hi.
    apply includes_spec. by exists EmptyString, ("``" +:+ r). }
  destruct (stripPrefix fence (e +:+ sigOpen +:+ y)) as [r|] eqn:E; [|done].
  exfalso. apply stripPrefix_split in E as [[r' Hr]|[p2 [Hp Hp2]]].
  - by apply stripPrefix_Some, Hne in Hr.
  - destruct e as [|c e]; [done |].
    destruct p2 as [|a p2].
    + apply (Hne EmptyString). by rewrite append_nil_r in *.
    + change (sigOpen +:+ y) with (String "010"%char ("[SIG=" +:+ y)) in Hp2.
      simpl in Hp2. destruct (Ascii.eqb a "010"%char) eqn:Ea; [|done].
      apply Ascii.eqb_eq in Ea as ->.
      injection Hp as _ Hp.
      apply (f_equal (allChars (fun x => negb (Ascii.eqb x "010"%char)))) in Hp.
      rewrite allChars_append in Hp. simpl in Hp.
      by rewrite andb_false_r in Hp.
Qed.

Lemma lazyContent_open_found (e rest : string) :
  includes sigOpen e = false -> includes (nl +:+ "`") e = false ->
  lazyContent tailOpen
    (e +:+ sigOpen +:+ s +:+ crcOpen +:+ crc +:+ "]" +:+ fence +:+ rest)
  = Some (e, rest).
Proof using s_ok s_truthy crc_ok crc_truthy.
  induction e as [|c e IH]; intros Hi Hb.
  - change (lazyContent tailOpen
              (sigOpen +:+ s +:+ crcOpen +:+ crc +:+ "]" +:+ fence +:+ rest)
            = Some (EmptyString, rest)).
    apply lazyContent_here. unfold tailOpen.
    rewrite matchTrailer_exact. by rewrite stripPrefix_append.
  - pose proof (fence_overlap (String c e)
                  (s +:+ crcOpen +:+ crc +:+ "]" +:+ fence +:+ rest)
                  eq_refl Hb) as Hf.
    apply includes_cons in Hi as [Hs Hi]. apply includes_cons in Hb as [_ Hb].
    specialize (IH Hi Hb).
    pose proof (sigOpen_overlap (String c e)
                  (s +:+ crcOpen +:+ crc +:+ "]" +:+ fence +:+ rest)
                  eq_refl Hs) as Ho.
    set (X := sigOpen +:+ s +:+ crcOpen +:+ crc +:+ "]" +:+ fence +:+ rest) in *.
    assert (tailOpen (String c (e +:+ X)) = None) as Ht.
    { unfold tailOpen, matchTrailer.
      change (String c (e +:+ X)) with (String c e +:+ X). by rewrite Ho, Hf. }
    change (String c e +:+ X) with (String c (e +:+ X)).
    rewrite (lazyContent_skip tailOpen c (e +:+ X) Ht). by rewrite IH.
Qed.

End RoundTrip.

(** ** The envelope of a signed block *)

Section Envelope.

Variables (t s : string).
Hypothesis t_truthy : t <> EmptyString.
Hypothesis t_trimmed : trim t = t.
Hypothesis t_unmarked : includes sigOpen t = false.
Hypothesis s_truthy : s <> EmptyString.
Hypothesis s_ok : allChars notCommaBracket s = true.

Let esc := escapeBackticks t.
Let env :=
  header +:+ esc +:+ sigOpen +:+ s +:+ crcOpen +:+ calculateCrc32 esc
  +:+ "]" +:+ fence.

Lemma encode_signed : encodeThinkingBlock t (Some s) = env +:+ nl +:+ nl.
Proof using s_truthy.
  unfold encodeThinkingBlock, env, esc.
  assert (truthy s = true) as -> by (clear -s_truthy; by destruct s).
  by rewrite !append_assoc.
Qed.

Lemma decode_envelope : decodeThinkingBlock env = Some (mkDecoded t s).
Proof.
  assert (truthy s = true) as Hs' by (by destruct s).
  unfold decodeThinkingBlock, execAnchored, env.
  rewrite stripPrefix_append.
  rewrite lazyContent_found;
    [| done | done | apply calculateCrc32_notBracket
     | apply calculateCrc32_truthy
     | apply includes_escape; [done | done | done] ].
  assert (trim esc = esc) as -> by (by apply trim_escape).
  simpl.
  assert (truthy esc = true) as ->.
  { unfold truthy, esc. rewrite escape_empty. by destruct t. }
  rewrite Hs'.
  assert (truthy (calculateCrc32 esc) = true) as ->
    by apply calculateCrc32_truthy.
  rewrite String.eqb_refl. simpl. unfold esc. by rewrite unescape_escape.
Qed.

Lemma matchHere_envelope (rest : string) :
  matchHere (env +:+ rest) = Some (env, rest).
Proof.
  assert (truthy s = true) as Hs' by (by destruct s).
  unfold matchHere.
  assert (env +:+ rest
          = header +:+ esc +:+ sigOpen +:+ s +:+ crcOpen
            +:+ calculateCrc32 esc +:+ "]" +:+ fence +:+ rest) as Hshape
    by (unfold env; by rewrite !append_assoc).
  rewrite Hshape at 1. rewrite stripPrefix_append.
  rewrite lazyContent_open_found;
    [| done | done | apply calculateCrc32_notBracket
     | apply calculateCrc32_truthy
     | apply includes_escape; [done | done | done]
     | apply escape_no_fence ].
  f_equal. f_equal.
  rewrite length_append, Nat.add_sub. apply substring_prefix.
Qed.

(** Read back from message text, the encoding is the thinking block. *)
Lemma parse_encode :
  parseThinkingFromText (encodeThinkingBlock t (Some s))
  = [ThinkingBlock t (Some s)].
Proof.
  unfold parseThinkingFromText. rewrite encode_signed.
  cbn [loop]. rewrite (exec_here _ _ _ (matchHere_envelope (nl +:+ nl))).
  rewrite decode_envelope. cbn [pushText trim trimStart trimEnd truthy isEmpty negb app thinking signature].
  destruct (String.length (env +:+ nl +:+ nl)) as [|n] eqn:El.
  { unfold env in El. rewrite !length_append in El.
    vm_compute (String.length header) in El. lia. }
  done.
Qed.

End Envelope.

(** ** The codec: round trip *)

(** C2, as stated, at ["because X"] signed ["abc"]: the decoder returns
    nothing on the encoder's output. *)
Lemma decode_encode_counterexample :
  decodeThinkingBlock (encodeThinkingBlock "because X" (Some "abc"))
  <> Some (mkDecoded "because X" "abc").
Proof. by vm_compute. Qed.

(** C2, amended.  Take a reasoning text [t] that is not empty, has no
    white space at either end and does not contain the trailer marker (a
    newline followed by [[SIG=]), and a signature [s] that is not empty and
    holds neither a comma nor a closing bracket.  The encoding of [t] with
    [s] is an envelope [e] followed by two newlines; decoding [e], which is
    what [parseThinkingFromText] hands to the decoder, returns [t] and [s],
    and decoding the whole encoding returns nothing. *)
Theorem decode_envelope_roundtrip (t s e : string) :
  t <> EmptyString -> trim t = t -> includes sigOpen t = false ->
  s <> EmptyString -> allChars notCommaBracket s = true ->
  encodeThinkingBlock t (Some s) = e +:+ nl +:+ nl ->
  decodeThinkingBlock e = Some (mkDecoded t s)
  /\ decodeThinkingBlock (encodeThinkingBlock t (Some s)) = None.
Proof.
  intros Ht Htrim Hmark Hs Hsig He.
  split; [|apply decode_encode_none].
  rewrite (encode_signed t s Hs) in He.
  apply append_inv_tail in He as <-. by apply decode_envelope.
Qed.

Lemma decode_envelope_roundtrip_witness :
  decodeThinkingBlock Samples.envelope = Some (mkDecoded "because X" "abc")
  /\ decodeThinkingBlock (encodeThinkingBlock "because X" (Some "abc")) = None.
Proof.
  apply (decode_envelope_roundtrip "because X" "abc" Samples.envelope);
    solve [ discriminate | reflexivity ].
Defined.

(** None of the conditions on the text and the signature can simply be
    dropped: the envelope does not decode when the text starts with a
    space, is empty or ends in an unfinished trailer, nor when the
    signature is empty or holds a comma or a bracket. *)
Example envelope_conditions_needed :
  Forall (fun ts => decodeThinkingBlock
                      (Samples.dropFraming
                         (encodeThinkingBlock ts.1 (Some ts.2))) = None)
    [ (" a", "abc"); (EmptyString, "abc"); ("x" +:+ nl +:+ "[SIG=a", "abc");
      ("a", EmptyString); ("a", "a,b"); ("a", "a]b") ].
Proof. repeat constructor. Qed.

(** ** The codec: blocks without signature *)

Section Unsigned.

(** The trailer marker does not begin inside a text and run on into the
    closing fence. *)
Lemma sigOpen_fence_overlap (e : string) :
  isEmpty e = false -> startsWith sigOpen e = false ->
  stripPrefix sigOpen (e +:+ fence) = None.
Proof.
  intros He Hs.
  destruct (stripPrefix sigOpen (e +:+ fence)) as [r|] eqn:E; [|done].
  exfalso. apply stripPrefix_split in E as [[r' Hr]|[p2 [Hp Hp2]]].
  - unfold startsWith in Hs. by rewrite Hr in Hs.
  - destruct e as [|c e]; [done |].
    destruct p2 as [|a p2].
    + rewrite append_nil_r in Hp. unfold startsWith in Hs.
      rewrite <- Hp in Hs.
      by rewrite <- (append_nil_r sigOpen), stripPrefix_append in Hs.
    + change fence with (String "010"%char "```") in Hp2.
      simpl in Hp2. destruct (Ascii.eqb a "010"%char) eqn:Ea; [|done].
      apply Ascii.eqb_eq in Ea as ->.
      injection Hp as _ Hp.
      apply (f_equal (allChars (fun x => negb (Ascii.eqb x "010"%char)))) in Hp.
      rewrite allChars_append in Hp. simpl in Hp.
      by rewrite andb_false_r in Hp.
Qed.

(** On a content without trailer marker followed by the closing fence,
    the expression matches at the end only, and its trailer group takes
    no part in the match. *)
Lemma lazyContent_unsigned (e : string) :
  includes sigOpen e = false ->
  lazyContent tailAnchored (e +:+ fence) = Some (e, None).
Proof.
  induction e as [|c e IH]; intros Hi.
  - by vm_compute.
  - apply includes_cons in Hi as [Hs Hi]. specialize (IH Hi).
    pose proof (sigOpen_fence_overlap (String c e) eq_refl Hs) as Ho.
    assert (tailAnchored (String c (e +:+ fence)) = None) as Ht.
    { unfold tailAnchored, matchTrailer.
      change (String c (e +:+ fence)) with (String c e +:+ fence). rewrite Ho.
      destruct (String.eqb _ fence) eqn:Ef; [|done].
      apply String.eqb_eq in Ef. apply (f_equal String.length) in Ef.
      rewrite length_append in Ef. simpl in Ef. lia. }
    change (String c e +:+ fence) with (String c (e +:+ fence)).
    rewrite (lazyContent_skip tailAnchored c (e +:+ fence) Ht). by rewrite IH.
Qed.

Lemma encode_unsigned (t : string) :
  encodeThinkingBlock t None
  = (header +:+ escapeBackticks t +:+ fence) +:+ nl +:+ nl.
Proof.
  unfold encodeThinkingBlock. cbn [String.append].
  by rewrite !append_assoc.
Qed.

End Unsigned.

(** C3, as stated, at a reasoning text whose last line has the shape of
    a trailer: encoded without a signature, the envelope that reaches
    the decoder is decoded, as a block signed ["a"], and read back from
    message text the encoding is that signed block. *)
Lemma unsigned_decoded_counterexample :
  decodeThinkingBlock
    (Samples.dropFraming (encodeThinkingBlock Samples.forged None))
  = Some (mkDecoded "x" "a")
  /\ decodeThinkingBlock
       (Samples.dropFraming (encodeThinkingBlock Samples.forged None))
     <> None
  /\ parseThinkingFromText (encodeThinkingBlock Samples.forged None)
     = [ThinkingBlock "x" (Some "a")].
Proof. split; [by vm_compute | split; [by vm_compute | by vm_compute]]. Qed.

(** C3, amended.  Take a reasoning text [t] that does not contain the
    trailer marker (a newline followed by [[SIG=]).  Its encoding without
    a signature is an envelope [e] followed by two newlines.  On [e],
    which is what [parseThinkingFromText] hands to the decoder, the
    expression matches with the escaped text as its content and without
    its trailer group, so that signature and checksum are missing and
    the decoder returns nothing; decoding the whole encoding returns
    nothing either. *)
Theorem decode_unsigned_none (t e : string) :
  includes sigOpen t = false ->
  encodeThinkingBlock t None = e +:+ nl +:+ nl ->
  execAnchored e = Some (escapeBackticks t, None)
  /\ decodeThinkingBlock e = None
  /\ decodeThinkingBlock (encodeThinkingBlock t None) = None.
Proof.
  intros Hmark He.
  rewrite encode_unsigned in He. apply append_inv_tail in He as <-.
  assert (execAnchored (header +:+ escapeBackticks t +:+ fence)
          = Some (escapeBackticks t, None)) as Hx.
  { unfold execAnchored. rewrite stripPrefix_append.
    apply lazyContent_unsigned. by apply includes_escape. }
  split; [exact Hx | split; [|apply decode_encode_none]].
  unfold decodeThinkingBlock. rewrite Hx. cbn [fmap option_fmap option_map truthyOpt].
  by rewrite orb_true_r.
Qed.

Lemma decode_unsigned_none_witness :
  execAnchored
    (Samples.dropFraming (encodeThinkingBlock "because X" None))
  = Some (escapeBackticks "because X", None)
  /\ decodeThinkingBlock
       (Samples.dropFraming (encodeThinkingBlock "because X" None)) = None
  /\ decodeThinkingBlock (encodeThinkingBlock "because X" None) = None.
Proof.
  apply (decode_unsigned_none "because X"
           (Samples.dropFraming (encodeThinkingBlock "because X" None)));
    reflexivity.
Defined.

(** ** The thinking-consistency filter *)

Section FilterFacts.

Lemma toolUseIds_spec (content : list InternalContentBlock) (id : string) :
  id ∈ toolUseIds content <->
  exists name input, ToolUseBlock id name input ∈ content.
Proof.
  induction content as [|b content IH]; simpl.
  - split; [set_solver |]. intros (n & i & H). by apply elem_of_nil in H.
  - assert ((exists name input, ToolUseBlock id name input ∈ b :: content)
            <-> (exists name input, b = ToolUseBlock id name input)
                \/ id ∈ toolUseIds content) as ->.
    { rewrite IH. split.
      - intros (n & i & [<-|H]%elem_of_cons); eauto.
      - intros [(n & i & ->)|(n & i & H)];
          exists n, i; set_solver. }
    destruct b; try (split; [by right | intros [(? & ? & ?)|?]; done]).
    rewrite elem_of_union, elem_of_singleton. split.
    + intros [->|?]; eauto.
    + intros [(n & i & [= -> _ _])|?]; auto.
Qed.

Lemma firstPass_kept (msgs : list InternalMessage) (m : InternalMessage) :
  m ∈ (firstPass msgs).2 <-> m ∈ msgs /\ lacksThinking m = false.
Proof.
  induction msgs as [|x msgs IH]; simpl.
  - split; [intros H | intros [H _]]; by apply elem_of_nil in H.
  - destruct (firstPass msgs) as [ids kept]. simpl in IH.
    destruct (lacksThinking x) eqn:E; simpl.
    + rewrite IH, elem_of_cons. split; [naive_solver |].
      intros [[->|?] ?]; [congruence | done].
    + rewrite !elem_of_cons, IH. naive_solver.
Qed.

Lemma firstPass_removed (msgs : list InternalMessage) (id : string) :
  id ∈ (firstPass msgs).1 <->
  exists a, a ∈ msgs /\ lacksThinking a = true
            /\ id ∈ toolUseIds (content a).
Proof.
  induction msgs as [|x msgs IH]; simpl.
  - split; [set_solver |]. intros (a & H & _). by apply elem_of_nil in H.
  - destruct (firstPass msgs) as [ids kept]. simpl in IH.
    destruct (lacksThinking x) eqn:E; simpl.
    + rewrite elem_of_union, IH. split.
      * intros [?|(a & ? & ? & ?)]; [exists x | exists a]; set_solver.
      * intros (a & [->|?]%elem_of_cons & ? & ?); [by left |].
        right. by exists a.
    + rewrite IH. split.
      * intros (a & ? & ? & ?). exists a. set_solver.
      * intros (a & [->|?]%elem_of_cons & ? & ?); [congruence |].
        by exists a.
Qed.

(** What the second pass returns for a message, by its role. *)
Lemma dropOrphans_assistant ids (m : InternalMessage) :
  role m = Assistant -> dropOrphans ids m = Some m.
Proof. unfold dropOrphans, isRole. by intros ->. Qed.

Lemma dropOrphans_role ids (m m' : InternalMessage) :
  dropOrphans ids m = Some m' -> role m' = role m.
Proof.
  unfold dropOrphans, isRole. destruct m as [[] c]; simpl.
  - destruct (List.filter (keepBlock ids) c); [done |]. by intros [= <-].
  - by intros [= <-].
Qed.

Lemma dropOrphans_user ids (m m' : InternalMessage) :
  role m = User -> dropOrphans ids m = Some m' ->
  content m' = List.filter (keepBlock ids) (content m) /\ content m' <> [].
Proof.
  unfold dropOrphans, isRole. destruct m as [r c]; simpl. intros ->.
  destruct (List.filter (keepBlock ids) c) eqn:E; [done |].
  by intros [= <-].
Qed.

Lemma lacksThinking_false (m : InternalMessage) :
  role m = Assistant ->
  lacksThinking m = false <-> existsb isThinking (content m) = true.
Proof.
  unfold lacksThinking, isRole. intros ->. simpl.
  by rewrite negb_false_iff.
Qed.

(** An assistant message of the output is a message of the input that
    has a thinking block. *)
Lemma filter_assistant (msgs : list InternalMessage) (m : InternalMessage) :
  m ∈ filterMessagesWithoutThinking msgs true -> role m = Assistant ->
  m ∈ msgs /\ existsb isThinking (content m) = true.
Proof.
  unfold filterMessagesWithoutThinking. simpl.
  pose proof (firstPass_kept msgs) as Hk.
  destruct (firstPass msgs) as [ids kept]. simpl in Hk.
  intros Hm Hr.
  assert (m ∈ kept) as [? ?]%Hk.
  { case_bool_decide; [|done].
    apply list_elem_of_omap in Hm as (x & Hx & Hd).
    pose proof (dropOrphans_role _ _ _ Hd) as Hrole.
    rewrite dropOrphans_assistant in Hd by congruence.
    by injection Hd as <-. }
  split; [done |]. by apply lacksThinking_false.
Qed.

(** An assistant message with a thinking block goes through. *)
Lemma filter_keeps (msgs : list InternalMessage) (enable : bool)
  (m : InternalMessage) :
  m ∈ msgs -> role m = Assistant ->
  existsb isThinking (content m) = true ->
  m ∈ filterMessagesWithoutThinking msgs enable.
Proof.
  intros Hm Hr Ht. unfold filterMessagesWithoutThinking.
  destruct enable; simpl; [|done].
  pose proof (firstPass_kept msgs m) as Hk.
  destruct (firstPass msgs) as [ids kept]. simpl in Hk.
  assert (m ∈ kept) as Hin.
  { apply Hk. split; [done |]. by apply lacksThinking_false. }
  case_bool_decide; [|done].
  apply list_elem_of_omap. exists m. split; [done |].
  by apply dropOrphans_assistant.
Qed.

Lemma filter_nonempty (msgs : list InternalMessage) (enable : bool) :
  (forall m, m ∈ msgs -> content m <> []) ->
  forall m, m ∈ filterMessagesWithoutThinking msgs enable ->
            content m <> [].
Proof.
  intros Hall m. unfold filterMessagesWithoutThinking.
  destruct enable; simpl; [|apply Hall].
  pose proof (firstPass_kept msgs) as Hk.
  destruct (firstPass msgs) as [ids kept]. simpl in Hk.
  case_bool_decide.
  - intros (x & [Hx _]%Hk & Hd)%list_elem_of_omap.
    destruct (role x) eqn:Hr.
    + by apply (dropOrphans_user _ _ _ Hr) in Hd as [_ ?].
    + rewrite dropOrphans_assistant in Hd by done.
      injection Hd as <-. by apply Hall.
  - intros [? _]%Hk. by apply Hall.
Qed.

Lemma filter_resolved (msgs : list InternalMessage) (enable : bool) :
  userResultsResolved msgs ->
  userResultsResolved (filterMessagesWithoutThinking msgs enable).
Proof.
  intros Hall. unfold filterMessagesWithoutThinking.
  destruct enable; simpl; [|done].
  pose proof (firstPass_kept msgs) as Hk.
  pose proof (firstPass_removed msgs) as Hrm.
  destruct (firstPass msgs) as [ids kept]. simpl in Hk, Hrm.
  (* a result whose id was not recorded is answered by a kept turn *)
  assert (forall m id c,
            m ∈ msgs -> role m = User -> ToolResultBlock id c ∈ content m ->
            id ∉ ids ->
            exists a name input,
              a ∈ kept /\ role a = Assistant
              /\ ToolUseBlock id name input ∈ content a) as Hkept.
  { intros m id c Hm Hr Hb Hid.
    destruct (Hall m id c Hm Hr Hb) as (a & n & i & Ha & Hra & Hu).
    exists a, n, i. split; [|done]. apply Hk. split; [done |].
    destruct (lacksThinking a) eqn:El; [|done].
    exfalso. apply Hid, Hrm. exists a. split; [done |]. split; [done |].
    apply toolUseIds_spec. eauto. }
  case_bool_decide as Hne.
  - intros m' id c (m & [Hm _]%Hk & Hd)%list_elem_of_omap Hr Hb.
    pose proof (dropOrphans_role _ _ _ Hd) as Hrole.
    assert (role m = User) as Hru by congruence.
    destruct (dropOrphans_user _ _ _ Hru Hd) as [Hc _].
    rewrite Hc in Hb. apply list_elem_of_In, filter_In in Hb as [Hb Hkeep].
    apply list_elem_of_In in Hb. simpl in Hkeep.
    apply negb_true_iff, bool_decide_eq_false in Hkeep.
    destruct (Hkept m id c Hm Hru Hb Hkeep) as (a & n & i & Ha & Hra & Hu).
    exists a, n, i. split; [|done].
    apply list_elem_of_omap. exists a. split; [done |].
    by apply dropOrphans_assistant.
  - intros m id c [Hm _]%Hk Hr Hb.
    apply (Hkept m id c Hm Hr Hb).
    assert (ids = ∅) as -> by (by destruct (decide (ids = ∅))).
    set_solver.
Qed.

End FilterFacts.

(** ** The loops of the two normalisers *)

Section LoopFacts.

Lemma addSystem_out (st : LoopState) (text : string) :
  out (addSystem st text) = out st.
Proof.
  unfold addSystem. destruct (systemPrompt st) as [s|]; [|done].
  by destruct (truthy s).
Qed.

Lemma pushMessage_out (st : LoopState) (r : Role)
  (c : list InternalContentBlock) :
  out (pushMessage st r c)
  = out st ++ match c with [] => [] | _ => [mkMessage r c] end.
Proof. destruct c; simpl; [by rewrite app_nil_r | done]. Qed.

Lemma pushMessage_nonEmpty (st : LoopState) (r : Role)
  (c : list InternalContentBlock) :
  nonEmptyOut st -> nonEmptyOut (pushMessage st r c).
Proof.
  intros H m. rewrite pushMessage_out. intros [?|Hm]%elem_of_app; [auto |].
  destruct c; [by apply elem_of_nil in Hm |].
  by apply list_elem_of_singleton in Hm as ->.
Qed.

Lemma pushMessage_mono (st : LoopState) (r : Role)
  (c : list InternalContentBlock) (m : InternalMessage) :
  m ∈ out st -> m ∈ out (pushMessage st r c).
Proof. rewrite pushMessage_out. set_solver. Qed.

(** *** [anthropicToInternal] *)

Lemma anthropic_step_nonEmpty (st : LoopState) (msg : Anthropic.Message) :
  nonEmptyOut st -> nonEmptyOut (Anthropic.step st msg).
Proof.
  intros H. unfold Anthropic.step. destruct (Anthropic.role msg).
  - by apply pushMessage_nonEmpty.
  - by apply pushMessage_nonEmpty.
  - intros m. rewrite addSystem_out. apply H.
Qed.

Lemma anthropic_step_mono (st : LoopState) (msg : Anthropic.Message)
  (m : InternalMessage) :
  m ∈ out st -> m ∈ out (Anthropic.step st msg).
Proof.
  intros H. unfold Anthropic.step. destruct (Anthropic.role msg).
  - by apply pushMessage_mono.
  - by apply pushMessage_mono.
  - by rewrite addSystem_out.
Qed.

Lemma anthropic_loop_nonEmpty (msgs : list Anthropic.Message) (st : LoopState) :
  nonEmptyOut st -> nonEmptyOut (fold_left Anthropic.step msgs st).
Proof.
  revert st. induction msgs as [|msg msgs IH]; intros st H; simpl; [done |].
  by apply IH, anthropic_step_nonEmpty.
Qed.

Lemma anthropic_loop_mono (msgs : list Anthropic.Message) (st : LoopState)
  (m : InternalMessage) :
  m ∈ out st -> m ∈ out (fold_left Anthropic.step msgs st).
Proof.
  revert st. induction msgs as [|msg msgs IH]; intros st H; simpl; [done |].
  by apply IH, anthropic_step_mono.
Qed.

(** An assistant message whose blocks are not all skipped is pushed. *)
Lemma anthropic_loop_pushes (msgs : list Anthropic.Message) (st : LoopState)
  (msg : Anthropic.Message) :
  msg ∈ msgs -> Anthropic.role msg = Anthropic.RoleAssistant ->
  Anthropic.assistantContent (Anthropic.content msg) <> [] ->
  mkMessage Assistant (Anthropic.assistantContent (Anthropic.content msg))
  ∈ out (fold_left Anthropic.step msgs st).
Proof.
  intros Hin Hr Hc. revert st.
  induction msgs as [|x msgs IH]; intros st; [by apply elem_of_nil in Hin |].
  simpl. apply elem_of_cons in Hin as [<-|Hin]; [|by apply IH].
  apply anthropic_loop_mono. unfold Anthropic.step. rewrite Hr.
  rewrite pushMessage_out.
  destruct (Anthropic.assistantContent _); [done | set_solver].
Qed.

(** *** [openaiToInternal] *)

Variable JSON_parse : string -> option JsonValue.

Lemma openai_step_nonEmpty (st st' : LoopState) (msg : OpenAI.Message) :
  OpenAI.step JSON_parse st msg = Ok st' ->
  nonEmptyOut st -> nonEmptyOut st'.
Proof.
  unfold OpenAI.step. intros Hs H. destruct (OpenAI.role msg).
  - injection Hs as <-. by apply pushMessage_nonEmpty.
  - destruct (OpenAI.assistantContent JSON_parse msg) as [c|e]; [|done].
    injection Hs as <-. by apply pushMessage_nonEmpty.
  - injection Hs as <-. intros m. rewrite addSystem_out. apply H.
  - destruct (OpenAI.tool_call_id msg) as [i|]; [|by injection Hs as <-].
    destruct (truthy i); [|by injection Hs as <-].
    injection Hs as <-. simpl. intros m [?|Hm]%elem_of_app; [auto |].
    by apply list_elem_of_singleton in Hm as ->.
Qed.

Lemma openai_run_nonEmpty (msgs : list OpenAI.Message) (st st' : LoopState) :
  OpenAI.run JSON_parse msgs st = Ok st' ->
  nonEmptyOut st -> nonEmptyOut st'.
Proof.
  revert st. induction msgs as [|msg msgs IH]; intros st; simpl.
  - by intros [= <-].
  - destruct (OpenAI.step JSON_parse st msg) as [st1|e] eqn:E; [|done].
    simpl. intros Hr H. apply (IH _ Hr).
    by apply (openai_step_nonEmpty _ _ _ E).
Qed.


Lemma toolUseBlocks_returns (calls : list OpenAI.ToolCall) :
  (forall call, call ∈ calls ->
                is_Some (JSON_parse (OpenAI.argumentText call))) ->
  exists blocks, OpenAI.toolUseBlocks JSON_parse calls = Ok blocks.
Proof.
  induction calls as [|c calls IH]; intros H; simpl; [eauto |].
  unfold OpenAI.parseArguments.
  destruct (H c) as [v ->]; [set_solver |]. simpl.
  destruct IH as [blocks ->]; [set_solver |]. simpl. eauto.
Qed.


Lemma openai_run_returns (msgs : list OpenAI.Message) (st : LoopState) :
  (forall msg calls call,
      msg ∈ msgs -> OpenAI.role msg = OpenAI.RoleAssistant ->
      OpenAI.tool_calls msg = Some calls -> call ∈ calls ->
      is_Some (JSON_parse (OpenAI.argumentText call))) ->
  exists st', OpenAI.run JSON_parse msgs st = Ok st'.
Proof.
  revert st. induction msgs as [|x msgs IH]; intros st H; simpl; [eauto |].
  assert (exists st1, OpenAI.step JSON_parse st x = Ok st1) as [st1 ->].
  { unfold OpenAI.step. destruct (OpenAI.role x) eqn:Hr; eauto.
    - unfold OpenAI.assistantContent.
      destruct (OpenAI.tool_calls x) as [calls|] eqn:Hc; simpl; [|eauto].
      destruct (toolUseBlocks_returns calls) as [blocks ->]; simpl; [|eauto].
      intros call Hcall. apply (H x calls call); [set_solver | done..].
    - destruct (OpenAI.tool_call_id x) as [i|]; [|eauto].
      destruct (truthy i); eauto. }
  simpl. apply IH. intros msg calls call Hm. apply H. set_solver.
Qed.

End LoopFacts.

(** ** The filter and the two normalisers *)

Lemma sample_messages :
  messages (Anthropic.anthropicToInternal Samples.anthropicRequest)
  = [ mkMessage User [TextBlock "hi"]; Samples.answer;
      mkMessage User [ToolResultBlock "t1" "found"] ].
Proof. by vm_compute. Qed.

Lemma sample_answer_returned :
  Samples.answer ∈ messages (Anthropic.anthropicToInternal Samples.anthropicRequest).
Proof. rewrite sample_messages. set_solver. Qed.

Lemma sample_openai_answer_returned :
  exists r,
    OpenAI.openaiToInternal Samples.parseEmptyObject Samples.openaiRequest = Ok r
    /\ Samples.openaiAnswer ∈ messages r.
Proof.
  eexists. split; [by vm_compute |]. simpl.
  apply list_elem_of_further, list_elem_of_here.
Qed.

(** On the OpenAI path the tool calls of an assistant message come before
    the blocks parsed from its text, so a kept assistant turn with a tool
    call starts with a [tool_use] block. *)
Example first_block_openai :
  startsWithThinking Samples.openaiAnswer = false.
Proof. reflexivity. Qed.

(** C1, as stated, at [Samples.anthropicRequest]: reasoning is enabled and
    the assistant turn of the output starts with a text block. *)
Lemma first_block_counterexample :
  let r := Anthropic.anthropicToInternal Samples.anthropicRequest in
  maxThinkingTokens r = Some 10000%Z
  /\ Samples.answer ∈ messages r
  /\ role Samples.answer = Assistant
  /\ startsWithThinking Samples.answer = false.
Proof.
  cbv zeta. split; [by vm_compute |].
  split; [apply sample_answer_returned | done].
Qed.

(** C1, amended.  With reasoning enabled, every assistant turn that either
    normaliser returns holds a [thinking] or [redacted_thinking] block, at
    some position. *)
Theorem assistant_turns_hold_thinking :
  (forall request m,
      enableThinking (mapModelName (Anthropic.model request)) = true ->
      m ∈ messages (Anthropic.anthropicToInternal request) ->
      role m = Assistant ->
      exists b, b ∈ content m /\ isThinking b = true)
  /\ (forall JSON_parse request r m,
         enableThinking (mapModelName (OpenAI.model request)) = true ->
         OpenAI.openaiToInternal JSON_parse request = Ok r ->
         m ∈ messages r -> role m = Assistant ->
         exists b, b ∈ content m /\ isThinking b = true).
Proof.
  assert (forall msgs m,
             m ∈ filterMessagesWithoutThinking msgs true -> role m = Assistant ->
             exists b, b ∈ content m /\ isThinking b = true) as Hf.
  { intros msgs m Hm Hr. destruct (filter_assistant _ _ Hm Hr) as [_ Ht].
    apply existsb_exists in Ht as (b & Hb & Ht).
    exists b. by rewrite list_elem_of_In. }
  split.
  - intros request m He. unfold Anthropic.anthropicToInternal, buildRequest.
    simpl. rewrite He. apply Hf.
  - intros JSON_parse request r m He. unfold OpenAI.openaiToInternal.
    destruct (OpenAI.run _ _ _) as [st|e]; [|done]. simpl.
    intros [= <-]. unfold buildRequest. simpl. rewrite He. apply Hf.
Qed.

Lemma assistant_turns_hold_thinking_witness :
  (exists b, b ∈ content Samples.answer /\ isThinking b = true)
  /\ (exists b, b ∈ content Samples.openaiAnswer /\ isThinking b = true).
Proof.
  split.
  - apply (proj1 assistant_turns_hold_thinking Samples.anthropicRequest).
    + reflexivity.
    + apply sample_answer_returned.
    + reflexivity.
  - destruct sample_openai_answer_returned as (r & Hr & Hin).
    apply (proj2 assistant_turns_hold_thinking Samples.parseEmptyObject
             Samples.openaiRequest r).
    + reflexivity.
    + exact Hr.
    + exact Hin.
    + reflexivity.
Defined.

(** C4, as stated, at [Samples.late]: the result for ["t9"] stays in the
    output, and no assistant turn of the output holds a call ["t9"]. *)
Lemma dangling_result_counterexample :
  let output := filterMessagesWithoutThinking Samples.late true in
  exists m c,
    m ∈ output /\ ToolResultBlock "t9" c ∈ content m
    /\ ~ resolved output "t9".
Proof.
  cbv zeta.
  assert (filterMessagesWithoutThinking Samples.late true = Samples.late)
    as -> by (by vm_compute).
  exists (mkMessage User [ToolResultBlock "t9" "late"]), "late".
  split; [set_solver |]. split; [set_solver |].
  intros (a & n & i & Ha & Hr & _).
  apply list_elem_of_singleton in Ha as ->. done.
Qed.

(** C4, amended.  If every [tool_result] block of a user turn of the input
    references a [tool_use] id of some assistant turn of the input, then
    every [tool_result] block of a user turn of the output references a
    [tool_use] id of some assistant turn of the output. *)
Theorem filter_leaves_no_orphan (msgs : list InternalMessage) (enable : bool) :
  userResultsResolved msgs ->
  userResultsResolved (filterMessagesWithoutThinking msgs enable).
Proof. apply filter_resolved. Qed.

Lemma filter_leaves_no_orphan_witness :
  userResultsResolved Samples.twoCalls
  /\ userResultsResolved (filterMessagesWithoutThinking Samples.twoCalls true).
Proof.
  assert (userResultsResolved Samples.twoCalls) as H.
  { intros m id c Hm Hr Hb. unfold Samples.twoCalls in Hm.
    repeat (apply elem_of_cons in Hm as [->|Hm]); try done;
      [|by apply elem_of_nil in Hm].
    simpl in Hb. repeat (apply elem_of_cons in Hb as [Hb|Hb]);
      [| |by apply elem_of_nil in Hb]; injection Hb as -> _.
    - exists (mkMessage Assistant
                [ThinkingBlock "plan" (Some "sg");
                 ToolUseBlock "t1" "search" (JObject [])]),
        "search", (JObject []).
      unfold Samples.twoCalls. set_solver.
    - exists (mkMessage Assistant [ToolUseBlock "t2" "search" (JObject [])]),
        "search", (JObject []).
      unfold Samples.twoCalls. set_solver. }
  split; [exact H | exact (filter_leaves_no_orphan Samples.twoCalls true H)].
Defined.

(** ** Format detection *)

(** C5.  A request is classified as Anthropic format exactly when it has a
    [system] property, or its first tool has an [input_schema] property, or
    some message has an array content with a [tool_use] or [tool_result]
    block; otherwise it is taken for OpenAI format. *)
Theorem isAnthropicFormat_iff (request : Base.BaseRequest) :
  Base.isAnthropicFormat request = true <->
  (exists v, Base.system request = Some v)
  \/ (exists firstTool rest schema,
         Base.tools request = Some (firstTool :: rest)
         /\ Base.input_schema firstTool = Some schema)
  \/ (exists msg blocks block,
         msg ∈ Base.messages request
         /\ Base.content msg = Base.Arr blocks
         /\ block ∈ blocks
         /\ (Base.type block = "tool_use" \/ Base.type block = "tool_result")).
Proof.
  assert (existsb Base.hasToolBlock (Base.messages request) = true <->
          exists msg blocks block,
            msg ∈ Base.messages request
            /\ Base.content msg = Base.Arr blocks
            /\ block ∈ blocks
            /\ (Base.type block = "tool_use" \/ Base.type block = "tool_result"))
    as Hmsgs.
  { rewrite existsb_exists. unfold Base.hasToolBlock, Base.isToolBlock. split.
    - intros (msg & Hin & H). destruct (Base.content msg) as [| |blocks] eqn:E;
        try done.
      apply existsb_exists in H as (block & Hb & H).
      exists msg, blocks, block. rewrite !list_elem_of_In.
      apply orb_prop in H. rewrite !String.eqb_eq in H. done.
    - intros (msg & blocks & block & Hin & E & Hb & H).
      exists msg. rewrite <- list_elem_of_In. split; [done |]. rewrite E.
      apply existsb_exists. exists block. rewrite <- list_elem_of_In.
      split; [done |]. apply orb_true_iff. by rewrite !String.eqb_eq. }
  unfold Base.isAnthropicFormat.
  destruct (Base.system request) as [v|]; [split; eauto |].
  destruct (Base.tools request) as [[|firstTool rest]|].
  - rewrite Hmsgs. split; [auto |].
    intros [[v ?]|[(? & ? & ? & ? & _)|?]]; done.
  - destruct (Base.input_schema firstTool) as [schema|] eqn:E.
    + split; [|done]. intros _. right. left. by exists firstTool, rest, schema.
    + rewrite Hmsgs. split; [auto |].
      intros [[v ?]|[(? & ? & ? & [= <- _] & ?)|?]]; [done | congruence | done].
  - rewrite Hmsgs. split; [auto |].
    intros [[v ?]|[(? & ? & ? & ? & _)|?]]; done.
Qed.

(** ** Model names and token limits *)

(** C6.  The lookup of a model name reaches the properties that the
    table inherits: none of their names has an entry, yet for each of
    them [mapModelName] returns the inherited member, so that the
    request for the model ["constructor"] is normalised into a request
    without model, where the name should have passed through. *)
Theorem model_lookup_inherited :
  Forall (fun name => modelMap !! name = None
                      /\ mapModelName name = inheritedMember)
    objectPrototypeKeys
  /\ (forall JSON_parse,
         exists r, OpenAI.openaiToInternal JSON_parse Samples.inherited = Ok r
                   /\ model r = None
                   /\ model r <> Some "constructor"
                   /\ maxThinkingTokens r = None).
Proof.
  split.
  - repeat constructor.
  - intros JSON_parse. eexists. split; [by vm_compute |]. by vm_compute.
Qed.

(** X30.  The scenario of the design document resolves to the model
    ["claude-opus-4-5-20251101"] with a thinking budget of 10000; a name
    that is neither a key of the table nor the name of a property of
    [Object.prototype] is returned unchanged, with reasoning enabled
    exactly when its lower-case form contains ["thinking"]. *)
Theorem model_resolution :
  (forall JSON_parse,
      exists r, OpenAI.openaiToInternal JSON_parse Samples.scenario = Ok r
                /\ model r = Some "claude-opus-4-5-20251101"
                /\ maxThinkingTokens r = Some 10000%Z)
  /\ (forall name,
         modelMap !! name = None ->
         name ∉ objectPrototypeKeys ->
         mappedModel (mapModelName name) = Some name
         /\ enableThinkingProperty (mapModelName name)
            = Some (enableThinking (mapModelName name))
         /\ (enableThinking (mapModelName name) = true <->
             exists pre post, toLowerCase name = pre +:+ "thinking" +:+ post)).
Proof.
  split.
  - intros JSON_parse. eexists. split; [by vm_compute |]. by vm_compute.
  - intros name H Hp. unfold mapModelName. rewrite H.
    rewrite bool_decide_eq_false_2 by done. simpl.
    split; [done | split; [done | apply includes_spec]].
Qed.

Lemma model_resolution_witness :
  mappedModel (mapModelName "GPT-5-Thinking") = Some "GPT-5-Thinking"
  /\ enableThinkingProperty (mapModelName "GPT-5-Thinking")
     = Some (enableThinking (mapModelName "GPT-5-Thinking"))
  /\ (enableThinking (mapModelName "GPT-5-Thinking") = true <->
      exists pre post,
        toLowerCase "GPT-5-Thinking" = pre +:+ "thinking" +:+ post).
Proof.
  apply (proj2 model_resolution "GPT-5-Thinking"); [by vm_compute |].
  apply (bool_decide_unpack ("GPT-5-Thinking" ∉ objectPrototypeKeys)).
  by vm_compute.
Defined.

(** C10.  A [max_tokens] of 0 is replaced by 4096 on either path, as an
    absent one is. *)
Theorem zero_max_tokens :
  (forall request,
      Anthropic.max_tokens request = Some 0%Z ->
      maxTokens (Anthropic.anthropicToInternal request) = 4096%Z)
  /\ (forall JSON_parse request,
         OpenAI.max_tokens request = Some 0%Z ->
         (forall call, OpenAI.hasToolCall request call ->
                       is_Some (JSON_parse (OpenAI.argumentText call))) ->
         exists r, OpenAI.openaiToInternal JSON_parse request = Ok r
                   /\ maxTokens r = 4096%Z).
Proof.
  split.
  - intros request H. unfold Anthropic.anthropicToInternal, buildRequest.
    simpl. by rewrite H.
  - intros JSON_parse request H Hp. unfold OpenAI.openaiToInternal.
    destruct (openai_run_returns JSON_parse (OpenAI.messages request)
                (mkState [] None)) as [st ->].
    { intros msg calls call ? ? ? ?. apply Hp. by exists msg, calls. }
    simpl. eexists. split; [done |]. unfold buildRequest. simpl. by rewrite H.
Qed.

Lemma zero_max_tokens_witness :
  maxTokens (Anthropic.anthropicToInternal Samples.anthropicRequest) = 4096%Z
  /\ exists r,
      OpenAI.openaiToInternal Samples.parseEmptyObject (Samples.withCall None)
      = Ok r /\ maxTokens r = 4096%Z.
Proof.
  split.
  - by apply (proj1 zero_max_tokens Samples.anthropicRequest).
  - apply (proj2 zero_max_tokens Samples.parseEmptyObject (Samples.withCall None));
      [done |].
    intros call (msg & calls & Hm & Hr & Hc & Hin).
    unfold Samples.withCall in Hm. simpl in Hm.
    repeat (apply elem_of_cons in Hm as [->|Hm]); try done;
      [|by apply elem_of_nil in Hm].
    injection Hc as <-. apply list_elem_of_singleton in Hin as ->. by eexists.
Defined.

(** ** Tool-call arguments *)




(** ** Content of the normalised messages *)

(** C8.  On either path every message of the normalised request has a
    content that is not empty. *)
Theorem normalized_content_nonempty :
  (forall request m,
      m ∈ messages (Anthropic.anthropicToInternal request) ->
      content m <> [])
  /\ (forall JSON_parse request r m,
         OpenAI.openaiToInternal JSON_parse request = Ok r ->
         m ∈ messages r -> content m <> []).
Proof.
  assert (nonEmptyOut (mkState [] None)) as H0
    by (intros m Hm; by apply elem_of_nil in Hm).
  split.
  - intros request m. unfold Anthropic.anthropicToInternal, buildRequest.
    simpl. apply filter_nonempty. apply anthropic_loop_nonEmpty.
    intros x Hx. by apply elem_of_nil in Hx.
  - intros JSON_parse request r m. unfold OpenAI.openaiToInternal.
    destruct (OpenAI.run _ _ _) as [st|e] eqn:E; [|done]. simpl.
    intros [= <-]. unfold buildRequest. simpl.
    apply filter_nonempty. by apply (openai_run_nonEmpty _ _ _ _ E).
Qed.

Lemma normalized_content_nonempty_witness :
  content Samples.answer <> [] /\ content Samples.openaiAnswer <> [].
Proof.
  split.
  - apply (proj1 normalized_content_nonempty Samples.anthropicRequest).
    apply sample_answer_returned.
  - destruct sample_openai_answer_returned as (r & Hr & Hin).
    exact (proj2 normalized_content_nonempty Samples.parseEmptyObject
             Samples.openaiRequest r Samples.openaiAnswer Hr Hin).
Defined.

(** C9, as stated, on each of the two revisions.  The earlier one
    returns the sample conversation without any thinking block, although
    its assistant turn holds a native one.  The later one, on the same
    conversation with the empty string as signature, returns the block
    without signature: no block of the output carries the signature of
    the input. *)
Lemma native_thinking_counterexample :
  Forall (fun m => existsb isThinking (content m) = false)
    (messages (Legacy.anthropicToInternal Samples.anthropicRequest))
  /\ messages (Anthropic.anthropicToInternal Samples.emptySignature)
     = [ mkMessage User [TextBlock "hi"];
         mkMessage Assistant
           [ TextBlock "Let me check."; ThinkingBlock "plan" None;
             ToolUseBlock "t1" "search" (JObject []) ];
         mkMessage User [ToolResultBlock "t1" "found"] ]
  /\ ~ (exists m,
          m ∈ messages (Anthropic.anthropicToInternal Samples.emptySignature)
          /\ ThinkingBlock "plan" (Some EmptyString) ∈ content m).
Proof.
  assert (messages (Anthropic.anthropicToInternal Samples.emptySignature)
          = [ mkMessage User [TextBlock "hi"];
              mkMessage Assistant
                [ TextBlock "Let me check."; ThinkingBlock "plan" None;
                  ToolUseBlock "t1" "search" (JObject []) ];
              mkMessage User [ToolResultBlock "t1" "found"] ]) as E
    by (by vm_compute).
  split; [|split; [exact E |]].
  - assert (messages (Legacy.anthropicToInternal Samples.anthropicRequest)
            = [ mkMessage User [TextBlock "hi"];
                mkMessage Assistant
                  [ TextBlock "Let me check.";
                    ToolUseBlock "t1" "search" (JObject []) ];
                mkMessage User [ToolResultBlock "t1" "found"] ]) as ->
      by (by vm_compute).
    repeat constructor.
  - rewrite E. intros (m & Hm & Hb).
    repeat (apply elem_of_cons in Hm as [->|Hm];
            [cbn [content] in Hb;
             repeat (apply elem_of_cons in Hb as [Hb|Hb]; [discriminate Hb|]);
             by apply elem_of_nil in Hb |]).
    by apply elem_of_nil in Hm.
Qed.

(** C9, amended.  On the Anthropic path of the later revision, a native
    thinking block of an assistant message with array content is a
    thinking block of the corresponding normalised message, with the same
    text and, when its signature is present and not the empty string,
    the same signature; a block whose signature is absent or empty is
    kept without signature.  The earlier revision pushes nothing for a
    native thinking block. *)
Theorem native_thinking_preserved
  (request : Anthropic.AnthropicStyleRequest) (msg : Anthropic.Message)
  (blocks : list Anthropic.AnthropicContentBlock)
  (thinking : string) (signature : option string) :
  msg ∈ Anthropic.messages request ->
  Anthropic.role msg = Anthropic.RoleAssistant ->
  Anthropic.content msg = inr blocks ->
  Anthropic.AnthropicThinkingBlock thinking signature ∈ blocks ->
  (exists m,
      m ∈ messages (Anthropic.anthropicToInternal request)
      /\ m = mkMessage Assistant (concat (Anthropic.assistantBlock <$> blocks))
      /\ ThinkingBlock thinking
           (match signature with
            | Some s => if String.eqb s EmptyString then None else Some s
            | None => None
            end) ∈ content m)
  /\ Legacy.assistantBlock
       (Anthropic.AnthropicThinkingBlock thinking signature) = [].
Proof.
  intros Hm Hr Hc Hb. split; [|done].
  set (sig' := if truthyOpt signature then signature else None).
  assert (match signature with
          | Some s => if String.eqb s EmptyString then None else Some s
          | None => None
          end = sig') as ->.
  { unfold sig'. destruct signature as [[|a s]|]; done. }
  set (c := concat (Anthropic.assistantBlock <$> blocks)).
  assert (ThinkingBlock thinking sig' ∈ c) as Hin.
  { unfold c. apply list_elem_of_In, in_concat.
    exists (Anthropic.assistantBlock
              (Anthropic.AnthropicThinkingBlock thinking signature)).
    split; [|simpl; auto].
    by apply list_elem_of_In, list_elem_of_fmap_2. }
  exists (mkMessage Assistant c).
  split; [|split; [done | done]].
  unfold Anthropic.anthropicToInternal, buildRequest. simpl.
  apply filter_keeps; [|done |].
  - pose proof (anthropic_loop_pushes (Anthropic.messages request)
                  (mkState [] (Anthropic.initialSystem (Anthropic.system request)))
                  msg Hm Hr) as Hp.
    rewrite Hc in Hp. apply Hp. change (c <> []). intros E.
    rewrite E in Hin. by apply elem_of_nil in Hin.
  - simpl. apply existsb_exists. exists (ThinkingBlock thinking sig').
    by rewrite <- list_elem_of_In.
Qed.

Lemma native_thinking_preserved_witness :
  (exists m,
      m ∈ messages (Anthropic.anthropicToInternal Samples.anthropicRequest)
      /\ m = mkMessage Assistant
               (concat (Anthropic.assistantBlock <$>
                  [ Anthropic.AnthropicTextBlock "Let me check.";
                    Anthropic.AnthropicThinkingBlock "plan" (Some "sg");
                    Anthropic.AnthropicToolUseBlock "t1" "search" (JObject []) ]))
      /\ ThinkingBlock "plan" (Some "sg") ∈ content m)
  /\ Legacy.assistantBlock
       (Anthropic.AnthropicThinkingBlock "plan" (Some "sg")) = [].
Proof.
  eapply (native_thinking_preserved Samples.anthropicRequest
            (Anthropic.mkMsg Anthropic.RoleAssistant _) _ "plan" (Some "sg")).
  - unfold Samples.anthropicRequest. simpl.
    apply list_elem_of_further, list_elem_of_further, list_elem_of_here.
  - reflexivity.
  - reflexivity.
  - apply list_elem_of_further, list_elem_of_here.
Defined.

(** ** The earlier revision *)

Section LegacyFacts.

Lemma legacy_tailOpen_shorter (s rest : string)
  (caps : option (string * string)) :
  Legacy.tailOpen s = Some (caps, rest) ->
  String.length rest < String.length s.
Proof.
  assert (forall x, stripPrefix fence s = Some x ->
                    String.length x < String.length s) as Hf.
  { intros x ->%stripPrefix_Some. rewrite length_append.
    vm_compute (String.length fence). lia. }
  unfold Legacy.tailOpen.
  destruct (matchTrailer s) as [[[g k] r]|] eqn:Em.
  - destruct (stripPrefix fence r) as [x|] eqn:Er.
    + intros [= _ <-]. apply matchTrailer_suffix in Em as [pre ->].
      apply stripPrefix_Some in Er as ->. rewrite !length_append.
      vm_compute (String.length fence). lia.
    + destruct (stripPrefix fence s) as [x|] eqn:Es; [|done].
      intros [= _ <-]. by apply Hf.
  - destruct (stripPrefix fence s) as [x|] eqn:Es; [|done].
    intros [= _ <-]. by apply Hf.
Qed.

Lemma legacy_exec_shorter (s before rest : string)
  (m : string * option (string * string)) :
  Legacy.exec s = Some (before, m, rest) ->
  String.length rest < String.length s.
Proof.
  assert (forall x m1 caps r,
             Legacy.matchHere x = Some (m1, caps, r) ->
             String.length r < String.length x) as Hhere.
  { intros x m1 caps r. unfold Legacy.matchHere.
    destruct (stripPrefix header x) as [body|] eqn:E; [|done].
    destruct (lazyContent Legacy.tailOpen body) as [[c [k r']]|] eqn:El;
      [|done].
    intros [= _ _ <-].
    apply lazyContent_Some in El as (y & -> & Hy%legacy_tailOpen_shorter).
    apply stripPrefix_Some in E as ->. rewrite !length_append. lia. }
  revert before m. induction s as [|c s IH]; intros before m; [done |].
  cbn [Legacy.exec].
  destruct (Legacy.matchHere (String c s)) as [[[m1 caps] r]|] eqn:E.
  - intros [= _ _ <-]. by apply Hhere in E.
  - destruct (Legacy.exec s) as [[[b m'] r]|] eqn:Ex; [|done].
    intros [= _ _ <-]. specialize (IH _ _ eq_refl). simpl. lia.
Qed.

(** The loop of the earlier [parseThinkingFromText] ends before its fuel
    does. *)
Lemma legacy_loop_total (fuel : nat) (s : string)
  (blocks : list InternalContentBlock) :
  String.length s < fuel -> exists r, Legacy.loop fuel s blocks = Some r.
Proof.
  revert s blocks. induction fuel as [|fuel IH]; intros s blocks H; [lia |].
  cbn [Legacy.loop].
  destruct (Legacy.exec s) as [[[before [m1 caps]] rest]|] eqn:E; [|eauto].
  apply IH. apply legacy_exec_shorter in E. lia.
Qed.

(** The earlier revision pushes nothing for a native thinking block: on
    the sample conversation its assistant turn has lost the block that the
    revision with the filter keeps. *)
Lemma legacy_native_thinking_discarded :
  (forall thinking signature,
      Legacy.assistantBlock
        (Anthropic.AnthropicThinkingBlock thinking signature) = [])
  /\ messages (Legacy.anthropicToInternal Samples.anthropicRequest)
     = [ mkMessage User [TextBlock "hi"];
         mkMessage Assistant
           [TextBlock "Let me check."; ToolUseBlock "t1" "search" (JObject [])];
         mkMessage User [ToolResultBlock "t1" "found"] ].
Proof. split; [done | by vm_compute]. Qed.

End LegacyFacts.

(** * Further properties of the translation layer *)

(** ** The checksum text *)

Section ChecksumBound.
Local Open Scope N_scope.

Lemma lxor_below (n a b : N) :
  (a < 2 ^ n -> b < 2 ^ n -> N.lxor a b < 2 ^ n)%N.
Proof.
  intros Ha Hb.
  destruct (N.eq_dec (N.lxor a b) 0) as [->|Hz];
    [apply N.neq_0_lt_0, N.pow_nonzero; lia |].
  apply N.log2_lt_pow2; [lia |].
  eapply N.le_lt_trans; [apply N.log2_lxor |].
  apply N.max_lub_lt.
  - destruct (N.eq_dec a 0) as [->|?].
    + simpl. destruct (N.eq_dec n 0) as [->|?]; [|lia].
      simpl in Hb. assert (b = 0)%N as -> by lia. done.
    + apply N.log2_lt_pow2; lia.
  - destruct (N.eq_dec b 0) as [->|?].
    + simpl. destruct (N.eq_dec n 0) as [->|?]; [|lia].
      simpl in Ha. assert (a = 0)%N as -> by lia. done.
    + apply N.log2_lt_pow2; lia.
Qed.

Lemma step_below (c : N) : (c < 2 ^ 32 -> Crc32.step c < 2 ^ 32)%N.
Proof.
  intros Hc. unfold Crc32.step.
  assert (N.shiftr c 1 < 2 ^ 32)%N as Hs.
  { rewrite N.shiftr_div_pow2. simpl (2 ^ 1)%N.
    apply N.Div0.div_lt_upper_bound. lia. }
  destruct (N.odd c); [|done].
  apply lxor_below; [done | by vm_compute].
Qed.

Lemma update_below (c byte : N) :
  (c < 2 ^ 32 -> byte < 2 ^ 32 -> Crc32.update c byte < 2 ^ 32)%N.
Proof.
  intros Hc Hb. unfold Crc32.update.
  assert (N.lxor c byte < 2 ^ 32)%N as H by (by apply lxor_below).
  generalize dependent (N.lxor c byte). intros x Hx.
  do 8 (apply step_below). exact Hx.
Qed.

Lemma utf8_bytes (s : string) : Forall (fun b => b < 256)%N (utf8 s).
Proof.
  induction s as [|c s IH]; simpl; [constructor |].
  pose proof (N_ascii_bounded c) as Hc.
  destruct (N_of_ascii c <? 128)%N eqn:E.
  - constructor; [done | exact IH].
  - constructor; [|constructor; [|exact IH]].
    + change 256%N with (2 ^ 8)%N.
      assert (N.lor 192 (N.shiftr (N_of_ascii c) 6)
              = N.lxor (N.lor 192 (N.shiftr (N_of_ascii c) 6)) 0)%N as ->
        by (by rewrite N.lxor_0_r).
      destruct (N.eq_dec (N.lor 192 (N.shiftr (N_of_ascii c) 6)) 0) as [->|Hz];
        [done |].
      rewrite N.lxor_0_r. apply N.log2_lt_pow2; [lia |].
      rewrite N.log2_lor. apply N.max_lub_lt; [by vm_compute |].
      destruct (N.eq_dec (N.shiftr (N_of_ascii c) 6) 0) as [->|Hs];
        [by vm_compute |].
      apply N.log2_lt_pow2; [lia |].
      rewrite N.shiftr_div_pow2. apply N.Div0.div_lt_upper_bound.
      vm_compute (2 ^ 6 * 2 ^ 8)%N. lia.
    + change 256%N with (2 ^ 8)%N.
      destruct (N.eq_dec (N.lor 128 (N.land (N_of_ascii c) 63)) 0) as [->|Hz];
        [done |].
      apply N.log2_lt_pow2; [lia |].
      rewrite N.log2_lor. apply N.max_lub_lt; [by vm_compute |].
      destruct (N.eq_dec (N.land (N_of_ascii c) 63) 0) as [->|Hs];
        [by vm_compute |].
      eapply N.le_lt_trans; [apply N.log2_land |].
      apply N.min_lt_iff. right. by vm_compute.
Qed.

Lemma crc32_below (buf : list N) :
  Forall (fun b => b < 256)%N buf -> (Crc32.crc32 buf < 2 ^ 32)%N.
Proof.
  intros Hbuf. unfold Crc32.crc32.
  apply lxor_below; [|by vm_compute].
  assert (0xFFFFFFFF < 2 ^ 32)%N as H0 by (by vm_compute).
  generalize dependent 0xFFFFFFFF%N. intros c Hc.
  revert c Hc. induction Hbuf as [|b buf Hb _ IH]; intros c Hc; simpl;
    [done |].
  apply IH. apply update_below; [done |].
  eapply N.lt_trans; [exact Hb | by vm_compute].
Qed.

End ChecksumBound.

Section ChecksumShape.

Lemma hexDigit_lower (d : N) : (d < 16)%N -> isLowerHex (Crc32.hexDigit d) = true.
Proof.
  intros Hd. unfold isLowerHex, Crc32.hexDigit.
  destruct (d <? 10)%N eqn:E.
  - apply N.ltb_lt in E. rewrite N_ascii_embedding by lia.
    apply orb_true_iff. left. apply andb_true_iff.
    split; apply N.leb_le; lia.
  - apply N.ltb_ge in E. rewrite N_ascii_embedding by lia.
    apply orb_true_iff. right. apply andb_true_iff.
    split; apply N.leb_le; lia.
Qed.

Lemma toHex_lower (fuel : nat) (n : N) (acc : string) :
  allChars isLowerHex acc = true ->
  allChars isLowerHex (Crc32.toHex fuel n acc) = true.
Proof.
  revert n acc. induction fuel as [|fuel IH]; intros n acc Hacc; simpl;
    [done |].
  assert (allChars isLowerHex (String (Crc32.hexDigit (n mod 16)) acc) = true)
    as H.
  { cbn [allChars]. rewrite Hacc, hexDigit_lower; [done |].
    by apply N.mod_lt. }
  destruct (n / 16 =? 0)%N; [done | by apply IH].
Qed.

Lemma toHex_length (k fuel : nat) (n : N) (acc : string) :
  (n < 16 ^ N.of_nat (S k))%N ->
  String.length (Crc32.toHex (S fuel) n acc) <= String.length acc + S k
  /\ String.length acc < String.length (Crc32.toHex (S fuel) n acc).
Proof.
  revert fuel n acc. induction k as [|k IH]; intros fuel n acc Hn.
  - cbn [Crc32.toHex].
    assert (n / 16 = 0)%N as -> by (apply N.div_small; simpl in Hn; lia).
    simpl. lia.
  - cbn [Crc32.toHex]. destruct (n / 16 =? 0)%N eqn:E; [simpl; lia |].
    destruct fuel as [|fuel]; [simpl; lia |].
    destruct (IH fuel (n / 16)%N
                (String (Crc32.hexDigit (n mod 16)) acc)) as [H1 H2].
    { apply N.Div0.div_lt_upper_bound.
      rewrite <- N.pow_succ_r', <- Nat2N.inj_succ. exact Hn. }
    cbn [String.length] in H1, H2. lia.
Qed.

End ChecksumShape.

(** X1.  The checksum text is always eight lower-case hexadecimal
    digits. *)
Theorem calculateCrc32_shape (text : string) :
  String.length (calculateCrc32 text) = 8
  /\ allChars isLowerHex (calculateCrc32 text) = true.
Proof.
  unfold calculateCrc32, Crc32.toString16, Crc32.padStart0.
  set (n := Crc32.crc32 (utf8 text)).
  set (h := Crc32.toHex _ n EmptyString).
  assert (allChars isLowerHex h = true) as Hh by (by apply toHex_lower).
  assert (String.length h <= 8) as Hl.
  { pose proof (crc32_below (utf8 text) (utf8_bytes text)) as Hn. fold n in Hn.
    destruct (toHex_length 7 (N.to_nat (N.log2 n)) n EmptyString) as [H _];
      [|exact H].
    eapply N.lt_le_trans; [exact Hn | by vm_compute]. }
  assert (forall k s, allChars isLowerHex s = true ->
            allChars isLowerHex (Nat.iter k (String "0"%char) s) = true
            /\ String.length (Nat.iter k (String "0"%char) s)
               = k + String.length s) as Hpad.
  { intros k s Hs. induction k as [|k [IH1 IH2]]; [done |].
    simpl. rewrite IH1, IH2. done. }
  destruct (Hpad (8 - String.length h) h Hh) as [H1 H2].
  split; [lia | done].
Qed.

(** ** The codec *)

(** X2.  Unescaping undoes escaping, whatever the text. *)
Theorem unescape_after_escape (t : string) :
  unescapeBackticks (escapeBackticks t) = t.
Proof. apply unescape_escape. Qed.

Section DecodeFacts.

Lemma span_all (p : ascii -> bool) (s a b : string) :
  span p s = (a, b) -> allChars p a = true.
Proof.
  revert a b. induction s as [|c s IH]; intros a b; simpl.
  - by intros [= <- <-].
  - destruct (p c) eqn:E.
    + destruct (span p s) as [a' b'] eqn:Es. intros [= <- <-].
      simpl. rewrite E. by eapply IH.
    + by intros [= <- <-].
Qed.

Lemma matchTrailer_shape (s sig crc r : string) :
  matchTrailer s = Some (sig, crc, r) ->
  s = sigOpen +:+ sig +:+ crcOpen +:+ crc +:+ "]" +:+ r
  /\ allChars notCommaBracket sig = true /\ sig <> EmptyString
  /\ allChars notBracket crc = true /\ crc <> EmptyString.
Proof.
  unfold matchTrailer.
  destruct (stripPrefix sigOpen s) as [r1|] eqn:E1; [|done].
  destruct (span notCommaBracket r1) as [g r2] eqn:E2.
  destruct (isEmpty g) eqn:Eg; [done |].
  destruct (stripPrefix crcOpen r2) as [r3|] eqn:E3; [|done].
  destruct (span notBracket r3) as [k r4] eqn:E4.
  destruct (isEmpty k) eqn:Ek; [done |].
  destruct (stripPrefix "]" r4) as [r5|] eqn:E5; [|done].
  intros [= <- <- <-].
  pose proof (span_all _ _ _ _ E2). pose proof (span_all _ _ _ _ E4).
  apply stripPrefix_Some in E1, E3, E5. apply span_eq in E2, E4.
  split; [by rewrite E1, E2, E3, E4, E5 |].
  repeat split; try done; by intros ->.
Qed.

Lemma unescape_nonempty (s : string) :
  s <> EmptyString -> unescapeBackticks s <> EmptyString.
Proof.
  destruct s as [|c [|d r]]; [done | done |]. intros _. cbn [unescapeBackticks].
  by destruct (Ascii.eqb c backslash && Ascii.eqb d backtick).
Qed.

End DecodeFacts.

(** X3.  A text that decodes is an envelope: header, content, a trailer
    with the block's signature and the checksum of the trimmed content,
    closing fence, and nothing else; the block's text is the trimmed
    content unescaped, and neither it nor the signature is empty. *)
Theorem decode_sound (text : string) (d : Decoded) :
  decodeThinkingBlock text = Some d ->
  exists content,
    text = header +:+ content +:+ sigOpen +:+ signature d +:+ crcOpen
           +:+ calculateCrc32 (trim content) +:+ "]" +:+ fence
    /\ thinking d = unescapeBackticks (trim content)
    /\ thinking d <> EmptyString
    /\ signature d <> EmptyString
    /\ allChars notCommaBracket (signature d) = true.
Proof.
  unfold decodeThinkingBlock, execAnchored.
  destruct (stripPrefix header text) as [body|] eqn:Eh; [|done].
  destruct (lazyContent tailAnchored body) as [[m1 caps]|] eqn:El; [|done].
  apply lazyContent_Some in El as (r & -> & Ht).
  apply stripPrefix_Some in Eh as ->.
  destruct caps as [[sig crc]|]; simpl;
    [|by rewrite orb_true_r].
  destruct (truthy (trim m1)) eqn:Em; [|done].
  destruct (truthy sig) eqn:Es; [|done].
  destruct (truthy crc) eqn:Ec; [|done]. simpl.
  destruct (String.eqb (calculateCrc32 (trim m1)) crc) eqn:Ecrc; [|done].
  apply String.eqb_eq in Ecrc as <-. simpl. intros [= <-]. simpl.
  assert (matchTrailer r = Some (sig, calculateCrc32 (trim m1), fence)) as Hm.
  { unfold tailAnchored in Ht.
    destruct (matchTrailer r) as [[[g k] x]|] eqn:E.
    - destruct (String.eqb x fence) eqn:Ex.
      + apply String.eqb_eq in Ex as ->. by injection Ht as -> ->.
      + by destruct (String.eqb r fence).
    - by destruct (String.eqb r fence). }
  apply matchTrailer_shape in Hm as (-> & Hsig & Hne & _).
  exists m1. split; [done |]. split; [done |].
  split; [|done].
  apply unescape_nonempty. by destruct (trim m1).
Qed.

Lemma decode_sound_witness :
  exists content,
    Samples.envelope
    = header +:+ content +:+ sigOpen +:+ "abc" +:+ crcOpen
      +:+ calculateCrc32 (trim content) +:+ "]" +:+ fence
    /\ "because X" = unescapeBackticks (trim content)
    /\ "because X" <> EmptyString
    /\ "abc" <> EmptyString
    /\ allChars notCommaBracket "abc" = true.
Proof.
  apply (decode_sound Samples.envelope (mkDecoded "because X" "abc")).
  reflexivity.
Defined.

(** ** [parseThinkingFromText] *)

Section TrimIdempotent.

Lemma trimEnd_idem (s : string) : trimEnd (trimEnd s) = trimEnd s.
Proof.
  induction s as [|c s IH]; [done |]. cbn [trimEnd].
  destruct (isWhiteSpace c && isEmpty (trimEnd s)) eqn:E; [done |].
  cbn [trimEnd]. by rewrite IH, E.
Qed.

Lemma trimStart_idem (s : string) : trimStart (trimStart s) = trimStart s.
Proof.
  induction s as [|c s IH]; [done |]. cbn [trimStart].
  destruct (isWhiteSpace c) eqn:E; [done |]. cbn [trimStart]. by rewrite E.
Qed.

Lemma trimStart_trimEnd (s : string) :
  trimStart s = s -> trimStart (trimEnd s) = trimEnd s.
Proof.
  destruct s as [|c s]; [done |]. intros H.
  assert (isWhiteSpace c = false) as Hc.
  { cbn [trimStart] in H. destruct (isWhiteSpace c); [|done].
    pose proof (trimStart_length s) as Hl.
    apply (f_equal String.length) in H. simpl in H. lia. }
  cbn [trimEnd]. rewrite Hc. simpl. by rewrite Hc.
Qed.

Lemma trim_idem (s : string) : trim (trim s) = trim s.
Proof.
  unfold trim.
  rewrite (trimStart_trimEnd (trimStart s)) by apply trimStart_idem.
  apply trimEnd_idem.
Qed.

End TrimIdempotent.

Section ParseShape.

Lemma pushText_parsed (x : string) (blocks : list InternalContentBlock) :
  Forall parsedBlock blocks -> Forall parsedBlock (pushText (trim x) blocks).
Proof.
  intros H. unfold pushText. destruct (truthy (trim x)) eqn:E; [|done].
  apply Forall_app. split; [done |]. constructor; [|constructor].
  split; [by destruct (trim x) | apply trim_idem].
Qed.

Lemma loop_parsed (fuel : nat) (s : string)
  (blocks r : list InternalContentBlock) :
  Forall parsedBlock blocks -> loop fuel s blocks = Some r ->
  Forall parsedBlock r.
Proof.
  revert s blocks. induction fuel as [|fuel IH]; intros s blocks Hb; [done |].
  cbn [loop]. destruct (exec s) as [[[before m] rest]|].
  - apply IH. destruct (decodeThinkingBlock m) as [d|] eqn:Ed;
      [|by apply pushText_parsed].
    apply Forall_app. split; [by apply pushText_parsed |].
    constructor; [|constructor].
    apply decode_sound in Ed as (c & _ & _ & ? & ? & _). done.
  - intros [= <-]. by apply pushText_parsed.
Qed.

Lemma exec_none (s : string) : includes header s = false -> exec s = None.
Proof.
  induction s as [|c s IH]; [done |].
  intros [Hs Hi]%includes_cons. cbn [exec].
  unfold matchHere, startsWith in *.
  destruct (stripPrefix header (String c s)); [done |]. by rewrite IH.
Qed.

End ParseShape.

(** X4.  Whatever the text, [parseThinkingFromText] returns only text
    blocks and thinking blocks; a text block is trimmed and not empty, a
    thinking block has a text and a signature that are not empty. *)
Theorem parse_blocks (text : string) :
  Forall parsedBlock (parseThinkingFromText text).
Proof.
  unfold parseThinkingFromText.
  destruct (loop _ text []) as [r|] eqn:E; [|constructor].
  apply loop_parsed in E; [|constructor].
  destruct r as [|b r]; [|done].
  destruct (truthy (trim text)) eqn:Et; constructor; [|constructor].
  split; [by destruct (trim text) | apply trim_idem].
Qed.

(** X5.  A text that does not contain the header of an envelope is
    returned as one trimmed text block, or as no block when it is empty or
    white space only. *)
Theorem parse_plain (text : string) :
  includes header text = false ->
  parseThinkingFromText text
  = if truthy (trim text) then [TextBlock (trim text)] else [].
Proof.
  intros H. unfold parseThinkingFromText. cbn [loop].
  rewrite (exec_none _ H). unfold pushText. simpl.
  by destruct (truthy (trim text)).
Qed.

Lemma parse_plain_witness :
  parseThinkingFromText "  done.  " = [TextBlock "done."].
Proof. by apply (parse_plain "  done.  "). Defined.

Section ParseEnvelope.

Variables (t s x : string).
Hypothesis t_truthy : t <> EmptyString.
Hypothesis t_trimmed : trim t = t.
Hypothesis t_unmarked : includes sigOpen t = false.
Hypothesis s_truthy : s <> EmptyString.
Hypothesis s_ok : allChars notCommaBracket s = true.
Hypothesis x_plain : includes header x = false.

Lemma parse_encode_text :
  parseThinkingFromText (encodeThinkingBlock t (Some s) +:+ x)
  = ThinkingBlock t (Some s)
    :: if truthy (trim x) then [TextBlock (trim x)] else [].
Proof.
  unfold parseThinkingFromText.
  rewrite (encode_signed t s s_truthy).
  set (env := header +:+ escapeBackticks t +:+ sigOpen +:+ s +:+ crcOpen
              +:+ calculateCrc32 (escapeBackticks t) +:+ "]" +:+ fence).
  assert ((env +:+ nl +:+ nl) +:+ x = env +:+ nl +:+ nl +:+ x) as ->
    by (by rewrite (append_assoc env), (append_assoc nl)).
  pose proof (matchHere_envelope t s t_unmarked s_truthy s_ok
                (nl +:+ nl +:+ x)) as Hm.
  pose proof (decode_envelope t s t_truthy t_trimmed t_unmarked s_truthy s_ok)
    as Hd.
  fold env in Hm, Hd.
  cbn [loop]. rewrite (exec_here _ _ _ Hm), Hd.
  cbn [pushText trim trimStart trimEnd truthy isEmpty negb app thinking signature].
  destruct (String.length (env +:+ nl +:+ nl +:+ x)) as [|n] eqn:El.
  { unfold env in El. rewrite !length_append in El.
    vm_compute (String.length header) in El. lia. }
  cbn [loop]. rewrite exec_none.
  - change (trim (nl +:+ nl +:+ x)) with (trim x).
    unfold pushText. by destruct (truthy (trim x)).
  - change (nl +:+ nl +:+ x)
      with (String "010"%char (String "010"%char x)).
    cbn [includes]. rewrite x_plain. by rewrite orb_false_r.
Qed.

End ParseEnvelope.

(** X6.  Take a thinking text that is not empty, has no white space at
    either end and does not contain the trailer marker, a signature that
    is not empty and holds neither a comma nor a closing bracket, and a
    text that does not contain the envelope header.  Read back from
    message text, the encoding of the signed block followed by that text
    is the thinking block, with the same text and signature, followed by
    the trimmed text as a text block (by nothing when the text is empty
    or white space only). *)
Theorem parse_encoded_then_text (t s x : string) :
  t <> EmptyString -> trim t = t -> includes sigOpen t = false ->
  s <> EmptyString -> allChars notCommaBracket s = true ->
  includes header x = false ->
  parseThinkingFromText (encodeThinkingBlock t (Some s) +:+ x)
  = ThinkingBlock t (Some s)
    :: if truthy (trim x) then [TextBlock (trim x)] else [].
Proof. apply parse_encode_text. Qed.

Lemma parse_encoded_then_text_witness :
  parseThinkingFromText
    (encodeThinkingBlock "because X" (Some "abc") +:+ "The answer is 4.")
  = [ThinkingBlock "because X" (Some "abc"); TextBlock "The answer is 4."].
Proof.
  apply (parse_encoded_then_text "because X" "abc" "The answer is 4.");
    solve [discriminate | reflexivity].
Defined.

(** ** [filterMessagesWithoutThinking] *)

Section FilterMore.

Lemma firstPass_nothing (msgs : list InternalMessage) :
  (forall m, m ∈ msgs -> lacksThinking m = false) ->
  firstPass msgs = (∅, msgs).
Proof.
  induction msgs as [|x msgs IH]; intros H; simpl; [done |].
  rewrite IH by (intros m Hm; apply H; set_solver).
  by rewrite (H x) by set_solver.
Qed.

Lemma filter_nothing (msgs : list InternalMessage) (enable : bool) :
  (forall m, m ∈ msgs -> lacksThinking m = false) ->
  filterMessagesWithoutThinking msgs enable = msgs.
Proof.
  intros H. unfold filterMessagesWithoutThinking.
  destruct enable; simpl; [|done].
  rewrite (firstPass_nothing _ H). by rewrite bool_decide_eq_false_2 by auto.
Qed.

Lemma lacksThinking_user (m : InternalMessage) :
  role m = User -> lacksThinking m = false.
Proof. unfold lacksThinking, isRole. by intros ->. Qed.

End FilterMore.

(** X7.  The filter changes nothing in a conversation whose assistant
    turns all hold a thinking or redacted thinking block. *)
Theorem filter_consistent_unchanged
  (msgs : list InternalMessage) (enable : bool) :
  (forall m, m ∈ msgs -> role m = Assistant ->
             exists b, b ∈ content m /\ isThinking b = true) ->
  filterMessagesWithoutThinking msgs enable = msgs.
Proof.
  intros H. apply filter_nothing. intros m Hm.
  destruct (role m) eqn:Hr; [by apply lacksThinking_user |].
  apply lacksThinking_false; [done |].
  destruct (H m Hm Hr) as (b & Hb & Ht).
  apply existsb_exists. exists b. by rewrite <- list_elem_of_In.
Qed.

Lemma filter_consistent_unchanged_witness :
  filterMessagesWithoutThinking
    [mkMessage User [TextBlock "hi"]; Samples.answer] true
  = [mkMessage User [TextBlock "hi"]; Samples.answer].
Proof.
  apply filter_consistent_unchanged. intros m Hm Hr.
  apply elem_of_cons in Hm as [->|Hm]; [done |].
  apply list_elem_of_singleton in Hm as ->.
  exists (ThinkingBlock "plan" (Some "sg")).
  split; [|reflexivity].
  apply list_elem_of_further, list_elem_of_here.
Defined.

(** X8.  Filtering twice is filtering once. *)
Theorem filter_idempotent (msgs : list InternalMessage) (enable : bool) :
  filterMessagesWithoutThinking
    (filterMessagesWithoutThinking msgs enable) enable
  = filterMessagesWithoutThinking msgs enable.
Proof.
  destruct enable; [|done].
  apply filter_nothing. intros m Hm.
  destruct (role m) eqn:Hr; [by apply lacksThinking_user |].
  apply lacksThinking_false; [done |].
  by destruct (filter_assistant _ _ Hm Hr).
Qed.

(** X9.  The filter never loses what the user wrote: every block of a
    user turn that is not a tool result is still in a user turn of the
    output. *)
Theorem filter_keeps_user_blocks
  (msgs : list InternalMessage) (enable : bool)
  (m : InternalMessage) (b : InternalContentBlock) :
  m ∈ msgs -> role m = User -> b ∈ content m ->
  (forall id c, b <> ToolResultBlock id c) ->
  exists m', m' ∈ filterMessagesWithoutThinking msgs enable
             /\ role m' = User /\ b ∈ content m'.
Proof.
  intros Hm Hr Hb Hnot. unfold filterMessagesWithoutThinking.
  destruct enable; simpl; [|by exists m].
  pose proof (firstPass_kept msgs m) as Hk.
  destruct (firstPass msgs) as [ids kept]. simpl in Hk.
  assert (m ∈ kept) as Hin
    by (apply Hk; split; [done | by apply lacksThinking_user]).
  case_bool_decide; [|by exists m].
  assert (b ∈ List.filter (keepBlock ids) (content m)) as Hf.
  { apply list_elem_of_In, filter_In. rewrite <- list_elem_of_In.
    split; [done |]. destruct b; try done. by destruct (Hnot tool_use_id content0). }
  exists (mkMessage User (List.filter (keepBlock ids) (content m))).
  split; [|done].
  apply list_elem_of_omap. exists m. split; [done |].
  unfold dropOrphans, isRole. rewrite Hr.
  destruct (List.filter (keepBlock ids) (content m));
    [by apply elem_of_nil in Hf | done].
Qed.

Lemma filter_keeps_user_blocks_witness :
  exists m', m' ∈ filterMessagesWithoutThinking
                    (mkMessage User [TextBlock "and then?";
                                     ToolResultBlock "t2" "lost"]
                     :: Samples.twoCalls) true
             /\ role m' = User /\ TextBlock "and then?" ∈ content m'.
Proof.
  apply (filter_keeps_user_blocks _ true
           (mkMessage User [TextBlock "and then?"; ToolResultBlock "t2" "lost"])).
  - apply list_elem_of_here.
  - reflexivity.
  - apply list_elem_of_here.
  - discriminate.
Defined.

(** X10.  With reasoning enabled, no tool result left in a user turn
    answers a tool call of an assistant turn that the filter removed. *)
Theorem filter_drops_orphans (msgs : list InternalMessage)
  (m a : InternalMessage) (id c name : string) (input : JsonValue) :
  m ∈ filterMessagesWithoutThinking msgs true -> role m = User ->
  ToolResultBlock id c ∈ content m ->
  a ∈ msgs -> role a = Assistant ->
  ToolUseBlock id name input ∈ content a ->
  a ∈ filterMessagesWithoutThinking msgs true.
Proof.
  intros Hm Hr Hb Ha Hra Hu.
  apply filter_keeps; [done | done |].
  apply lacksThinking_false; [done |].
  destruct (lacksThinking a) eqn:El; [|done]. exfalso.
  revert Hm. unfold filterMessagesWithoutThinking. simpl.
  pose proof (firstPass_kept msgs) as Hk.
  pose proof (firstPass_removed msgs id) as Hrm.
  destruct (firstPass msgs) as [ids kept]. simpl in Hk, Hrm.
  assert (id ∈ ids) as Hid.
  { apply Hrm. exists a. split; [done |]. split; [done |].
    apply toolUseIds_spec. eauto. }
  rewrite bool_decide_eq_true_2 by set_solver.
  intros (x & Hx & Hd)%list_elem_of_omap.
  pose proof (dropOrphans_role _ _ _ Hd) as Hrole.
  assert (role x = User) as Hxu by congruence.
  destruct (dropOrphans_user _ _ _ Hxu Hd) as [Hc _].
  rewrite Hc in Hb. apply list_elem_of_In, filter_In in Hb as [_ Hkeep].
  simpl in Hkeep. apply negb_true_iff, bool_decide_eq_false in Hkeep. done.
Qed.

Lemma filter_drops_orphans_witness :
  mkMessage Assistant
    [ThinkingBlock "plan" (Some "sg"); ToolUseBlock "t1" "search" (JObject [])]
  ∈ filterMessagesWithoutThinking Samples.twoCalls true.
Proof.
  apply (filter_drops_orphans Samples.twoCalls
           (mkMessage User [ToolResultBlock "t1" "found"]) _
           "t1" "found" "search" (JObject [])).
  - vm_compute. apply list_elem_of_further, list_elem_of_here.
  - reflexivity.
  - apply list_elem_of_here.
  - apply list_elem_of_here.
  - reflexivity.
  - apply list_elem_of_further, list_elem_of_here.
Defined.

(** ** The system prompt *)

Section SystemPrompt.

Lemma join_merge (s t : string) (r : list string) :
  join blankLine ((s +:+ nl +:+ nl +:+ t) :: r)
  = join blankLine (s :: t :: r).
Proof.
  destruct r as [|u r]; cbn [join]; unfold blankLine;
    by rewrite ?append_assoc.
Qed.

Lemma dropEmpty_truthy (a : string) (r : list string) :
  truthy a = true -> dropEmpty (a :: r) = a :: r.
Proof. by destruct a. Qed.

Lemma mergedSystem_fold (texts : list string) (sp : option string) :
  (let o := fold_left appendSystem texts sp in
   if truthyOpt o then o else None)
  = mergedSystem (match sp with Some s => [s] | None => [] end ++ texts).
Proof.
  revert sp. induction texts as [|t r IH]; intros sp.
  - simpl. rewrite app_nil_r. destruct sp as [[|c s]|]; done.
  - cbn [fold_left]. rewrite IH. destruct sp as [s0|]; [|done].
    destruct (truthy s0) eqn:E.
    + assert (appendSystem (Some s0) t = Some (s0 +:+ nl +:+ nl +:+ t)) as ->
        by (unfold appendSystem, addSystem; simpl; by rewrite E).
      cbn [app]. unfold mergedSystem.
      rewrite !dropEmpty_truthy; [by rewrite join_merge | done |].
      by destruct s0.
    + by destruct s0.
Qed.

Lemma appendSystem_state (st : LoopState) (text : string) :
  systemPrompt (addSystem st text) = appendSystem (systemPrompt st) text.
Proof.
  unfold appendSystem, addSystem. simpl.
  destruct (systemPrompt st) as [s|]; [|done]. by destruct (truthy s).
Qed.

Lemma pushMessage_system (st : LoopState) (r : Role)
  (c : list InternalContentBlock) :
  systemPrompt (pushMessage st r c) = systemPrompt st.
Proof. by destruct c. Qed.

Lemma anthropic_loop_system (msgs : list Anthropic.Message) (st : LoopState) :
  systemPrompt (fold_left Anthropic.step msgs st)
  = fold_left appendSystem
      (omap (fun msg =>
               match Anthropic.role msg with
               | Anthropic.RoleSystem =>
                   Some (extractTextContent
                           (Anthropic.asMessageContent (Anthropic.content msg)))
               | _ => None
               end) msgs)
      (systemPrompt st).
Proof.
  revert st. induction msgs as [|msg msgs IH]; intros st; [done |].
  cbn [fold_left omap list_omap]. rewrite IH. unfold Anthropic.step.
  destruct (Anthropic.role msg); simpl;
    by rewrite ?pushMessage_system, ?appendSystem_state.
Qed.

Lemma openai_run_system (JSON_parse : string -> option JsonValue)
  (msgs : list OpenAI.Message) (st st' : LoopState) :
  OpenAI.run JSON_parse msgs st = Ok st' ->
  systemPrompt st'
  = fold_left appendSystem
      (omap (fun msg =>
               match OpenAI.role msg with
               | OpenAI.RoleSystem =>
                   Some (extractTextContent (OpenAI.content msg))
               | _ => None
               end) msgs)
      (systemPrompt st).
Proof.
  revert st. induction msgs as [|msg msgs IH]; intros st; simpl.
  - by intros [= <-].
  - destruct (OpenAI.step JSON_parse st msg) as [st1|e] eqn:E; [|done].
    simpl. intros Hr. rewrite (IH _ Hr). clear IH Hr.
    unfold OpenAI.step in E. destruct (OpenAI.role msg); simpl.
    + injection E as <-. by rewrite pushMessage_system.
    + destruct (OpenAI.assistantContent JSON_parse msg); [|done].
      injection E as <-. by rewrite pushMessage_system.
    + injection E as <-. by rewrite appendSystem_state.
    + destruct (OpenAI.tool_call_id msg) as [i|]; [|by injection E as <-].
      destruct (truthy i); by injection E as <-.
Qed.

End SystemPrompt.

(** X11.  On either path the system prompt of the normalised request is
    made of the system texts in the order met (the [system] property of an
    Anthropic request first), from the first text that is not empty on,
    joined by blank lines; it is absent when all of them are empty. *)
Theorem system_prompt_merged :
  (forall request,
      system (Anthropic.anthropicToInternal request)
      = mergedSystem (anthropicSystemTexts request))
  /\ (forall JSON_parse request r,
         OpenAI.openaiToInternal JSON_parse request = Ok r ->
         system r = mergedSystem (openaiSystemTexts request)).
Proof.
  split.
  - intros request. unfold Anthropic.anthropicToInternal, buildRequest.
    cbn [system]. rewrite anthropic_loop_system. cbn [systemPrompt].
    rewrite (mergedSystem_fold _ (Anthropic.initialSystem (Anthropic.system request))).
    unfold anthropicSystemTexts, Anthropic.initialSystem.
    destruct (Anthropic.system request) as [[[|c s]|blocks]|]; done.
  - intros JSON_parse request r. unfold OpenAI.openaiToInternal.
    destruct (OpenAI.run _ _ _) as [st|e] eqn:E; [|done]. simpl.
    intros [= <-]. unfold buildRequest. cbn [system].
    rewrite (openai_run_system _ _ _ _ E). cbn [systemPrompt].
    by rewrite (mergedSystem_fold _ None).
Qed.

Lemma system_prompt_merged_witness :
  system
    (Anthropic.anthropicToInternal
       (Anthropic.mkAnthropicRequest "claude-4.5-opus"
          [ Anthropic.mkMsg Anthropic.RoleSystem (inl "Be brief.");
            Anthropic.mkMsg Anthropic.RoleUser (inl "hi");
            Anthropic.mkMsg Anthropic.RoleSystem (inl "Answer in French.") ]
          (Some (inl EmptyString)) None None None None))
  = Some ("Be brief." +:+ nl +:+ nl +:+ "Answer in French.")
  /\ (forall r,
         OpenAI.openaiToInternal Samples.parseEmptyObject Samples.scenario = Ok r ->
         system r = None).
Proof.
  split.
  - by rewrite (proj1 system_prompt_merged).
  - intros r Hr.
    by rewrite (proj2 system_prompt_merged Samples.parseEmptyObject
                  Samples.scenario r Hr).
Defined.

(** ** [internalToOpenai] *)

Section ResponseFacts.

Variable JSON_stringify : JsonValue -> string.

Lemma fold_pushBlock_uses (uses : list (string * string * JsonValue))
  (texts : list string) (calls : list OpenAI.ToolCall) :
  fold_left (Response.pushBlock JSON_stringify)
    (Response.useBlock <$> uses) (texts, calls)
  = (texts, calls ++ (Response.callOf JSON_stringify <$> uses)).
Proof.
  revert calls. induction uses as [|u uses IH]; intros calls; simpl.
  - by rewrite app_nil_r.
  - rewrite IH. by rewrite <- app_assoc.
Qed.

Lemma fold_pushBlock (content : list InternalContentBlock)
  (texts : list string) (calls : list OpenAI.ToolCall) :
  fold_left (Response.pushBlock JSON_stringify) content (texts, calls)
  = (texts ++ omap Response.textOf content,
     calls ++ omap (Response.toolCallOf JSON_stringify) content).
Proof.
  revert texts calls. induction content as [|b content IH];
    intros texts calls.
  - simpl. by rewrite !app_nil_r.
  - cbn [fold_left]. destruct b; cbn [Response.pushBlock]; rewrite IH;
      simpl; by rewrite <- ?app_assoc.
Qed.

Lemma omap_nil {A B} (f : A -> option B) (l : list A) :
  omap f l = [] <-> forallb (fun a => negb (bool_decide (is_Some (f a)))) l = true.
Proof.
  induction l as [|a l IH]; [done |]. cbn [omap list_omap forallb].
  destruct (f a) as [b|] eqn:E.
  - rewrite bool_decide_eq_true_2 by eauto. simpl. split; done.
  - rewrite bool_decide_eq_false_2 by (by intros [? ?]). simpl. exact IH.
Qed.

End ResponseFacts.

(** X12.  The message of the encoded response has a [null] content
    exactly when the response holds no text, thinking or redacted thinking
    block, and no [tool_calls] exactly when it holds no tool call; its tool
    calls are those of the [tool_use] blocks, in their order. *)
Theorem response_message_shape
  (JSON_stringify : JsonValue -> string) (now : Z)
  (response : Response.InternalResponse) (requestModel : string) :
  let m := Response.message
             (Response.internalToOpenai JSON_stringify now response requestModel) in
  (Response.msg_content m = None <->
   forallb (fun b => negb (Response.textLike b)) (Response.content response) = true)
  /\ (Response.msg_tool_calls m = None <->
      forallb (fun b => negb (Response.isToolUse b)) (Response.content response) = true)
  /\ default [] (Response.msg_tool_calls m)
     = omap (Response.toolCallOf JSON_stringify) (Response.content response).
Proof.
  cbv zeta. unfold Response.internalToOpenai. rewrite fold_pushBlock.
  cbn [app Response.message Response.msg_content Response.msg_tool_calls].
  assert (forall l, forallb (fun b => negb (bool_decide (is_Some (Response.textOf b)))) l
                    = forallb (fun b => negb (Response.textLike b)) l) as H1.
  { intros l. induction l as [|b l IH]; [done |]. cbn [forallb]. rewrite IH.
    by destruct b. }
  assert (forall l, forallb (fun b => negb (bool_decide
                        (is_Some (Response.toolCallOf JSON_stringify b)))) l
                    = forallb (fun b => negb (Response.isToolUse b)) l) as H2.
  { intros l. induction l as [|b l IH]; [done |]. cbn [forallb]. rewrite IH.
    by destruct b. }
  rewrite <- H1, <- H2, <- !omap_nil.
  destruct (omap Response.textOf _), (omap (Response.toolCallOf _) _); done.
Qed.

Section SentBack.

Variable JSON_stringify : JsonValue -> string.
Variable JSON_parse : string -> option JsonValue.

Lemma omap_textOf_uses (uses : list (string * string * JsonValue)) :
  omap Response.textOf (Response.useBlock <$> uses) = [].
Proof. induction uses as [|u uses IH]; [done | exact IH]. Qed.

Lemma omap_toolCallOf_uses (uses : list (string * string * JsonValue)) :
  omap (Response.toolCallOf JSON_stringify) (Response.useBlock <$> uses)
  = Response.callOf JSON_stringify <$> uses.
Proof.
  induction uses as [|u uses IH]; [done |].
  cbn [fmap list_fmap omap list_omap]. simpl. f_equal. exact IH.
Qed.

Lemma toolUseBlocks_callOf (uses : list (string * string * JsonValue)) :
  (forall u, u ∈ uses ->
             JSON_stringify u.2 <> EmptyString
             /\ JSON_parse (JSON_stringify u.2) = Some u.2) ->
  OpenAI.toolUseBlocks JSON_parse (Response.callOf JSON_stringify <$> uses)
  = Ok (Response.useBlock <$> uses).
Proof.
  induction uses as [|u uses IH]; intros H; [done |].
  cbn [fmap list_fmap OpenAI.toolUseBlocks].
  destruct (H u) as [Hne Hp]; [apply list_elem_of_here |].
  assert (truthy (JSON_stringify u.2) = true) as Ht
    by (by destruct (JSON_stringify u.2)).
  assert (OpenAI.parseArguments JSON_parse (Response.callOf JSON_stringify u)
          = Ok u.2) as ->.
  { cbv [OpenAI.parseArguments OpenAI.argumentText Response.callOf orString
         OpenAI.arguments OpenAI.function].
    by rewrite Ht, Hp. }
  cbn [mbind result_bind].
  change (list_fmap _ _ (Response.callOf JSON_stringify) uses)
    with (Response.callOf JSON_stringify <$> uses).
  rewrite IH by (intros v Hv; apply H; by apply list_elem_of_further).
  done.
Qed.

Lemma openai_step_mono (st st' : LoopState) (msg : OpenAI.Message)
  (m : InternalMessage) :
  OpenAI.step JSON_parse st msg = Ok st' -> m ∈ out st -> m ∈ out st'.
Proof.
  unfold OpenAI.step. intros Hs H. destruct (OpenAI.role msg).
  - injection Hs as <-. by apply pushMessage_mono.
  - destruct (OpenAI.assistantContent JSON_parse msg) as [c|e]; [|done].
    injection Hs as <-. by apply pushMessage_mono.
  - injection Hs as <-. by rewrite addSystem_out.
  - destruct (OpenAI.tool_call_id msg) as [i|]; [|by injection Hs as <-].
    destruct (truthy i); [|by injection Hs as <-].
    injection Hs as <-. simpl. set_solver.
Qed.

Lemma openai_run_mono (msgs : list OpenAI.Message) (st st' : LoopState)
  (m : InternalMessage) :
  OpenAI.run JSON_parse msgs st = Ok st' -> m ∈ out st -> m ∈ out st'.
Proof.
  revert st. induction msgs as [|msg msgs IH]; intros st; simpl.
  - by intros [= <-].
  - destruct (OpenAI.step JSON_parse st msg) as [st1|e] eqn:E; [|done].
    simpl. intros Hr H. apply (IH _ Hr).
    by apply (openai_step_mono _ _ _ _ E).
Qed.

(** An assistant message whose content is not empty is pushed. *)
Lemma openai_run_pushes (msgs : list OpenAI.Message) (st st' : LoopState)
  (msg : OpenAI.Message) (c : list InternalContentBlock) :
  msg ∈ msgs -> OpenAI.role msg = OpenAI.RoleAssistant ->
  OpenAI.assistantContent JSON_parse msg = Ok c -> c <> [] ->
  OpenAI.run JSON_parse msgs st = Ok st' ->
  mkMessage Assistant c ∈ out st'.
Proof.
  intros Hin Hr Hc Hne. revert st.
  induction msgs as [|x msgs IH]; intros st;
    [by apply elem_of_nil in Hin |].
  simpl. destruct (OpenAI.step JSON_parse st x) as [st1|e] eqn:E; [|done].
  simpl. apply elem_of_cons in Hin as [<-|Hin]; [|by apply IH].
  intros Hrun. apply (openai_run_mono _ _ _ _ Hrun).
  unfold OpenAI.step in E. rewrite Hr, Hc in E. simpl in E.
  injection E as <-. rewrite pushMessage_out.
  destruct c; [done | set_solver].
Qed.

End SentBack.

(** X13.  Take a response whose content is a signed thinking block, an
    answer text and tool calls, where the thinking text is not empty, has
    no white space at either end and does not contain the trailer marker,
    the signature is not empty and holds neither a comma nor a closing
    bracket, the answer does not contain the envelope header, and every
    tool input is written by [JSON.stringify] as a non-empty text that
    [JSON.parse] reads back.  Encoded by [internalToOpenai] and sent back
    by the client as an assistant message, its content is normalised to
    the tool calls, then the thinking block with the same text and
    signature, then the trimmed answer as a text block if that is not
    empty; and when [openaiToInternal] returns for a request that holds
    that message, a message with these blocks is among the messages of
    the normalised request. *)
Theorem response_sent_back
  (JSON_stringify : JsonValue -> string)
  (JSON_parse : string -> option JsonValue)
  (now : Z) (response : Response.InternalResponse) (requestModel : string)
  (t s x : string) (uses : list (string * string * JsonValue))
  (request : OpenAI.OpenAIStyleRequest) (r : InternalRequest) :
  Response.content response
  = ThinkingBlock t (Some s) :: TextBlock x :: (Response.useBlock <$> uses) ->
  t <> EmptyString -> trim t = t -> includes sigOpen t = false ->
  s <> EmptyString -> allChars notCommaBracket s = true ->
  includes header x = false ->
  (forall u, u ∈ uses ->
             JSON_stringify u.2 <> EmptyString
             /\ JSON_parse (JSON_stringify u.2) = Some u.2) ->
  let msg :=
    Response.sentBack
      (Response.internalToOpenai JSON_stringify now response requestModel) in
  let blocks :=
    (Response.useBlock <$> uses)
    ++ ThinkingBlock t (Some s)
       :: if truthy (trim x) then [TextBlock (trim x)] else [] in
  msg ∈ OpenAI.messages request ->
  OpenAI.openaiToInternal JSON_parse request = Ok r ->
  OpenAI.assistantContent JSON_parse msg = Ok blocks
  /\ mkMessage Assistant blocks ∈ messages r.
Proof.
  intros Hc Ht Htrim Hmark Hs Hsig Hx Hjson msg blocks Hin.
  assert (OpenAI.assistantContent JSON_parse msg = Ok blocks) as Hcontent.
  { unfold msg, blocks.
    unfold Response.internalToOpenai. rewrite fold_pushBlock, Hc.
    cbn [omap list_omap Response.textOf Response.toolCallOf app].
    change (list_omap _ _ Response.textOf (Response.useBlock <$> uses))
      with (omap Response.textOf (Response.useBlock <$> uses)).
    change (list_omap _ _ (Response.toolCallOf JSON_stringify)
              (Response.useBlock <$> uses))
      with (omap (Response.toolCallOf JSON_stringify) (Response.useBlock <$> uses)).
    rewrite omap_textOf_uses, omap_toolCallOf_uses.
    unfold Response.sentBack, OpenAI.assistantContent.
    cbn [Response.message Response.msg_content Response.msg_tool_calls
         OpenAI.tool_calls OpenAI.content join].
    change (encodeThinkingBlock t (Some s) +:+ EmptyString +:+ x)
      with (encodeThinkingBlock t (Some s) +:+ x).
    assert (match Response.callOf JSON_stringify <$> uses with
            | [] => Ok []
            | c :: l => OpenAI.toolUseBlocks JSON_parse (c :: l)
            end = Ok (Response.useBlock <$> uses)) as Hcalls.
    { pose proof (toolUseBlocks_callOf JSON_stringify JSON_parse uses Hjson) as H.
      destruct uses; [done | exact H]. }
    assert (truthy (encodeThinkingBlock t (Some s) +:+ x) = true) as Htruthy
      by reflexivity.
    destruct (Response.callOf JSON_stringify <$> uses) as [|c l] eqn:E;
      rewrite Hcalls; cbn [mbind result_bind OpenAI.truthyContent extractTextContent];
      rewrite Htruthy;
      by rewrite (parse_encode_text t s x). }
  unfold OpenAI.openaiToInternal.
  destruct (OpenAI.run JSON_parse (OpenAI.messages request) (mkState [] None))
    as [st|e] eqn:E; [|done].
  cbn [mbind result_bind]. intros [= <-]. split; [exact Hcontent |].
  unfold buildRequest. cbn [messages].
  assert (existsb isThinking blocks = true) as Hth.
  { unfold blocks. rewrite existsb_app. cbn [existsb isThinking].
    by rewrite orb_true_r. }
  apply filter_keeps; [|done | exact Hth].
  eapply (openai_run_pushes JSON_parse _ _ _ msg); [exact Hin | done | exact Hcontent | | exact E].
  intros Hb. by rewrite Hb in Hth.
Qed.

Lemma response_sent_back_witness :
  exists r,
    OpenAI.openaiToInternal Samples.parseEmptyObject MoreSamples.nextRequest
    = Ok r
    /\ OpenAI.assistantContent Samples.parseEmptyObject
         MoreSamples.sentBackMessage
       = Ok [ ToolUseBlock "t1" "search" (JObject []);
              ThinkingBlock "because X" (Some "abc");
              TextBlock "Let me look." ]
    /\ mkMessage Assistant
         [ ToolUseBlock "t1" "search" (JObject []);
           ThinkingBlock "because X" (Some "abc"); TextBlock "Let me look." ]
       ∈ messages r.
Proof.
  eexists. split; [vm_compute; reflexivity |].
  apply (response_sent_back MoreSamples.stringifyEmptyObject
           Samples.parseEmptyObject 0 MoreSamples.response "claude-4.5-opus"
           "because X" "abc" "Let me look." [("t1", "search", JObject [])]
           MoreSamples.nextRequest);
    try solve [discriminate | reflexivity].
  - intros u Hu. apply list_elem_of_singleton in Hu as ->. by split.
  - apply list_elem_of_further, list_elem_of_here.
Defined.

(** ** The conversation history ([sdk.ts]) *)

(** X14.  Taking the prefix off undoes putting it on: on a tool name and
    on the blocks of a record. *)
Theorem prefix_round_trip :
  (forall name, Sdk.sdkToApi (Sdk.apiToSdk name) = name)
  /\ (forall b, Sdk.unprefixToolUse (Sdk.prefixToolUse b) = b).
Proof.
  assert (forall name, Sdk.sdkToApi (Sdk.apiToSdk name) = name) as H.
  { intros name. unfold Sdk.sdkToApi, Sdk.apiToSdk.
    by rewrite stripPrefix_append. }
  split; [exact H |]. intros [ | | | | ]; simpl; by rewrite ?H.
Qed.

Section HistoryFacts.

Variable randomUUID : nat -> string.

Lemma chained_snoc (p : option string) (rs : list Sdk.SdkRecord)
  (r : Sdk.SdkRecord) :
  Sdk.chained p rs ->
  Sdk.parentUuid r
  = match last rs with Some x => Some (Sdk.rec_uuid x) | None => p end ->
  Sdk.chained p (rs ++ [r]).
Proof.
  revert p. induction rs as [|a rs IH]; intros p; simpl.
  - intros _ H. by split.
  - intros [Ha Hc] Hr. split; [done |]. apply IH; [done |].
    rewrite Hr. destruct rs as [|b rs']; [done |].
    change (last (a :: b :: rs')) with (last (b :: rs')).
    destruct (last (b :: rs')) eqn:E; [done |]. by apply last_None in E.
Qed.

(** The records so far are chained and [prevUuid] names the last one. *)
Let linked (st : Sdk.HistoryState) : Prop :=
  Sdk.chained None (Sdk.records st)
  /\ Sdk.prevUuid st = Sdk.rec_uuid <$> last (Sdk.records st).

Lemma pushAssistant_linked st c stop u :
  linked st -> linked (Sdk.pushAssistant randomUUID st c stop u).
Proof.
  intros [Hc Hp]. split; simpl.
  - apply chained_snoc; [done |]. simpl. rewrite Hp.
    by destruct (last (Sdk.records st)).
  - by rewrite last_snoc.
Qed.

Lemma pushUser_linked st c :
  linked st -> linked (Sdk.pushUser randomUUID st c).
Proof.
  intros [Hc Hp]. split; simpl.
  - apply chained_snoc; [done |]. simpl. rewrite Hp.
    by destruct (last (Sdk.records st)).
  - by rewrite last_snoc.
Qed.

Lemma historyStep_linked st msg :
  linked st -> linked (Sdk.historyStep randomUUID st msg).
Proof.
  intros H. unfold Sdk.historyStep. destruct (Sdk.isSplit msg).
  - apply pushAssistant_linked.
    destruct (firstn _ _); [done | by apply pushAssistant_linked].
  - destruct (role msg);
      [by apply pushUser_linked | by apply pushAssistant_linked].
Qed.

Lemma history_linked (messages : list InternalMessage) st :
  linked st -> linked (fold_left (Sdk.historyStep randomUUID) messages st).
Proof.
  revert st. induction messages as [|m ms IH]; intros st H; [done |].
  simpl. by apply IH, historyStep_linked.
Qed.

End HistoryFacts.

(** X15.  Whatever the identifiers drawn, the records of the history form
    one chain: the first one has no parent and every other one names the
    record before it. *)
Theorem history_is_chain (randomUUID : nat -> string)
  (messages : list InternalMessage) :
  Sdk.chained None (Sdk.buildJsonlHistory randomUUID messages).
Proof.
  unfold Sdk.buildJsonlHistory.
  by destruct (history_linked randomUUID messages (Sdk.mkHistory [] None 1)).
Qed.

Section HistoryBlocks.

Variable randomUUID : nat -> string.

Lemma filter_partition {A} (p : A -> bool) (l : list A) :
  List.filter p l ++ List.filter (fun a => negb (p a)) l ≡ₚ l.
Proof.
  induction l as [|a l IH]; [done |]. simpl. destruct (p a); simpl.
  - by rewrite IH.
  - rewrite <- Permutation_middle. by rewrite IH.
Qed.

Lemma prefix_firstn (l : list InternalContentBlock) (i : nat) :
  i <= Sdk.firstToolUseIndex l ->
  Sdk.prefixToolUse <$> firstn i l = firstn i l.
Proof.
  revert i. induction l as [|b l IH]; intros i Hi; [by destruct i |].
  destruct i as [|i]; [done |]. simpl in Hi.
  destruct (Sdk.isToolUse b) eqn:E; [lia |].
  cbn [firstn fmap list_fmap]. f_equal; [by destruct b |].
  apply IH. lia.
Qed.

Lemma splitIndex_le (l : list InternalContentBlock) :
  Sdk.splitIndex l <= Sdk.firstToolUseIndex l.
Proof.
  unfold Sdk.splitIndex. destruct (Sdk.firstToolUseIndex l) as [|j]; [done |].
  destruct (nth_error l j) as [prev|]; [|done].
  destruct (isThinking prev); lia.
Qed.

Lemma firstToolUseIndex_lt (l : list InternalContentBlock) :
  existsb Sdk.isToolUse l = true -> Sdk.firstToolUseIndex l < length l.
Proof.
  induction l as [|b l IH]; [done |]. simpl.
  destruct (Sdk.isToolUse b); simpl; [lia |]. intros H. specialize (IH H). lia.
Qed.

Lemma split_parts (l : list InternalContentBlock) :
  firstn (Sdk.splitIndex l) l
  ++ (Sdk.prefixToolUse <$> skipn (Sdk.splitIndex l) l)
  = Sdk.prefixToolUse <$> l.
Proof.
  rewrite <- (prefix_firstn l (Sdk.splitIndex l)) by apply splitIndex_le.
  rewrite <- fmap_app. by rewrite firstn_skipn.
Qed.

(** The blocks of all records, in the order of the records. *)
Let blocks (rs : list Sdk.SdkRecord) : list InternalContentBlock :=
  concat (Sdk.rec_content <$> rs).

Lemma blocks_snoc rs r : blocks (rs ++ [r]) = blocks rs ++ Sdk.rec_content r.
Proof.
  unfold blocks. rewrite fmap_app, concat_app. simpl. by rewrite app_nil_r.
Qed.

Lemma historyStep_blocks st msg :
  blocks (Sdk.records (Sdk.historyStep randomUUID st msg))
  ≡ₚ blocks (Sdk.records st) ++ (Sdk.prefixToolUse <$> content msg).
Proof.
  unfold Sdk.historyStep. destruct (Sdk.isSplit msg).
  - cbn [Sdk.pushAssistant Sdk.records]. rewrite blocks_snoc.
    cbn [Sdk.rec_content]. rewrite <- (split_parts (content msg)).
    destruct (firstn (Sdk.splitIndex (content msg)) (content msg)) eqn:E;
      [done |].
    cbn [Sdk.pushAssistant Sdk.records]. rewrite blocks_snoc.
    cbn [Sdk.rec_content]. by rewrite <- app_assoc.
  - destruct (role msg); cbn [Sdk.pushAssistant Sdk.pushUser Sdk.records];
      rewrite blocks_snoc; cbn [Sdk.rec_content]; [done |].
    by rewrite filter_partition.
Qed.

Lemma history_blocks (messages : list InternalMessage) st :
  blocks (Sdk.records (fold_left (Sdk.historyStep randomUUID) messages st))
  ≡ₚ blocks (Sdk.records st)
     ++ (Sdk.prefixToolUse <$> concat (content <$> messages)).
Proof.
  revert st. induction messages as [|m ms IH]; intros st.
  - simpl. by rewrite app_nil_r.
  - cbn [fold_left]. rewrite IH, historyStep_blocks.
    cbn [fmap list_fmap concat]. rewrite fmap_app. by rewrite <- app_assoc.
Qed.

Lemma historyStep_nonempty st msg :
  content msg <> [] ->
  (forall r, r ∈ Sdk.records st -> Sdk.rec_content r <> []) ->
  forall r, r ∈ Sdk.records (Sdk.historyStep randomUUID st msg) ->
            Sdk.rec_content r <> [].
Proof.
  intros Hc Hst r. unfold Sdk.historyStep.
  destruct (Sdk.isSplit msg) eqn:Es.
  - cbn [Sdk.pushAssistant Sdk.records].
    intros [Hr|Hr]%elem_of_app.
    + destruct (firstn _ _) eqn:E; [by apply Hst |].
      cbn [Sdk.pushAssistant Sdk.records] in Hr.
      apply elem_of_app in Hr as [Hr|Hr]; [by apply Hst |].
      by apply list_elem_of_singleton in Hr as ->.
    + apply list_elem_of_singleton in Hr as ->. cbn [Sdk.rec_content].
      unfold Sdk.isSplit in Es.
      apply andb_prop in Es as [Es _]. apply andb_prop in Es as [_ Es].
      pose proof (firstToolUseIndex_lt _ Es) as Hlt.
      pose proof (splitIndex_le (content msg)) as Hle.
      intros H%fmap_nil_inv. apply (f_equal length) in H.
      rewrite length_skipn in H. simpl in H. lia.
  - destruct (role msg); cbn [Sdk.pushAssistant Sdk.pushUser Sdk.records];
      intros [Hr|Hr]%elem_of_app; try (by apply Hst);
      apply list_elem_of_singleton in Hr as ->; cbn [Sdk.rec_content].
    + by intros H%fmap_nil_inv.
    + intros H. pose proof (filter_partition isThinking
                              (Sdk.prefixToolUse <$> content msg)) as Hp.
      rewrite H in Hp. apply Permutation_nil_l in Hp. symmetry in Hp.
      by apply fmap_nil_inv in Hp.
Qed.

End HistoryBlocks.

(** X16.  The history holds the blocks of the conversation, each
    [tool_use] block under its prefixed name, and nothing else: the blocks
    of its records are a rearrangement of the blocks of the messages. *)
Theorem history_keeps_blocks (randomUUID : nat -> string)
  (messages : list InternalMessage) :
  concat (Sdk.rec_content <$> Sdk.buildJsonlHistory randomUUID messages)
  ≡ₚ Sdk.prefixToolUse <$> concat (content <$> messages).
Proof.
  unfold Sdk.buildJsonlHistory.
  by rewrite (history_blocks randomUUID messages (Sdk.mkHistory [] None 1)).
Qed.

(** X17.  A conversation without empty message gives a history without
    empty record. *)
Theorem history_records_nonempty (randomUUID : nat -> string)
  (messages : list InternalMessage) (r : Sdk.SdkRecord) :
  (forall m, m ∈ messages -> content m <> []) ->
  r ∈ Sdk.buildJsonlHistory randomUUID messages ->
  Sdk.rec_content r <> [].
Proof.
  intros Hm. unfold Sdk.buildJsonlHistory.
  assert (forall x, x ∈ Sdk.records (Sdk.mkHistory [] None 1) ->
                    Sdk.rec_content x <> []) as H0
    by (intros x Hx; by apply elem_of_nil in Hx).
  generalize dependent (Sdk.mkHistory [] None 1). revert r.
  induction messages as [|m ms IH]; intros r st H0; [apply H0 |].
  cbn [fold_left]. apply IH.
  - intros x Hx. apply Hm. by apply list_elem_of_further.
  - apply historyStep_nonempty; [|done]. apply Hm, list_elem_of_here.
Qed.

Lemma history_records_nonempty_witness :
  Forall (fun r => Sdk.rec_content r <> [])
    (Sdk.buildJsonlHistory MoreSamples.sampleUuid Samples.twoCalls).
Proof.
  apply Forall_forall. intros r.
  apply (history_records_nonempty MoreSamples.sampleUuid Samples.twoCalls).
  intros m Hm. unfold Samples.twoCalls in Hm.
  repeat (apply elem_of_cons in Hm as [->|Hm]); try done.
  by apply elem_of_nil in Hm.
Defined.

Section SplitRule.

Variable randomUUID : nat -> string.

Lemma firstToolUseIndex_app (pre rest : list InternalContentBlock)
  (b : InternalContentBlock) :
  forallb (fun x => negb (Sdk.isToolUse x)) pre = true ->
  Sdk.isToolUse b = true ->
  Sdk.firstToolUseIndex (pre ++ b :: rest) = length pre.
Proof.
  intros Hpre Hb. induction pre as [|a pre IH]; simpl; [by rewrite Hb |].
  simpl in Hpre. apply andb_prop in Hpre as [Ha Hpre].
  apply negb_true_iff in Ha. rewrite Ha. by rewrite IH.
Qed.

End SplitRule.

(** X18.  An assistant turn whose first tool call comes right after a
    thinking block is cut before that thinking block: what precedes it, if
    anything, is a record of its own, and the thinking block opens the
    record of the tool call. *)
Theorem history_split_keeps_thinking (randomUUID : nat -> string)
  (st : Sdk.HistoryState) (pre rest : list InternalContentBlock)
  (th : InternalContentBlock) (id name : string) (input : JsonValue) :
  forallb (fun x => negb (Sdk.isToolUse x)) pre = true ->
  isThinking th = true ->
  Sdk.historyStep randomUUID st
    (mkMessage Assistant (pre ++ th :: ToolUseBlock id name input :: rest))
  = Sdk.pushAssistant randomUUID
      (match pre with
       | [] => st
       | _ => Sdk.pushAssistant randomUUID st pre None (50, 20)%Z
       end)
      (th :: ToolUseBlock id (Sdk.apiToSdk name) input
          :: (Sdk.prefixToolUse <$> rest))
      (Some "tool_use") (50, 30)%Z.
Proof.
  intros Hpre Hth.
  set (c := pre ++ th :: ToolUseBlock id name input :: rest).
  assert (Sdk.firstToolUseIndex c = S (length pre)) as Hi.
  { unfold c.
    change (pre ++ th :: ToolUseBlock id name input :: rest)
      with (pre ++ [th] ++ ToolUseBlock id name input :: rest).
    rewrite app_assoc, (firstToolUseIndex_app (pre ++ [th])); [|  | done].
    - rewrite length_app. simpl. lia.
    - rewrite forallb_app, Hpre. simpl. by destruct th. }
  assert (Sdk.splitIndex c = length pre) as Hk.
  { unfold Sdk.splitIndex. rewrite Hi. unfold c.
    rewrite nth_error_app2 by lia. rewrite Nat.sub_diag. simpl.
    by rewrite Hth. }
  assert (Sdk.isSplit (mkMessage Assistant c) = true) as Hs.
  { unfold Sdk.isSplit, c. simpl. rewrite !existsb_app. simpl.
    rewrite Hth. by rewrite !orb_true_r. }
  unfold Sdk.historyStep. rewrite Hs. cbn [content]. rewrite Hk. unfold c.
  rewrite firstn_app, firstn_all, Nat.sub_diag. simpl firstn.
  rewrite app_nil_r.
  rewrite skipn_app, skipn_all, Nat.sub_diag. simpl.
  destruct th; try done.
Qed.

Lemma history_split_keeps_thinking_witness :
  Sdk.historyStep MoreSamples.sampleUuid (Sdk.mkHistory [] None 1) Samples.answer
  = Sdk.pushAssistant MoreSamples.sampleUuid
      (Sdk.pushAssistant MoreSamples.sampleUuid (Sdk.mkHistory [] None 1)
         [TextBlock "Let me check."] None (50, 20)%Z)
      [ ThinkingBlock "plan" (Some "sg");
        ToolUseBlock "t1" (Sdk.apiToSdk "search") (JObject []) ]
      (Some "tool_use") (50, 30)%Z.
Proof.
  by apply (history_split_keeps_thinking MoreSamples.sampleUuid
              (Sdk.mkHistory [] None 1) [TextBlock "Let me check."] []
              (ThinkingBlock "plan" (Some "sg")) "t1" "search" (JObject [])).
Defined.

(** ** The event stream of the agent runtime *)

Section StreamFacts.

Import Stream.

Lemma count_app {A} (p : A -> bool) (l k : list A) :
  count p (l ++ k) = count p l + count p k.
Proof. unfold count. by rewrite List.filter_app, length_app. Qed.

Lemma count_cons {A} (p : A -> bool) (x : A) (l : list A) :
  count p (x :: l) = (if p x then 1 else 0) + count p l.
Proof. unfold count. simpl. by destruct (p x). Qed.

Lemma count_zero {A} (p : A -> bool) (l : list A) :
  count p l = 0 <-> Forall (fun x => p x = false) l.
Proof.
  unfold count. induction l as [|x l IH]; simpl.
  - split; [constructor | done].
  - destruct (p x) eqn:E; simpl.
    + split; [done | intros H; inversion H; congruence].
    + rewrite IH. split; [by constructor | intros H; by inversion H].
Qed.

Let sentCount (st : State) : nat :=
  if messageStopSent st then 1 else 0.

Lemma blockStop_sent st :
  messageStopSent (blockStop st).1 = messageStopSent st
  /\ count isMessageStop (blockStop st).2 = 0.
Proof.
  unfold blockStop.
  destruct (truthyOpt (currentToolId st)); simpl;
    destruct (inThinkingBlock st); simpl; by rewrite ?count_app.
Qed.

Lemma step_sent hasTools st msg st' evs stop :
  step hasTools st msg = (st', evs, stop) ->
  count isMessageStop evs + sentCount st = sentCount st'
  /\ (stop = true -> messageStopSent st' = true).
Proof.
  unfold sentCount.
  destruct msg as [event|u|]; simpl.
  - destruct event as [block|d| |u|u| |]; simpl.
    + destruct block; intros [= <- <- <-]; simpl; by destruct (messageStopSent st).
    + destruct d; intros [= <- <- <-]; simpl; by destruct (messageStopSent st).
    + pose proof (blockStop_sent st) as [Hs Hc].
      destruct (blockStop st) as [st1 evs1]; simpl in *.
      intros [= <- <- <-]. rewrite Hc, Hs. by destruct (messageStopSent st).
    + destruct u; intros [= <- <- <-]; simpl; by destruct (messageStopSent st).
    + destruct u; intros [= <- <- <-]; simpl; by destruct (messageStopSent st).
    + destruct (hasSeenToolUse st), hasTools, (messageStopSent st) eqn:E;
        simpl; intros [= <- <- <-]; simpl; by rewrite ?E.
    + intros [= <- <- <-]; simpl; by destruct (messageStopSent st).
  - destruct u; simpl; destruct (messageStopSent st) eqn:E; simpl;
      intros [= <- <- <-]; simpl; by rewrite ?E.
  - intros [= <- <- <-]; simpl; by destruct (messageStopSent st).
Qed.

Lemma run_sent hasTools msgs : forall st st' evs stop,
  run hasTools msgs st = (st', evs, stop) ->
  count isMessageStop evs + sentCount st = sentCount st'
  /\ (stop = true -> messageStopSent st' = true).
Proof.
  induction msgs as [|msg rest IH]; intros st st' evs stop; simpl.
  - by intros [= <- <- <-].
  - destruct (step hasTools st msg) as [[st1 evs1] stop1] eqn:E1.
    apply step_sent in E1 as [Hc Hs].
    destruct stop1.
    + intros [= <- <- <-]. done.
    + destruct (run hasTools rest st1) as [[st2 evs2] stop2] eqn:E2.
      apply IH in E2 as [Hc2 Hs2].
      intros [= <- <- <-]. rewrite count_app. split; [lia | done].
Qed.

(** The two ways in which [streamMessages] ends: after the fallback, or
    by rethrowing an error of the runtime that is not an abort. *)
Lemma streamMessages_cases q hasTools :
  exists st evs stop,
    run hasTools (delivered q) initial = (st, evs, stop)
    /\ (streamMessages q hasTools = (evs ++ fallback st, None)
        /\ (stop = true \/ ending q = Returns
            \/ exists e, ending q = Throws e /\ isAbortError e = true)
        \/ exists e,
             streamMessages q hasTools = (evs, Some e)
             /\ stop = false /\ ending q = Throws e
             /\ isAbortError e = false).
Proof.
  unfold streamMessages.
  destruct (run hasTools (delivered q) initial) as [[st evs] stop].
  exists st, evs, stop. split; [done|].
  destruct stop; [left; auto|].
  destruct (ending q) as [|e]; [left; auto|].
  destruct (isAbortError e) eqn:Ea; [left; eauto 6 | right; eauto].
Qed.

Lemma fallback_count st :
  count isMessageStop (fallback st) + sentCount st = 1.
Proof.
  unfold fallback, sentCount. by destruct (messageStopSent st).
Qed.

Lemma streamMessages_stops q hasTools :
  let '(events, thrown) := streamMessages q hasTools in
  count isMessageStop events <= 1
  /\ (thrown = None -> count isMessageStop events = 1).
Proof.
  destruct (streamMessages_cases q hasTools)
    as (st & evs & stop & E & [[-> _]|(e & -> & _)]);
    apply run_sent in E as [Hc _]; unfold sentCount in Hc at 1;
    simpl in Hc.
  - pose proof (fallback_count st). rewrite count_app. lia.
  - split; [|done]. unfold sentCount in Hc.
    destruct (messageStopSent st); lia.
Qed.

(** X19.  [streamMessages] yields at most one [message_stop] event, and
    exactly one whenever it does not throw.  What it throws is an error
    that the runtime threw and that is not an [AbortError]; it throws
    nothing when the runtime returns or throws an [AbortError]. *)
Theorem stream_one_message_stop (q : Runtime) (hasTools : bool) :
  let '(events, thrown) := streamMessages q hasTools in
  count isMessageStop events <= 1
  /\ (thrown = None -> count isMessageStop events = 1)
  /\ (forall e, thrown = Some e ->
                ending q = Throws e /\ isAbortError e = false)
  /\ (ending q = Returns -> thrown = None)
  /\ (forall e, ending q = Throws e -> isAbortError e = true ->
                thrown = None).
Proof.
  pose proof (streamMessages_stops q hasTools) as H.
  destruct (streamMessages_cases q hasTools)
    as (st & evs & stop & E & [[Hs _]|(e & Hs & _ & He & Ha)]);
    rewrite Hs in *; destruct H as [H1 H2];
    (split; [done | split; [done|]]).
  - repeat split; done.
  - split; [by intros ? [= <-] |]. split; [by rewrite He |].
    intros e' He' Ha'. rewrite He in He'. injection He' as <-. congruence.
Qed.

Lemma blockStop_seen st :
  hasSeenToolUse (blockStop st).1 = hasSeenToolUse st.
Proof.
  unfold blockStop.
  by destruct (truthyOpt (currentToolId st)); simpl;
    destruct (inThinkingBlock st).
Qed.






Let endTurn (e : StreamEvent) : Prop :=
  isMessageStop e = true -> exists u, e = message_stop (Some Response.EndTurn) u.

Lemma step_end_turn hasTools st msg st' evs stop :
  hasSeenToolUse st = false ->
  isToolStart msg = false ->
  step hasTools st msg = (st', evs, stop) ->
  hasSeenToolUse st' = false /\ Forall endTurn evs.
Proof.
  intros Hn. unfold endTurn.
  destruct msg as [event|u|]; simpl.
  - destruct event as [block|d| |u|u| |]; simpl.
    + destruct block; try done; intros _ [= <- <- <-]; simpl;
        (split; [done|]); repeat constructor; done.
    + destruct d; intros _ [= <- <- <-]; simpl;
        (split; [done|]); repeat constructor; done.
    + pose proof (blockStop_seen st) as Hb. unfold blockStop in *.
      destruct (truthyOpt (currentToolId st)); simpl in *;
        destruct (inThinkingBlock st); simpl in *;
        intros _ [= <- <- <-]; simpl; (split; [done|]);
        repeat constructor; done.
    + destruct u; intros _ [= <- <- <-]; simpl; (split; [done|]); constructor.
    + destruct u; intros _ [= <- <- <-]; simpl; (split; [done|]); constructor.
    + rewrite Hn. simpl. intros _ [= <- <- <-]. split; [done | constructor].
    + intros _ [= <- <- <-]. split; [done | constructor].
  - unfold stopReasonOf.
    destruct u; simpl; rewrite Hn; destruct (messageStopSent st); simpl;
      intros _ [= <- <- <-]; simpl; (split; [done|]);
      repeat constructor; eauto.
  - intros _ [= <- <- <-]. split; [done | constructor].
Qed.

Lemma run_end_turn hasTools msgs : forall st st' evs stop,
  hasSeenToolUse st = false ->
  existsb isToolStart msgs = false ->
  run hasTools msgs st = (st', evs, stop) ->
  hasSeenToolUse st' = false /\ Forall endTurn evs.
Proof.
  induction msgs as [|msg rest IH]; intros st st' evs stop Hn; simpl.
  - intros _ [= <- <- <-]. split; [done | constructor].
  - intros [Hm Hr]%orb_false_iff.
    destruct (step hasTools st msg) as [[st1 evs1] stop1] eqn:E1.
    apply step_end_turn in E1 as [Hn1 F1]; [|done..].
    destruct stop1; [by intros [= <- <- <-]|].
    destruct (run hasTools rest st1) as [[st2 evs2] stop2] eqn:E2.
    apply IH in E2 as [Hn2 F2]; [|done..].
    intros [= <- <- <-]. split; [done | by apply Forall_app].
Qed.

(** X21.  When the runtime starts no tool call, the [message_stop] that
    [streamMessages] yields carries the reason [end_turn]. *)
Theorem stream_end_turn (q : Runtime) (hasTools : bool)
  (e : StreamEvent) :
  existsb isToolStart (delivered q) = false ->
  e ∈ (streamMessages q hasTools).1 ->
  isMessageStop e = true ->
  exists u, e = message_stop (Some Response.EndTurn) u.
Proof.
  intros Ht.
  destruct (streamMessages_cases q hasTools)
    as (st & evs & stop & E & Hcase).
  apply run_end_turn in E as [Hn F]; [|done..].
  destruct Hcase as [[-> _]|(e' & -> & _)]; cbn [fst].
  - intros [He|He]%elem_of_app.
    + by apply (proj1 (Forall_forall _ _) F).
    + unfold fallback in He.
      destruct (messageStopSent st); [by apply elem_of_nil in He|].
      apply list_elem_of_singleton in He as ->.
      unfold stopReasonOf. rewrite Hn. eauto.
  - intros He. by apply (proj1 (Forall_forall _ _) F).
Qed.

Lemma stream_end_turn_witness :
  exists u,
    message_stop (Some Response.EndTurn)
      (Response.mkUsage 12 1 (Some 0%Z) (Some 0%Z))
    = message_stop (Some Response.EndTurn) u.
Proof.
  apply (stream_end_turn (mkRuntime MoreSamples.textTurn Returns) true);
    [reflexivity | | reflexivity].
  vm_compute. apply list_elem_of_further, list_elem_of_here.
Defined.

Section Brackets.

Variables opens closes : StreamEvent -> bool.
Variable level : State -> nat.
Variable hasTools : bool.

Let bracketed (st st' : State) (evs : list StreamEvent) : Prop :=
  (forall pre post, evs = pre ++ post ->
     count closes pre <= count opens pre + level st)
  /\ count closes evs + level st' <= count opens evs + level st.

Hypothesis step_bracketed : forall st msg st' evs stop,
  step hasTools st msg = (st', evs, stop) -> bracketed st st' evs.

Lemma run_bracketed msgs : forall st st' evs stop,
  run hasTools msgs st = (st', evs, stop) -> bracketed st st' evs.
Proof using step_bracketed.
  induction msgs as [|msg rest IH]; intros st st' evs stop; simpl.
  - intros [= <- <- <-]. split; [|done].
    intros pre post H. symmetry in H. apply app_eq_nil in H as [-> _].
    unfold count; simpl; lia.
  - destruct (step hasTools st msg) as [[st1 evs1] stop1] eqn:E1.
    apply step_bracketed in E1 as [P1 W1].
    destruct stop1; [by intros [= <- <- <-]|].
    destruct (run hasTools rest st1) as [[st2 evs2] stop2] eqn:E2.
    apply IH in E2 as [P2 W2].
    intros [= <- <- <-]. split.
    + intros pre post H. apply app_eq_app in H as [l [[-> ->]|[-> ->]]].
      * by apply (P1 pre l).
      * rewrite !count_app. specialize (P2 l post eq_refl). lia.
    + rewrite !count_app. lia.
Qed.

End Brackets.

Let toolOpen (st : State) : nat :=
  if truthyOpt (currentToolId st) then 1 else 0.

Let thinkingOpen (st : State) : nat :=
  if inThinkingBlock st then 1 else 0.

Local Ltac prefixes :=
  let pre := fresh "pre" in
  let post := fresh "post" in
  let H := fresh "H" in
  split;
  [ intros pre post H;
    destruct pre as [|? [|? [|? ?]]]; simplify_eq/=;
    unfold count; simpl; lia
  | unfold count; simpl; lia ].

Lemma step_tool_bracketed hasTools st msg st' evs stop :
  step hasTools st msg = (st', evs, stop) ->
  (forall pre post, evs = pre ++ post ->
     count isToolUseStop pre <= count isToolUseStart pre + toolOpen st)
  /\ count isToolUseStop evs + toolOpen st'
     <= count isToolUseStart evs + toolOpen st.
Proof.
  unfold toolOpen.
  destruct msg as [event|u|]; simpl.
  - destruct event as [block|d| |u|u| |]; simpl.
    + destruct block; intros [= <- <- <-]; simpl;
        repeat case_match; prefixes.
    + destruct d; intros [= <- <- <-]; simpl; repeat case_match; prefixes.
    + unfold blockStop.
      destruct (truthyOpt (currentToolId st)) eqn:Ec; simpl;
        destruct (inThinkingBlock st); simpl;
        intros [= <- <- <-]; simpl; rewrite ?Ec; prefixes.
    + destruct u; intros [= <- <- <-]; simpl; repeat case_match; prefixes.
    + destruct u; intros [= <- <- <-]; simpl; repeat case_match; prefixes.
    + destruct (hasSeenToolUse st && hasTools && negb (messageStopSent st));
        intros [= <- <- <-]; simpl; repeat case_match; prefixes.
    + intros [= <- <- <-]; simpl; repeat case_match; prefixes.
  - destruct u; simpl; destruct (messageStopSent st); simpl;
      intros [= <- <- <-]; simpl; repeat case_match; prefixes.
  - intros [= <- <- <-]; simpl; repeat case_match; prefixes.
Qed.

Lemma step_thinking_bracketed hasTools st msg st' evs stop :
  step hasTools st msg = (st', evs, stop) ->
  (forall pre post, evs = pre ++ post ->
     count isThinkingStop pre <= count isThinkingStart pre + thinkingOpen st)
  /\ count isThinkingStop evs + thinkingOpen st'
     <= count isThinkingStart evs + thinkingOpen st.
Proof.
  unfold thinkingOpen.
  destruct msg as [event|u|]; simpl.
  - destruct event as [block|d| |u|u| |]; simpl.
    + destruct block; intros [= <- <- <-]; simpl;
        repeat case_match; prefixes.
    + destruct d; intros [= <- <- <-]; simpl; repeat case_match; prefixes.
    + unfold blockStop.
      destruct (truthyOpt (currentToolId st)); simpl;
        destruct (inThinkingBlock st) eqn:Ec; simpl;
        intros [= <- <- <-]; simpl; rewrite ?Ec; prefixes.
    + destruct u; intros [= <- <- <-]; simpl; repeat case_match; prefixes.
    + destruct u; intros [= <- <- <-]; simpl; repeat case_match; prefixes.
    + destruct (hasSeenToolUse st && hasTools && negb (messageStopSent st));
        intros [= <- <- <-]; simpl; repeat case_match; prefixes.
    + intros [= <- <- <-]; simpl; repeat case_match; prefixes.
  - destruct u; simpl; destruct (messageStopSent st); simpl;
      intros [= <- <- <-]; simpl; repeat case_match; prefixes.
  - intros [= <- <- <-]; simpl; repeat case_match; prefixes.
Qed.

Lemma prefix_of_snoc {A} (l pre post : list A) (x : A) :
  l ++ [x] = pre ++ post ->
  (exists post', l = pre ++ post') \/ pre = l ++ [x].
Proof.
  intros H. apply app_eq_app in H as [k [[-> H]|[-> H]]].
  - left. by exists k.
  - destruct k as [|y k].
    + left. exists []. by rewrite !app_nil_r.
    + right. simpl in H. injection H as <- H.
      symmetry in H. apply app_eq_nil in H as [-> _]. done.
Qed.

(** X22.  At every point of the stream, [streamMessages] has yielded no
    more [tool_use_stop] events than [tool_use_start] events, and no
    more [thinking_stop] events than [thinking_start] events. *)
Theorem stream_stops_follow_starts (q : Runtime) (hasTools : bool)
  (pre post : list StreamEvent) :
  (streamMessages q hasTools).1 = pre ++ post ->
  count isToolUseStop pre <= count isToolUseStart pre
  /\ count isThinkingStop pre <= count isThinkingStart pre.
Proof.
  destruct (streamMessages_cases q hasTools)
    as (st & evs & stop & E & [[-> _]|(e' & -> & _)]); cbn [fst];
    pose proof (run_bracketed _ _ toolOpen hasTools
                  (step_tool_bracketed hasTools) _ _ _ _ _ E) as [T _];
    pose proof (run_bracketed _ _ thinkingOpen hasTools
                  (step_thinking_bracketed hasTools) _ _ _ _ _ E) as [K _];
    unfold toolOpen in T; unfold thinkingOpen in K; simpl in T, K.
  - unfold fallback. destruct (messageStopSent st).
    + rewrite app_nil_r. intros H.
      specialize (T _ _ H). specialize (K _ _ H). lia.
    + intros [[post' H]| ->]%prefix_of_snoc.
      * specialize (T _ _ H). specialize (K _ _ H). lia.
      * specialize (T evs [] (eq_sym (app_nil_r _))).
        specialize (K evs [] (eq_sym (app_nil_r _))).
        rewrite !count_app. unfold count at 2 4 6 8. simpl. lia.
  - intros H. specialize (T _ _ H). specialize (K _ _ H). lia.
Qed.

Lemma stream_stops_follow_starts_witness :
  count isToolUseStop (streamMessages MoreSamples.toolTurn true).1
  <= count isToolUseStart (streamMessages MoreSamples.toolTurn true).1
  /\ count isThinkingStop (streamMessages MoreSamples.toolTurn true).1
     <= count isThinkingStart (streamMessages MoreSamples.toolTurn true).1.
Proof.
  apply (stream_stops_follow_starts MoreSamples.toolTurn true _ []).
  by rewrite app_nil_r.
Defined.

End StreamFacts.

(** ** The streamed response of the route *)

Section RouteFacts.

Import Route.

Lemma step_done st event :
  Stream.count isDone (step st event).2
  = (if Stream.isMessageStop event then 1 else 0)
  /\ done (step st event).1 = done st || Stream.isMessageStop event
  /\ Stream.count hasFinish (chunks (step st event).2)
     = (if Stream.isMessageStop event then 1 else 0).
Proof.
  unfold step.
  destruct event; cbn -[String.append calculateCrc32 escapeFences];
    by rewrite ?orb_false_r, ?orb_true_r.
Qed.

Lemma chunks_app (w w' : list Write) : chunks (w ++ w') = chunks w ++ chunks w'.
Proof. apply omap_app. Qed.

Lemma loop_done events : forall st,
  Stream.count isDone (loop events st).2
  = Stream.count Stream.isMessageStop events
  /\ done (loop events st).1
     = done st || (0 <? Stream.count Stream.isMessageStop events)
  /\ Stream.count hasFinish (chunks (loop events st).2)
     = Stream.count Stream.isMessageStop events.
Proof.
  induction events as [|event rest IH]; intros st; cbn [loop].
  - cbn. by rewrite orb_false_r.
  - pose proof (step_done st event) as (Hc & Hd & Hf).
    destruct (step st event) as [st1 w1]; simpl in Hc, Hd, Hf.
    specialize (IH st1) as (Hc' & Hd' & Hf').
    destruct (loop rest st1) as [st2 w2]; simpl in *.
    rewrite chunks_app, !count_app, Hc, Hc', Hf, Hf', Hd', Hd, count_cons.
    destruct (Stream.isMessageStop event), (done st),
      (Stream.count Stream.isMessageStop rest); done.
Qed.

Lemma step_no_error st event :
  Stream.count isErrorData (step st event).2 = 0.
Proof.
  unfold step.
  by destruct event; cbn -[String.append calculateCrc32 escapeFences].
Qed.

Lemma loop_no_error events : forall st,
  Stream.count isErrorData (loop events st).2 = 0.
Proof.
  induction events as [|event rest IH]; intros st; cbn [loop]; [done|].
  pose proof (step_no_error st event) as H.
  destruct (step st event) as [st1 w1]. specialize (IH st1).
  destruct (loop rest st1) as [st2 w2]. cbn [snd] in *.
  rewrite count_app. lia.
Qed.

Lemma respond_done events thrown :
  Stream.count isDone (respond events thrown)
  = match thrown with
    | None => Nat.max 1 (Stream.count Stream.isMessageStop events)
    | Some _ => Stream.count Stream.isMessageStop events + 1
    end
  /\ Stream.count hasFinish (chunks (respond events thrown))
     = Stream.count Stream.isMessageStop events
  /\ Stream.count isErrorData (respond events thrown)
     = match thrown with Some _ => 1 | None => 0 end.
Proof.
  unfold respond.
  pose proof (loop_done events initial) as (Hc & Hd & Hf).
  pose proof (loop_no_error events initial) as He.
  destruct (loop events initial) as [st w]; simpl in *.
  match goal with
  | |- context [Comment ?t :: w ++ ?tl] =>
      change (Comment t :: w ++ tl) with ([Comment t] ++ w ++ tl)
  end.
  rewrite !chunks_app, !count_app, Hc, Hf, He, Hd.
  destruct thrown as [e|].
  - rewrite !count_cons. cbn. unfold Stream.count. cbn. lia.
  - destruct (Stream.count Stream.isMessageStop events); simpl; [done|].
    unfold Stream.count. simpl. lia.
Qed.

(** X23.  When [streamMessages] does not throw, the response streamed
    for the run holds exactly one chunk with a finish reason, exactly one
    [data: [DONE]] line and no error line.  When it throws, the response
    ends with the error line and a [data: [DONE]] line of the [catch]
    branch, and holds at most one chunk with a finish reason and one
    [data: [DONE]] line more than such chunks. *)
Theorem response_finishes_once (q : Stream.Runtime) (hasTools : bool) :
  let written := streamed q hasTools in
  match (Stream.streamMessages q hasTools).2 with
  | None =>
      Stream.count isDone written = 1
      /\ Stream.count hasFinish (chunks written) = 1
      /\ Stream.count isErrorData written = 0
  | Some e =>
      Stream.count isDone written
      = 1 + Stream.count hasFinish (chunks written)
      /\ Stream.count hasFinish (chunks written) <= 1
      /\ exists before, written = before ++ [ErrorData (errorMessage e); Done]
  end.
Proof.
  cbv zeta. unfold streamed.
  pose proof (streamMessages_stops q hasTools) as H.
  destruct (Stream.streamMessages q hasTools) as [events thrown].
  destruct H as [H1 H2].
  pose proof (respond_done events thrown) as (Hd & Hf & He).
  cbn [snd]. destruct thrown as [e|].
  - rewrite Hd, Hf. split; [lia | split; [done|]].
    unfold respond. destruct (loop events initial) as [st w].
    by exists (Comment "stream connected" :: w).
  - rewrite Hd, Hf, He, H2 by done. done.
Qed.

Lemma streamedText_app (w w' : list Write) :
  streamedText (w ++ w') = streamedText w +:+ streamedText w'.
Proof.
  unfold streamedText. rewrite chunks_app, omap_app.
  induction (omap (fun c => content (delta c)) (chunks w)) as [|x l IH];
    [done|].
  simpl. by rewrite IH, append_assoc.
Qed.

(** The trailer that closes a streamed thinking block. *)
Let sigTag (signature : option string) (accumulated : string) : string :=
  match signature with
  | Some s =>
      if truthy s && truthy accumulated
      then Codec.sigOpen +:+ s +:+ Codec.crcOpen
           +:+ calculateCrc32 accumulated +:+ "]"
      else EmptyString
  | None => EmptyString
  end.

Let escaped (deltas : list string) : string :=
  wholeText (escapeFences <$> deltas).

Lemma loop_thinking_tail signature deltas : forall st,
  streamedText
    (loop ((Stream.thinking_delta <$> deltas)
           ++ [Stream.thinking_stop signature]) st).2
  = escaped deltas
    +:+ sigTag signature (accumulatedThinking st +:+ escaped deltas)
    +:+ Codec.fence +:+ nl +:+ nl.
Proof.
  induction deltas as [|d deltas IH]; intros st.
  - cbn -[String.append calculateCrc32 Codec.fence Codec.sigOpen nl].
    unfold escaped, sigTag. cbn [fmap list_fmap wholeText fold_right].
    rewrite append_nil_r.
    unfold streamedText.
    cbn -[String.append calculateCrc32 Codec.fence Codec.sigOpen nl].
    by rewrite append_nil_r.
  - cbn [fmap list_fmap app loop].
    change (list_fmap _ _ Stream.thinking_delta deltas)
      with (Stream.thinking_delta <$> deltas).
    destruct (step st (Stream.thinking_delta d)) as [st1 w1] eqn:E1.
    unfold step in E1.
    cbn -[String.append escapeFences] in E1. injection E1 as <- <-.
    specialize (IH (mkState false (currentToolIndex st) (done st)
                      (accumulatedThinking st +:+ escapeFences d))).
    destruct (loop _ _) as [st2 w2]. cbn [snd] in *.
    rewrite streamedText_app, IH.
    unfold escaped. cbn [fmap list_fmap wholeText fold_right accumulatedThinking].
    change (list_fmap _ _ escapeFences deltas) with (escapeFences <$> deltas).
    unfold streamedText at 1.
    cbn -[String.append escapeFences].
    rewrite append_nil_r.
    fold (wholeText (escapeFences <$> deltas)).
    by rewrite (append_assoc (escapeFences d)),
      (append_assoc (accumulatedThinking st)).
Qed.

Lemma thinking_streamed st deltas signature :
  streamedText (loop (thinkingEvents deltas signature) st).2
  = Codec.header +:+ escaped deltas
    +:+ sigTag signature (escaped deltas) +:+ Codec.fence +:+ nl +:+ nl.
Proof.
  unfold thinkingEvents. cbn [loop].
  destruct (step st Stream.thinking_start) as [st1 w1] eqn:E1.
  unfold step in E1. cbn -[String.append Codec.header] in E1.
  injection E1 as <- <-.
  pose proof (loop_thinking_tail signature deltas
                (mkState false (currentToolIndex st) (done st) EmptyString))
    as IH.
  destruct (loop _ _) as [st2 w2]. cbn [snd] in *.
  rewrite streamedText_app, IH. by cbn [accumulatedThinking String.append].
Qed.

Lemma escapeFences_cons (a : ascii) (r : string) :
  Ascii.eqb a Codec.backtick = false ->
  escapeFences (String a r) = String a (escapeFences r).
Proof.
  intros Ha. destruct r as [|b [|c r3]]; [reflexivity..|].
  cbn [escapeFences]. rewrite Ha. reflexivity.
Qed.

Lemma escapeFences_plain (s : string) :
  allChars notBacktick s = true -> escapeFences s = s.
Proof.
  induction s as [|a r IH]; [done|].
  cbn [allChars]. intros [Ha Hr]%andb_true_iff.
  unfold notBacktick in Ha. apply negb_true_iff in Ha.
  by rewrite escapeFences_cons, IH.
Qed.

Lemma escapeBackticks_plain (s : string) :
  allChars notBacktick s = true -> Codec.escapeBackticks s = s.
Proof.
  induction s as [|a r IH]; [done|].
  cbn [allChars]. intros [Ha Hr]%andb_true_iff.
  unfold notBacktick in Ha. apply negb_true_iff in Ha.
  cbn [Codec.escapeBackticks]. by rewrite Ha, IH.
Qed.

Lemma escaped_plain (deltas : list string) :
  Forall (fun d => allChars notBacktick d = true) deltas ->
  escaped deltas = wholeText deltas
  /\ allChars notBacktick (wholeText deltas) = true.
Proof.
  unfold escaped.
  induction 1 as [|d deltas Hd _ [IH1 IH2]]; [done|].
  cbn [fmap list_fmap wholeText fold_right] in *.
  change (list_fmap _ _ escapeFences deltas) with (escapeFences <$> deltas).
  unfold wholeText in IH1. rewrite IH1, escapeFences_plain by done.
  split; [done|]. rewrite allChars_append, Hd. exact IH2.
Qed.

Lemma thinking_streamed_plain st deltas signature :
  Forall (fun d => allChars notBacktick d = true) deltas ->
  truthy (wholeText deltas) = true ->
  streamedText (loop (thinkingEvents deltas signature) st).2
  = Codec.encodeThinkingBlock (wholeText deltas) signature.
Proof.
  intros [He Hp]%escaped_plain Ht.
  rewrite thinking_streamed, He. unfold Codec.encodeThinkingBlock, sigTag.
  rewrite escapeBackticks_plain by done.
  destruct signature as [s|]; [|done].
  by rewrite Ht, andb_true_r.
Qed.

(** X24.  A thinking block whose text holds no backtick and is not
    empty is streamed, piece by piece, as the very text that
    [encodeThinkingBlock] gives for the whole block. *)
Theorem streamed_thinking_is_encoded (st : State) (deltas : list string)
  (signature : option string) :
  Forall (fun d => allChars notBacktick d = true) deltas ->
  truthy (wholeText deltas) = true ->
  streamedText (loop (thinkingEvents deltas signature) st).2
  = Codec.encodeThinkingBlock (wholeText deltas) signature.
Proof. apply thinking_streamed_plain. Qed.

Lemma streamed_thinking_is_encoded_witness :
  streamedText
    (loop (thinkingEvents MoreSamples.thinkingDeltas (Some "c2lnbmF0dXJl"))
       initial).2
  = Codec.encodeThinkingBlock (wholeText MoreSamples.thinkingDeltas)
      (Some "c2lnbmF0dXJl").
Proof.
  apply streamed_thinking_is_encoded; [|reflexivity].
  repeat constructor.
Defined.

(** X25.  Sent back in a later request, the streamed text of a signed
    thinking block is read as that thinking block: the text of the
    pieces put together, with the signature of the runtime. *)
Theorem streamed_thinking_read_back (st : State) (deltas : list string)
  (s : string) :
  Forall (fun d => allChars notBacktick d = true) deltas ->
  wholeText deltas <> EmptyString ->
  trim (wholeText deltas) = wholeText deltas ->
  includes Codec.sigOpen (wholeText deltas) = false ->
  s <> EmptyString ->
  allChars Codec.notCommaBracket s = true ->
  Parse.parseThinkingFromText
    (streamedText (loop (thinkingEvents deltas (Some s)) st).2)
  = [ThinkingBlock (wholeText deltas) (Some s)].
Proof.
  intros Hp Hne Htrim Hsig Hs Hok.
  rewrite thinking_streamed_plain; [| done | by destruct (wholeText deltas)].
  by apply parse_encode.
Qed.

Lemma streamed_thinking_read_back_witness :
  Parse.parseThinkingFromText
    (streamedText
       (loop (thinkingEvents MoreSamples.thinkingDeltas (Some "c2lnbmF0dXJl"))
          initial).2)
  = [ThinkingBlock (wholeText MoreSamples.thinkingDeltas)
       (Some "c2lnbmF0dXJl")].
Proof.
  apply streamed_thinking_read_back;
    [repeat constructor | done | reflexivity | reflexivity | done | reflexivity].
Defined.

Let roleless (c : Chunk) : Prop := role (delta c) = false.

Lemma step_chunk st event :
  (chunks (step st event).2 = []
   /\ isFirstChunk (step st event).1 = isFirstChunk st
   /\ currentToolIndex (step st event).1 = currentToolIndex st)
  \/ exists c,
       chunks (step st event).2 = [c]
       /\ isFirstChunk (step st event).1 = false
       /\ (isFirstChunk st = false -> role (delta c) = false)
       /\ currentToolIndex (step st event).1
          = (currentToolIndex st + if opensCall c then 1 else 0)%Z
       /\ forall call, tool_calls (delta c) = Some [call] ->
            call_index call
            = (currentToolIndex st - if opensCall c then 0 else 1)%Z.
Proof.
  unfold step.
  destruct event;
    cbn -[String.append calculateCrc32 escapeFences Z.add Z.sub];
    try (by left);
    right; eexists; (split; [reflexivity|]);
    cbn -[Z.add Z.sub]; repeat split; try done;
    try (intros call [= <-]; cbn -[Z.add Z.sub]); lia.
Qed.

Lemma loop_roleless events : forall st,
  isFirstChunk st = false -> Forall roleless (chunks (loop events st).2).
Proof.
  induction events as [|event rest IH]; intros st Hf; cbn [loop].
  - constructor.
  - pose proof (step_chunk st event) as H.
    destruct (step st event) as [st1 w1]. cbn [fst snd] in H.
    specialize (IH st1).
    destruct (loop rest st1) as [st2 w2]. cbn [snd] in *.
    rewrite chunks_app.
    destruct H as [(-> & H1 & _)|(c & -> & H1 & Hr & _)].
    + apply IH. congruence.
    + constructor; [by apply Hr | by apply IH].
Qed.

(** X26.  In a streamed response only the first chunk can carry the
    role: every later chunk has a delta without [role], whether or not
    the stream of events ends in an error. *)
Theorem role_only_in_first_chunk (events : list Stream.StreamEvent)
  (thrown : option Stream.Thrown) :
  Forall (fun c => role (delta c) = false)
    (tail (chunks (respond events thrown))).
Proof.
  unfold respond.
  assert (forall evs st,
            Forall roleless (tail (chunks (loop evs st).2))) as H.
  { induction evs as [|event rest IH]; intros st; cbn [loop].
    - constructor.
    - pose proof (step_chunk st event) as H.
      destruct (step st event) as [st1 w1]. cbn [fst snd] in H.
      specialize (IH st1). pose proof (loop_roleless rest st1) as L.
      destruct (loop rest st1) as [st2 w2]. cbn [snd] in *.
      rewrite chunks_app.
      destruct H as [(-> & _)|(c & -> & H1 & _)]; [done|].
      by apply L. }
  specialize (H events initial).
  destruct (loop events initial) as [st w]. cbn [snd] in H.
  match goal with
  | |- context [Comment ?t :: w ++ ?tl] =>
      change (Comment t :: w ++ tl) with ([Comment t] ++ w ++ tl);
      assert (chunks tl = []) as Htl
        by (by destruct thrown, (done st))
  end.
  rewrite !chunks_app, Htl.
  by rewrite app_nil_r.
Qed.

Lemma loop_call_index events : forall st pre c post call,
  chunks (loop events st).2 = pre ++ c :: post ->
  tool_calls (delta c) = Some [call] ->
  call_index call
  = (currentToolIndex st + Z.of_nat (Stream.count opensCall pre)
     - if opensCall c then 0 else 1)%Z.
Proof.
  induction events as [|event rest IH]; intros st pre c post call;
    cbn [loop].
  - intros H. by destruct pre.
  - pose proof (step_chunk st event) as H.
    destruct (step st event) as [st1 w1]. cbn [fst snd] in H.
    specialize (IH st1).
    destruct (loop rest st1) as [st2 w2]. cbn [snd] in *.
    rewrite chunks_app.
    destruct H as [(-> & _ & Hi)|(c0 & -> & _ & _ & Hi & Hc)].
    + intros H1 H2. rewrite (IH _ _ _ _ H1 H2), Hi. done.
    + destruct pre as [|c1 pre]; cbn [app].
      * intros [= <- _] H2. rewrite (Hc _ H2).
        unfold Stream.count. simpl. lia.
      * intros [= <- H1] H2. rewrite (IH _ _ _ _ H1 H2), Hi, count_cons.
        destruct (opensCall c0); lia.
Qed.

(** X27.  The tool calls of a streamed response are numbered from 0 in
    the order they are opened, and a chunk with arguments carries the
    number of the call opened last before it. *)
Theorem streamed_call_indexes (events : list Stream.StreamEvent)
  (thrown : option Stream.Thrown)
  (pre post : list Chunk) (c : Chunk) (call : ToolCallDelta) :
  chunks (respond events thrown) = pre ++ c :: post ->
  tool_calls (delta c) = Some [call] ->
  call_index call
  = (Z.of_nat (Stream.count opensCall pre)
     - if opensCall c then 0 else 1)%Z.
Proof.
  unfold respond.
  pose proof (loop_call_index events initial pre c) as H.
  destruct (loop events initial) as [st w]. cbn [snd] in H.
  match goal with
  | |- context [Comment ?t :: w ++ ?tl] =>
      change (Comment t :: w ++ tl) with ([Comment t] ++ w ++ tl);
      assert (chunks tl = []) as Htl
        by (by destruct thrown, (done st))
  end.
  rewrite !chunks_app, Htl.
  rewrite app_nil_r. cbn [chunks omap list_omap app].
  intros H1 H2. rewrite (H _ _ H1 H2). simpl. lia.
Qed.

Lemma streamed_call_indexes_witness :
  call_index (mkToolCallDelta 0 None None "{}") = (1 - 1)%Z.
Proof.
  apply (streamed_call_indexes MoreSamples.callEvents None
           [mkChunk
              (mkDelta true None
                 (Some [mkToolCallDelta 0 (Some "toolu_1") (Some "search")
                          EmptyString]))
              None None]
           [mkChunk (mkDelta false None None) (Some Response.ToolCalls)
              (Some (Response.mkChatUsage 12 1 13))]
           (mkChunk
              (mkDelta false None
                 (Some [mkToolCallDelta 0 None None "{}"]))
              None None));
    reflexivity.
Defined.

End RouteFacts.

(** ** The query of the agent runtime *)

Section QueryFacts.

Import Query.

Lemma all_users (messages : list InternalMessage) :
  existsb (isRole Assistant) messages = false ->
  List.filter (isRole User) messages = messages.
Proof.
  induction messages as [|m messages IH]; [done|].
  cbn [existsb List.filter]. intros [Hm Hr]%orb_false_iff.
  assert (isRole User m = true) as ->.
  { unfold isRole in *. by destruct (role m). }
  by rewrite IH.
Qed.

(** X28.  [processRequest] throws [No user message found] exactly when
    the request holds no message: a request with an assistant message or
    a tool result resumes a written history, and any other request with
    a message ends in a user message. *)
Theorem no_user_message_iff_empty (randomUUID : nat -> string)
  (messages : list InternalMessage) :
  (exists e, choosePrompt randomUUID messages = inl e) <-> messages = [].
Proof.
  unfold choosePrompt, needsResume. split.
  - intros [e H].
    destruct (Sdk.hasToolResult messages); [done|].
    destruct (existsb (isRole Assistant) messages) eqn:Ea; [done|].
    cbn [orb] in H. rewrite (all_users _ Ea) in H.
    destruct (last messages) eqn:El; [done|].
    by apply last_None in El.
  - intros ->. by eexists.
Qed.

Let settled (st : State) : Prop :=
  (stopReason st = Some Response.ToolUse
   /\ existsb Response.isToolUse (contentBlocks st) = true)
  \/ ((stopReason st = None \/ stopReason st = Some Response.EndTurn)
      /\ existsb Response.isToolUse (contentBlocks st) = false).

Let running (st : State) : Prop :=
  (stopReason st = Some Response.ToolUse
   /\ existsb Response.isToolUse (contentBlocks st) = true)
  \/ (stopReason st = None
      /\ existsb Response.isToolUse (contentBlocks st) = false).

Lemma pushSdkBlock_running st block :
  running st -> running (pushSdkBlock st block).
Proof.
  unfold running.
  destruct block; cbn [pushSdkBlock stopReason contentBlocks];
    rewrite ?existsb_app; cbn [existsb Response.isToolUse];
    rewrite ?orb_true_r, ?orb_false_r; intros [[? ?]|[? ?]]; auto.
Qed.

Lemma fold_pushSdkBlock_running blocks : forall st,
  running st -> running (fold_left pushSdkBlock blocks st).
Proof.
  induction blocks as [|b blocks IH]; intros st H; [done|].
  cbn [fold_left]. by apply IH, pushSdkBlock_running.
Qed.

Lemma collect_settled msgs : forall st, running st -> settled (collect msgs st).
Proof.
  induction msgs as [|msg rest IH]; intros st H; cbn [collect].
  - destruct H as [?|[? ?]]; [by left | right; auto].
  - destruct msg as [m|u success|].
    + apply IH. unfold onAssistant.
      pose proof (fold_pushSdkBlock_running (message_content m)) as F.
      destruct (message_usage m); apply F, H.
    + unfold settled, onResult. cbn [stopReason contentBlocks].
      destruct H as [[-> ?]|[-> ?]]; [by left | right].
      destruct success; auto.
    + by apply IH.
Qed.

Lemma respondOnce_settled firstId model msgs :
  let r := respondOnce firstId model msgs in
  (Response.stopReason r = Some Response.ToolUse
   /\ existsb Response.isToolUse (Response.content r) = true)
  \/ ((Response.stopReason r = None
       \/ Response.stopReason r = Some Response.EndTurn)
      /\ existsb Response.isToolUse (Response.content r) = false).
Proof.
  cbv zeta. unfold respondOnce.
  cbn [Response.stopReason Response.content].
  apply collect_settled. right. done.
Qed.

(** X29.  Without streaming, the answer to the client names the finish
    reason [tool_calls] exactly when its message carries tool calls, and
    never the finish reason [length]. *)
Theorem finish_reason_matches_tool_calls
  (JSON_stringify : JsonValue -> string) (now : Z) (firstId : string)
  (model : option string) (msgs : list SdkMessage) (requestModel : string) :
  let r := Response.internalToOpenai JSON_stringify now
             (respondOnce firstId model msgs) requestModel in
  (Response.finish_reason r = Some Response.ToolCalls
   <-> Response.msg_tool_calls (Response.message r) <> None)
  /\ Response.finish_reason r <> Some Response.Length.
Proof.
  cbv zeta. unfold Response.internalToOpenai. rewrite fold_pushBlock.
  cbn [app Response.message Response.msg_tool_calls Response.finish_reason].
  pose proof (respondOnce_settled firstId model msgs) as H. cbv zeta in H.
  assert (forall l, omap (Response.toolCallOf JSON_stringify) l = []
                    <-> existsb Response.isToolUse l = false) as E.
  { intros l. induction l as [|b l IH]; [done|].
    cbn [omap list_omap existsb]. destruct b; cbn; try exact IH; done. }
  specialize (E (Response.content (respondOnce firstId model msgs))).
  destruct H as [[-> Hc]|[[-> | ->] Hc]]; cbn [Response.finishReasonOf].
  - split; [|done]. split; [|done]. intros _.
    destruct (omap _ _); [|done].
    destruct E as [E _]. rewrite E in Hc; done.
  - split; [|done]. split; [done|].
    destruct E as [_ E]. by rewrite (E Hc).
  - split; [|done]. split; [done|].
    destruct E as [_ E]. by rewrite (E Hc).
Qed.

End QueryFacts.
